(** * Location and ride-lifecycle engine of the driver application

  A shallow embedding of the parts of the driver application that its
  specification makes claims about:

  - [LocationUtils]  : [src/utils/LocationUtils.ts], the GPS sample filter;
  - [RouteService]   : [RouteService.ts], the route geometry;
  - [SocketChannel]  : [src/socket.ts], the connection options and the
                       disconnect handler;
  - [Screen1]        : the ride handlers of [src/Screen1.tsx].

  Numbers.  JavaScript numbers are modelled by the real numbers of the
  Standard Library: every arithmetic operation is the exact one, so the
  rounding of IEEE doubles is not part of the model.  The two special
  values the code relies on are modelled where they occur: [Js.value]
  adds [undefined], [null] and [NaN] to the numbers for the arguments the
  code validates, and [Js.number] adds [Infinity] for the running minimum
  of a nearest-point search.  A [NaN] that only rounding produces (the
  haversine distance of two antipodal points) and [Infinity] as a
  coordinate are outside the model; no statement below is about them.
  Array indices are integers ([Z]). *)

From Stdlib Require Import Reals Lra Lia List String Bool ZArith Psatz.
Import ListNotations.
Open Scope R_scope.

(** ** JavaScript values used by the code *)

Module Js.

(** An argument typed [any] or [number] that the code checks before use. *)
Inductive value : Type :=
| Undefined
| Null
| NaN
| Num (r : R).

(** A number that may be [Infinity] (the initial running minimum). *)
Inductive number : Type :=
| Finite (r : R)
| Infinity.

Definition ltb (x y : R) : bool := if Rlt_dec x y then true else false.
Definition gtb (x y : R) : bool := ltb y x.
Definition eqb (x y : R) : bool := if Req_dec_T x y then true else false.

(** [d < m] where [m] may be [Infinity]. *)
Definition lt_number (d : R) (m : number) : bool :=
  match m with
  | Finite r => ltb d r
  | Infinity => true
  end.

(** [m > t] where [m] may be [Infinity]. *)
Definition number_gt (m : number) (t : R) : bool :=
  match m with
  | Finite r => gtb r t
  | Infinity => true
  end.

(** [Math.max] and [Math.min] on numbers. *)
Definition max (x y : R) : R := if Rlt_dec x y then y else x.
Definition min (x y : R) : R := if Rlt_dec y x then y else x.

(** [Math.atan2(y, x)] on real arguments. *)
Definition atan2 (y x : R) : R :=
  if Rlt_dec 0 x then atan (y / x)
  else if Rlt_dec x 0 then
         (if Rlt_dec y 0 then atan (y / x) - PI else atan (y / x) + PI)
  else if Rlt_dec 0 y then PI / 2
  else if Rlt_dec y 0 then - (PI / 2)
  else 0.

(** [Math.round]: the integer nearest to [x], halves rounded up. *)
Definition round (x : R) : Z := (up (x + / 2) - 1)%Z.

(** [x === undefined || x === null]. *)
Definition is_nullish (v : value) : bool :=
  match v with
  | Undefined | Null => true
  | _ => false
  end.

(** [isNaN(x)] for a value that is not nullish. *)
Definition isNaN (v : value) : bool :=
  match v with
  | Num _ => false
  | _ => true
  end.

(** [x <= y] and [x >= y] on numbers. *)
Definition leb (x y : R) : bool := if Rle_dec x y then true else false.
Definition geb (x y : R) : bool := leb y x.

(** [Math.floor] *)
Definition floor (x : R) : Z := (up x - 1)%Z.

(** The integer part of [x], towards zero. *)
Definition trunc (x : R) : Z :=
  if Rlt_dec x 0 then (- floor (- x))%Z else floor x.

(** [x % m] on numbers: the remainder has the sign of the dividend. *)
Definition rem (x m : R) : R := x - m * IZR (trunc (x / m)).

(** The number a value converts to in arithmetic; [None] is [NaN]. *)
Definition toNumber (v : value) : option R :=
  match v with
  | Num r => Some r
  | Null => Some 0
  | Undefined | NaN => None
  end.

End Js.

(** ** [src/utils/LocationUtils.ts] *)

Module LocationUtils.

Record LocationPoint : Type := {
  latitude : R;
  longitude : R;
  timestamp : R;
  accuracy : Js.value
}.

Record TrackingResult : Type := {
  distance : R;
  totalDistance : R;
  totalDistanceKm : R;
  res_latitude : R;
  res_longitude : R
}.

(** [isValidLocation(lat, lng)] *)
Definition isValidLocation (lat lng : Js.value) : bool :=
  if Js.is_nullish lat || Js.is_nullish lng then false
  else if Js.isNaN lat || Js.isNaN lng then false
  else true.

(** [calculateDistance(lat1, lon1, lat2, lon2)]: the haversine formula. *)
Definition calculateDistance (lat1 lon1 lat2 lon2 : R) : R :=
  let R_earth := 6371000 in
  let dLat := (lat2 - lat1) * PI / 180 in
  let dLon := (lon2 - lon1) * PI / 180 in
  let a :=
    sin (dLat / 2) * sin (dLat / 2) +
    cos (lat1 * PI / 180) * cos (lat2 * PI / 180) *
    sin (dLon / 2) * sin (dLon / 2) in
  let c := 2 * Js.atan2 (sqrt a) (sqrt (1 - a)) in
  R_earth * c.

(** The private fields of [class LocationTracker]. *)
Record LocationTracker : Type := {
  lastValidLocation : option LocationPoint;
  trackedDistance : R;                       (* [this.totalDistance] *)
  locationBuffer : list LocationPoint
}.

Definition minDistanceThreshold : R := 5.
Definition maxSpeedThreshold : R := 50.
Definition maxAccuracyThreshold : R := 40.
Definition smoothingBufferSize : nat := 3.

(** [constructor(initialDistance = 0)] *)
Definition new_LocationTracker (initialDistance : R) : LocationTracker :=
  {| lastValidLocation := None;
     trackedDistance := initialDistance;
     locationBuffer := [] |}.

(** [accuracy !== undefined && accuracy !== null && accuracy > 40] *)
Definition poorAccuracy (accuracy : Js.value) : bool :=
  match accuracy with
  | Js.Num a => Js.gtb a maxAccuracyThreshold
  | _ => false
  end.

(** [push] followed by the conditional [shift]. *)
Definition pushSample (buffer : list LocationPoint) (p : LocationPoint)
  : list LocationPoint :=
  let pushed := buffer ++ [p] in
  if (smoothingBufferSize <? List.length pushed)%nat then tl pushed else pushed.

(** [buffer.reduce((sum, p) => sum + f(p), 0) / buffer.length] *)
Definition average (f : LocationPoint -> R) (buffer : list LocationPoint) : R :=
  fold_left (fun sum p => sum + f p) buffer 0 / INR (List.length buffer).

Definition smoothed (f : LocationPoint -> R) (buffer : list LocationPoint)
           (raw : R) : R :=
  if (0 <? List.length buffer)%nat then average f buffer else raw.

Definition result_of (d total lat lng : R) : TrackingResult :=
  {| distance := d;
     totalDistance := total;
     totalDistanceKm := total / 1000;
     res_latitude := lat;
     res_longitude := lng |}.

(** [processLocation(newLat, newLng, timestamp, accuracy)]: the returned
    value ([None] for [null]) and the tracker after the call. *)
Definition processLocation (self : LocationTracker)
           (newLat newLng : Js.value) (ts : R) (acc : Js.value)
  : option TrackingResult * LocationTracker :=
  if negb (isValidLocation newLat newLng) then (None, self)
  else
    match newLat, newLng with
    | Js.Num lat, Js.Num lng =>
        if poorAccuracy acc then (None, self)
        else
          let buffer :=
            pushSample (locationBuffer self)
              {| latitude := lat; longitude := lng;
                 timestamp := ts; accuracy := acc |} in
          let smoothedLat := smoothed latitude buffer lat in
          let smoothedLng := smoothed longitude buffer lng in
          let here :=
            {| latitude := smoothedLat; longitude := smoothedLng;
               timestamp := ts; accuracy := acc |} in
          match lastValidLocation self with
          | None =>
              (Some (result_of 0 (trackedDistance self) smoothedLat smoothedLng),
               {| lastValidLocation := Some here;
                  trackedDistance := trackedDistance self;
                  locationBuffer := buffer |})
          | Some last =>
              let d :=
                calculateDistance (latitude last) (longitude last)
                                  smoothedLat smoothedLng in
              let timeDiff := (ts - timestamp last) / 1000 in
              let speed := if Js.gtb timeDiff 0 then d / timeDiff else 0 in
              if Js.ltb d minDistanceThreshold then
                (None,
                 {| lastValidLocation := Some last;
                    trackedDistance := trackedDistance self;
                    locationBuffer := buffer |})
              else if Js.gtb speed maxSpeedThreshold then
                (None,
                 {| lastValidLocation := Some last;
                    trackedDistance := trackedDistance self;
                    locationBuffer := buffer |})
              else
                let total := trackedDistance self + d in
                (Some (result_of d total smoothedLat smoothedLng),
                 {| lastValidLocation := Some here;
                    trackedDistance := total;
                    locationBuffer := buffer |})
          end
    | _, _ => (None, self)
    end.

(** [reset()] *)
Definition reset (self : LocationTracker) : LocationTracker :=
  {| lastValidLocation := None; trackedDistance := 0; locationBuffer := [] |}.

(** [getCurrentDistance()] *)
Definition getCurrentDistance (self : LocationTracker) : R :=
  trackedDistance self.

(** One GPS fix as it is handed to [processLocation]. *)
Record Fix : Type := {
  fixLat : Js.value;
  fixLng : Js.value;
  fixTime : R;
  fixAccuracy : Js.value
}.

Definition feed (self : LocationTracker) (f : Fix) : LocationTracker :=
  snd (processLocation self (fixLat f) (fixLng f) (fixTime f) (fixAccuracy f)).

(** A sequence of [processLocation] calls with no [reset()] in between. *)
Definition feedAll (self : LocationTracker) (fs : list Fix) : LocationTracker :=
  fold_left feed fs self.

End LocationUtils.

(** ** [RouteService.ts] *)

Module RouteService.

Record LatLng : Type := {
  latitude : R;
  longitude : R
}.

Record RouteSegments : Type := {
  travelled : list LatLng;
  remaining : list LatLng;
  progress : R;
  nearestIndex : Z;
  distanceToRoute : Js.number
}.

(** The value [{ index, distance }] of a nearest-point search. *)
Record NearestPoint : Type := {
  index : Z;
  distance : Js.number
}.

(** [getDistanceInMeters(a, b)]: the haversine formula. *)
Definition getDistanceInMeters (a b : LatLng) : R :=
  let R_earth := 6371000 in
  let dLat := ((latitude b - latitude a) * PI) / 180 in
  let dLon := ((longitude b - longitude a) * PI) / 180 in
  let lat1 := (latitude a * PI) / 180 in
  let lat2 := (latitude b * PI) / 180 in
  let h :=
    sin (dLat / 2) * sin (dLat / 2) +
    cos lat1 * cos lat2 * sin (dLon / 2) * sin (dLon / 2) in
  let c := 2 * Js.atan2 (sqrt h) (sqrt (1 - h)) in
  R_earth * c.

(** [Array.prototype.slice(start, end)]; [None] for an omitted [end].
    Negative positions count from the end of the array. *)
Definition slice {A : Type} (l : list A) (start : Z) (stop : option Z) : list A :=
  let n := Z.of_nat (List.length l) in
  let clamp (k : Z) := if (k <? 0)%Z then Z.max (n + k) 0 else Z.min k n in
  let k := clamp start in
  let final := match stop with Some e => clamp e | None => n end in
  firstn (Z.to_nat (final - k)) (skipn (Z.to_nat k) l).

(** The body of the two search loops: visit index [i] with the running
    minimum [(minDistance, nearestIndex)]. *)
Definition visit (driverLocation : LatLng) (route : list LatLng)
           (best : Js.number * Z) (i : nat) : Js.number * Z :=
  match nth_error route i with
  | Some p =>
      let d := getDistanceInMeters driverLocation p in
      if Js.lt_number d (fst best) then (Js.Finite d, Z.of_nat i) else best
  | None => best
  end.

(** [for (let i = from; i < to; i++)] over indices inside the route. *)
Definition scan (driverLocation : LatLng) (route : list LatLng)
           (from to : Z) (best : Js.number * Z) : Js.number * Z :=
  fold_left (visit driverLocation route)
            (seq (Z.to_nat from) (Z.to_nat (to - from))) best.

(** [findNearestPointOnRoute(driverLocation, route, lastKnownIndex = 0,
    searchRadius = 100)].  The result is [None] when the call throws: the
    second loop reads [route[i]] at a negative [i], and the distance
    function dereferences [undefined]. *)
Definition findNearestPointOnRoute (driverLocation : LatLng)
           (route : list LatLng) (lastKnownIndex searchRadius : Z)
  : option NearestPoint :=
  if (List.length route =? 0)%nat then
    Some {| index := 0%Z; distance := Js.Infinity |}
  else
    let n := Z.of_nat (List.length route) in
    let searchStart := Z.max 0 (lastKnownIndex - 5) in
    let searchEnd := Z.min n (lastKnownIndex + searchRadius) in
    let best :=
      scan driverLocation route searchStart searchEnd
           (Js.Infinity, lastKnownIndex) in
    if (snd best >=? searchEnd - 1)%Z && (searchEnd <? n)%Z then
      if (searchEnd <? 0)%Z then None
      else
        let best' := scan driverLocation route searchEnd n best in
        Some {| index := snd best'; distance := fst best' |}
    else Some {| index := snd best; distance := fst best |}.

Definition defaultSearchRadius : Z := 100.

(** The value of [isDriverOffRoute]. *)
Record OffRoute : Type := {
  isOffRoute : bool;
  offDistance : Js.number;
  offNearestIndex : Z
}.

(** [isDriverOffRoute(driverLocation, route, thresholdMeters = 30,
    lastKnownIndex = 0)] *)
Definition isDriverOffRoute (driverLocation : LatLng) (route : list LatLng)
           (thresholdMeters : R) (lastKnownIndex : Z) : option OffRoute :=
  match findNearestPointOnRoute driverLocation route lastKnownIndex
                                defaultSearchRadius with
  | Some np =>
      Some {| isOffRoute := Js.number_gt (distance np) thresholdMeters;
              offDistance := distance np;
              offNearestIndex := index np |}
  | None => None
  end.

(** [projectPointOnSegment(point, segStart, segEnd)] *)
Definition projectPointOnSegment (point segStart segEnd : LatLng) : LatLng :=
  let dx := longitude segEnd - longitude segStart in
  let dy := latitude segEnd - latitude segStart in
  if Js.eqb dx 0 && Js.eqb dy 0 then segStart
  else
    let t :=
      Js.max 0
        (Js.min 1
           (((longitude point - longitude segStart) * dx +
             (latitude point - latitude segStart) * dy) /
            (dx * dx + dy * dy))) in
    {| latitude := latitude segStart + t * dy;
       longitude := longitude segStart + t * dx |}.

(** [route[i]] for an integer [i]; [None] is [undefined]. *)
Definition at_index (route : list LatLng) (i : Z) : option LatLng :=
  if (i <? 0)%Z then None else nth_error route (Z.to_nat i).

(** [getInterpolatedDriverPosition(driverLocation, route, nearestIndex)];
    [None] when a segment end is [undefined] and the projection throws. *)
Definition getInterpolatedDriverPosition (driverLocation : LatLng)
           (route : list LatLng) (nearestIndex : Z) : option LatLng :=
  let n := Z.of_nat (List.length route) in
  if (n <? 2)%Z || (nearestIndex >=? n)%Z then Some driverLocation
  else
    let nextIndex := Z.min (n - 1) (nearestIndex + 1) in
    match at_index route nearestIndex, at_index route nextIndex with
    | Some segStart, Some segEnd =>
        Some (projectPointOnSegment driverLocation segStart segEnd)
    | _, _ => None
    end.

(** [splitRouteAtDriver(driverLocation, fullRoute, lastNearestIndex = 0)] *)
Definition splitRouteAtDriver (driverLocation : LatLng)
           (fullRoute : list LatLng) (lastNearestIndex : Z)
  : option RouteSegments :=
  if (List.length fullRoute <? 2)%nat then
    Some {| travelled := [];
            remaining := fullRoute;
            progress := 0;
            nearestIndex := 0%Z;
            distanceToRoute := Js.Finite 0 |}
  else
    match findNearestPointOnRoute driverLocation fullRoute lastNearestIndex
                                  defaultSearchRadius with
    | None => None
    | Some np =>
        match getInterpolatedDriverPosition driverLocation fullRoute
                                            (index np) with
        | None => None
        | Some interpolatedPosition =>
            let travelled :=
              slice fullRoute 0 (Some (index np + 1)%Z)
                ++ [interpolatedPosition] in
            let remaining :=
              interpolatedPosition :: slice fullRoute (index np + 1) None in
            let progress :=
              IZR (index np) / (INR (List.length fullRoute) - 1) * 100 in
            Some {| travelled := travelled;
                    remaining := remaining;
                    progress := Js.min 100 (Js.max 0 progress);
                    nearestIndex := index np;
                    distanceToRoute := distance np |}
        end
    end.

(** [perpendicularDistance(point, lineStart, lineEnd)] *)
Definition perpendicularDistance (point lineStart lineEnd : LatLng) : R :=
  let dx := longitude lineEnd - longitude lineStart in
  let dy := latitude lineEnd - latitude lineStart in
  if Js.eqb dx 0 && Js.eqb dy 0 then getDistanceInMeters point lineStart
  else
    let t :=
      ((longitude point - longitude lineStart) * dx +
       (latitude point - latitude lineStart) * dy) /
      (dx * dx + dy * dy) in
    let closestPoint :=
      {| latitude := latitude lineStart + t * dy;
         longitude := longitude lineStart + t * dx |} in
    getDistanceInMeters point closestPoint.

(** The loop of [simplifyRoute] over the inner points [1 .. length - 2],
    with the running [(maxDistance, maxIndex)]. *)
Definition farther (route : list LatLng) (startPoint endPoint : LatLng)
           (best : R * nat) (i : nat) : R * nat :=
  match nth_error route i with
  | Some p =>
      let d := perpendicularDistance p startPoint endPoint in
      if Js.gtb d (fst best) then (d, i) else best
  | None => best
  end.

Definition farthest (route : list LatLng) (startPoint endPoint : LatLng)
  : R * nat :=
  fold_left (farther route startPoint endPoint)
            (seq 1 (List.length route - 2)) (0, 0%nat).

(** [simplifyRoute(route, tolerance = 0.00005)].  The recursion of the
    source is bounded by [fuel]; [None] means the fuel ran out. *)
Fixpoint simplifyRoute (fuel : nat) (route : list LatLng) (tolerance : R)
  : option (list LatLng) :=
  if (List.length route <=? 2)%nat then Some route
  else
    match fuel, route with
    | O, _ => None
    | _, [] => Some route
    | S fuel', startPoint :: _ =>
        let endPoint := last route startPoint in
        let '(maxDistance, maxIndex) := farthest route startPoint endPoint in
        if Js.gtb maxDistance tolerance then
          match simplifyRoute fuel'
                  (slice route 0 (Some (Z.of_nat maxIndex + 1)%Z)) tolerance,
                simplifyRoute fuel'
                  (slice route (Z.of_nat maxIndex) None) tolerance with
          | Some left_, Some right_ =>
              Some (slice left_ 0 (Some (-1)%Z) ++ right_)
          | _, _ => None
          end
        else Some [startPoint; endPoint]
    end.

Definition defaultTolerance : R := 5 / 100000.

(** [route[0]] and [route[route.length - 1]]; [None] is [undefined]. *)
Definition first_elem (route : list LatLng) : option LatLng :=
  nth_error route 0.

Definition last_elem (route : list LatLng) : option LatLng :=
  nth_error route (List.length route - 1).

(** The point [a + s * (b - a)] of the line through [a] and [b]. *)
Definition along (a b : LatLng) (s : R) : LatLng :=
  {| latitude := latitude a + s * (latitude b - latitude a);
     longitude := longitude a + s * (longitude b - longitude a) |}.

(** Squared distance in the latitude/longitude plane, the metric in which
    [projectPointOnSegment] works. *)
Definition planar2 (p q : LatLng) : R :=
  (latitude p - latitude q) * (latitude p - latitude q) +
  (longitude p - longitude q) * (longitude p - longitude q).

(** [p] lies on the straight line through [a] and [b]. *)
Definition on_line (a b p : LatLng) : Prop :=
  (latitude p - latitude a) * (longitude b - longitude a) =
  (longitude p - longitude a) * (latitude b - latitude a).

(** The points [(i, i)], [i = 0 .. n - 1], of a diagonal straight line. *)
Definition diagonal (n : nat) : list LatLng :=
  map (fun i => {| latitude := INR i; longitude := INR i |}) (seq 0 n).

(** [interpolatePoint(start, end, fraction)] *)
Definition interpolatePoint (start finish : LatLng) (fraction : R) : LatLng :=
  {| latitude := latitude start + (latitude finish - latitude start) * fraction;
     longitude :=
       longitude start + (longitude finish - longitude start) * fraction |}.

(** Run the body of a loop over the indices and collect what it pushes;
    [None] when the body throws. *)
Fixpoint collect (body : nat -> option LatLng) (indices : list nat)
  : option (list LatLng) :=
  match indices with
  | [] => Some []
  | i :: rest =>
      match body i, collect body rest with
      | Some p, Some ps => Some (p :: ps)
      | _, _ => None
      end
  end.

(** The body of the loop of [interpolateRoutes] at index [i]. *)
Definition interpolatedAt (oldRoute newRoute : list LatLng) (progress : R)
           (referenceLength : nat) (i : nat) : option LatLng :=
  let oldIndex :=
    Z.min (Js.floor (INR i / INR referenceLength * INR (List.length oldRoute)))
          (Z.of_nat (List.length oldRoute) - 1) in
  let newIndex := Nat.min i (List.length newRoute - 1) in
  match at_index oldRoute oldIndex, nth_error newRoute newIndex with
  | Some oldPoint, Some newPoint =>
      Some (interpolatePoint oldPoint newPoint progress)
  | _, _ => None
  end.

(** [interpolateRoutes(oldRoute, newRoute, progress)] *)
Definition interpolateRoutes (oldRoute newRoute : list LatLng) (progress : R)
  : option (list LatLng) :=
  if (List.length oldRoute =? 0)%nat then Some newRoute
  else if (List.length newRoute =? 0)%nat then Some oldRoute
  else if Js.geb progress 1 then Some newRoute
  else if Js.leb progress 0 then Some oldRoute
  else
    let referenceRoute :=
      if (List.length oldRoute <=? List.length newRoute)%nat
      then newRoute else oldRoute in
    collect (interpolatedAt oldRoute newRoute progress
                            (List.length referenceRoute))
            (seq 0 (List.length referenceRoute)).

(** [isSignificantMovement(oldLocation, newLocation, minDistanceMeters = 10)] *)
Definition isSignificantMovement (oldLocation : option LatLng)
           (newLocation : LatLng) (minDistanceMeters : R) : bool :=
  match oldLocation with
  | None => true
  | Some old => Js.geb (getDistanceInMeters old newLocation) minDistanceMeters
  end.

(** [calculateBearing(start, end)], in degrees. *)
Definition calculateBearing (start finish : LatLng) : R :=
  let lat1 := (latitude start * PI) / 180 in
  let lat2 := (latitude finish * PI) / 180 in
  let dLon := ((longitude finish - longitude start) * PI) / 180 in
  let y := sin dLon * cos lat2 in
  let x := cos lat1 * sin lat2 - sin lat1 * cos lat2 * cos dLon in
  let bearing := Js.atan2 y x in
  let bearing := (bearing * 180) / PI in
  Js.rem (bearing + 360) 360.

(** Following a route: the nearest index of one [splitRouteAtDriver] call
    is fed back as the hint of the next; [None] when a split throws. *)
Fixpoint followRoute (fullRoute : list LatLng) (hint : Z)
         (positions : list LatLng) : option Z :=
  match positions with
  | [] => Some hint
  | position :: rest =>
      match splitRouteAtDriver position fullRoute hint with
      | Some segments => followRoute fullRoute (nearestIndex segments) rest
      | None => None
      end
  end.

End RouteService.

(** ** [src/socket.ts] *)

Module SocketChannel.

Local Open Scope string_scope.

(** [reconnectionAttempts]: a number of attempts or [Infinity]. *)
Inductive Attempts : Type :=
| AtMost (n : nat)
| InfiniteAttempts.

(** The options given to [io(SOCKET_URL, ...)]; times in milliseconds. *)
Record Options : Type := {
  transports : list string;
  autoConnect : bool;
  reconnection : bool;
  reconnectionAttempts : Attempts;
  reconnectionDelay : Z;
  reconnectionDelayMax : Z;
  timeout : Z;
  forceNew : bool;
  upgrade : bool;
  secure : bool;
  rejectUnauthorized : bool
}.

Definition socketOptions : Options :=
  {| transports := ["websocket"; "polling"];
     autoConnect := false;
     reconnection := true;
     reconnectionAttempts := InfiniteAttempts;   (* NEVER give up *)
     reconnectionDelay := 2000%Z;
     reconnectionDelayMax := 10000%Z;
     timeout := 30000%Z;
     forceNew := false;
     upgrade := true;
     secure := true;
     rejectUnauthorized := false |}.

(** What a handler of this module asks for. *)
Inductive Action : Type :=
| ConnectAfter (delay : Z)         (* [setTimeout(() => socket.connect(), delay)] *)
| StartHeartbeat
| StopHeartbeat
| Connect
| Disconnect.

(** The handler of the [disconnect] event, given the module variable
    [autoReconnectEnabled] and the reason of the disconnection. *)
Definition onDisconnect (autoReconnectEnabled : bool) (reason : string)
  : list Action :=
  if autoReconnectEnabled && String.eqb reason "io server disconnect"
  then [ConnectAfter 1000%Z]
  else [].

(** [connectSocket()] *)
Definition connectSocket (connected : bool) : list Action :=
  (if connected then [] else [Connect]) ++ [StopHeartbeat; StartHeartbeat].

(** [disconnectSocket()] *)
Definition disconnectSocket : list Action := [StopHeartbeat; Disconnect].

(** *** The heartbeat timer

    The module variables of [socket.ts] together with the interval timers
    of the runtime: [setInterval] hands out a fresh identifier and keeps
    the timer until [clearInterval] is called with that identifier. *)
Record Channel : Type := {
  connected : bool;                      (* [socket.connected] *)
  heartbeatInterval : option nat;        (* the module variable *)
  intervals : list nat;                  (* the timers the runtime keeps *)
  nextInterval : nat;                    (* the next fresh identifier *)
  autoReconnectEnabled : bool
}.

Definition initialChannel : Channel :=
  {| connected := false;
     heartbeatInterval := None;
     intervals := [];
     nextInterval := 0;
     autoReconnectEnabled := true |}.

(** [stopHeartbeat()] *)
Definition stopHeartbeat (c : Channel) : Channel :=
  match heartbeatInterval c with
  | Some id =>
      {| connected := connected c;
         heartbeatInterval := None;
         intervals := filter (fun t => negb (Nat.eqb t id)) (intervals c);
         nextInterval := nextInterval c;
         autoReconnectEnabled := autoReconnectEnabled c |}
  | None => c
  end.

(** [startHeartbeat()] *)
Definition startHeartbeat (c : Channel) : Channel :=
  let c' := stopHeartbeat c in
  {| connected := connected c';
     heartbeatInterval := Some (nextInterval c');
     intervals := intervals c' ++ [nextInterval c'];
     nextInterval := S (nextInterval c');
     autoReconnectEnabled := autoReconnectEnabled c' |}.

(** What the module does on the socket and to the timers of a reconnect. *)
Inductive Output : Type :=
| SocketConnect                    (* [socket.connect()] *)
| SocketDisconnect                 (* [socket.disconnect()] *)
| EmitHeartbeat                    (* [socket.emit("heartbeat", ...)] *)
| ReconnectIn (delay : Z).         (* [setTimeout(() => socket.connect(), delay)] *)

Inductive ChannelEvent : Type :=
| CallConnectSocket                (* [connectSocket()] *)
| CallDisconnectSocket             (* [disconnectSocket()] *)
| CallEnableAutoReconnect
| CallDisableAutoReconnect
| OnConnect                        (* the [connect] event *)
| OnReconnect                      (* the [reconnect] event *)
| OnDisconnect (reason : string)   (* the [disconnect] event *)
| IntervalFires (id : nat).        (* a timer of the runtime fires *)

Definition withConnected (b : bool) (c : Channel) : Channel :=
  {| connected := b;
     heartbeatInterval := heartbeatInterval c;
     intervals := intervals c;
     nextInterval := nextInterval c;
     autoReconnectEnabled := autoReconnectEnabled c |}.

Definition withAutoReconnect (b : bool) (c : Channel) : Channel :=
  {| connected := connected c;
     heartbeatInterval := heartbeatInterval c;
     intervals := intervals c;
     nextInterval := nextInterval c;
     autoReconnectEnabled := b |}.

Definition channelStep (c : Channel) (e : ChannelEvent)
  : Channel * list Output :=
  match e with
  | CallConnectSocket =>
      (startHeartbeat c, if connected c then [] else [SocketConnect])
  | CallDisconnectSocket =>
      (withConnected false (stopHeartbeat c), [SocketDisconnect])
  | CallEnableAutoReconnect => (withAutoReconnect true c, [])
  | CallDisableAutoReconnect => (withAutoReconnect false c, [])
  | OnConnect => (startHeartbeat (withConnected true c), [])
  | OnReconnect => (startHeartbeat c, [])
  | OnDisconnect reason =>
      (withConnected false c,
       if autoReconnectEnabled c && String.eqb reason "io server disconnect"
       then [ReconnectIn 1000%Z] else [])
  | IntervalFires id =>
      (c, if existsb (Nat.eqb id) (intervals c) && connected c
          then [EmitHeartbeat] else [])
  end.

Definition channelRun (c : Channel) (events : list ChannelEvent) : Channel :=
  fold_left (fun c e => fst (channelStep c e)) events c.

End SocketChannel.

(** ** The ride handlers of [src/Screen1.tsx]

    The component state is passed explicitly: a handler reads the state it
    is given and returns the state after its [setState] calls together
    with the effects it has on the outside (alerts, messages on the socket,
    requests, timers).  A function of the component is a closure of the
    render that created it and reads the state of that render, while its
    setters act on the current state: [acceptRide] and [rejectRide], which
    the ride request alerts call through the closure of an earlier render,
    take the state they see beside the current one.  The callbacks that a
    handler leaves behind (an acknowledgement, a timer, the buttons of the
    completion alerts) are modelled as reading the state that is current
    when they run.  What a handler does to the map, to animations and to
    other display-only state is recorded as an effect and not as state.

    Strings.  One character of a string here stands for one UTF-16 code
    unit of the JavaScript string, so that [String.length] is its
    [length]; code units above 255 are outside the model. *)

Module Screen1.

Local Open Scope string_scope.

Inductive RideStatus : Type := idle | onTheWay | accepted | started | completed.

Inductive DriverStatus : Type := offline | online | onRide.

Record LocationType : Type := {
  latitude : Js.value;
  longitude : Js.value
}.

Record RideType : Type := {
  rideId : string;
  otp : option string;
  userName : option string;
  userMobile : option string;
  pickupAddress : option string;
  dropAddress : option string
}.

Record UserDataType : Type := {
  name : string;
  mobile : string;
  userId : option string
}.

(** [finalLocation], the validated coordinates [{ lat, lng }]. *)
Record FinalLocation : Type := {
  lat : R;
  lng : R
}.

(** A template literal: text with numbers spliced in. *)
Inductive Piece : Type :=
| Lit (text : string)
| NumP (r : R)
| IntP (z : Z).

Definition Template : Type := list Piece.

(** Values that go on the wire.  The two kinds of nested object the
    handlers send are constructors of their own. *)
Inductive Json : Type :=
| JUndefined
| JNull
| JBool (b : bool)
| JString (text : string)
| JNumber (r : R)
| JValue (v : Js.value)
| JTimestamp                              (* [new Date().toISOString()] *)
| JLocation (l : LocationType)            (* [{ latitude, longitude }] *)
| JLatLng (lat lng : Js.value)            (* [{ lat, lng }] *)
| JFinalLocation (f : FinalLocation).     (* [finalLocation] *)

(** An object literal: its members in the order they are written. *)
Definition Payload : Type := list (string * Json).

Definition JOptString (o : option string) : Json :=
  match o with
  | Some text => JString text
  | None => JUndefined
  end.

Definition JOptLocation (o : option LocationType) : Json :=
  match o with
  | Some l => JLocation l
  | None => JNull
  end.

(** [billData] *)
Record BillDetails : Type := {
  billDistance : Template;
  billTravelTime : Template;
  billCharge : R;
  billUserName : string;
  billUserMobile : string;
  billBaseFare : R;
  billTimeCharge : R;
  billTax : R;
  billPricePerKm : R;
  billCalculation : option Template;
  billPickupAddress : string;
  billDropoffAddress : string;
  billDriverShare : Json;
  billCompanyShare : Json
}.

Record State : Type := {
  ride : option RideType;
  userData : option UserDataType;
  rideStatus : RideStatus;
  driverStatus : DriverStatus;
  driverId : option string;
  driverName : string;
  driverVehicleType : option string;
  acceptButtonDisabled : bool;
  isAccepting : bool;
  pendingAcceptRideId : option string;
  isLoading : bool;
  enteredOtp : string;
  otpModalVisible : bool;
  otpVerifying : bool;
  otpVerified : bool;
  location : option LocationType;
  lastCoord : option LocationType;
  travelledKm : R;
  liveTripDistance : R;
  locationHistory : list LocationType;
  billDetails : option BillDetails;
  showBillModal : bool;
  socketConnected : bool;
  isMounted : bool
}.

(** The [setState] functions. *)

Definition setRide (v : option RideType) (s : State) : State :=
  {| ride := v; userData := userData s; rideStatus := rideStatus s;
     driverStatus := driverStatus s; driverId := driverId s; driverName :=
     driverName s; driverVehicleType := driverVehicleType s;
     acceptButtonDisabled := acceptButtonDisabled s; isAccepting :=
     isAccepting s; pendingAcceptRideId := pendingAcceptRideId s; isLoading
     := isLoading s; enteredOtp := enteredOtp s; otpModalVisible :=
     otpModalVisible s; otpVerifying := otpVerifying s; otpVerified :=
     otpVerified s; location := location s; lastCoord := lastCoord s;
     travelledKm := travelledKm s; liveTripDistance := liveTripDistance s;
     locationHistory := locationHistory s; billDetails := billDetails s;
     showBillModal := showBillModal s; socketConnected := socketConnected s;
     isMounted := isMounted s |}.

Definition setUserData (v : option UserDataType) (s : State) : State :=
  {| ride := ride s; userData := v; rideStatus := rideStatus s; driverStatus
     := driverStatus s; driverId := driverId s; driverName := driverName s;
     driverVehicleType := driverVehicleType s; acceptButtonDisabled :=
     acceptButtonDisabled s; isAccepting := isAccepting s;
     pendingAcceptRideId := pendingAcceptRideId s; isLoading := isLoading s;
     enteredOtp := enteredOtp s; otpModalVisible := otpModalVisible s;
     otpVerifying := otpVerifying s; otpVerified := otpVerified s; location
     := location s; lastCoord := lastCoord s; travelledKm := travelledKm s;
     liveTripDistance := liveTripDistance s; locationHistory :=
     locationHistory s; billDetails := billDetails s; showBillModal :=
     showBillModal s; socketConnected := socketConnected s; isMounted :=
     isMounted s |}.

Definition setRideStatus (v : RideStatus) (s : State) : State :=
  {| ride := ride s; userData := userData s; rideStatus := v; driverStatus
     := driverStatus s; driverId := driverId s; driverName := driverName s;
     driverVehicleType := driverVehicleType s; acceptButtonDisabled :=
     acceptButtonDisabled s; isAccepting := isAccepting s;
     pendingAcceptRideId := pendingAcceptRideId s; isLoading := isLoading s;
     enteredOtp := enteredOtp s; otpModalVisible := otpModalVisible s;
     otpVerifying := otpVerifying s; otpVerified := otpVerified s; location
     := location s; lastCoord := lastCoord s; travelledKm := travelledKm s;
     liveTripDistance := liveTripDistance s; locationHistory :=
     locationHistory s; billDetails := billDetails s; showBillModal :=
     showBillModal s; socketConnected := socketConnected s; isMounted :=
     isMounted s |}.

Definition setDriverStatus (v : DriverStatus) (s : State) : State :=
  {| ride := ride s; userData := userData s; rideStatus := rideStatus s;
     driverStatus := v; driverId := driverId s; driverName := driverName s;
     driverVehicleType := driverVehicleType s; acceptButtonDisabled :=
     acceptButtonDisabled s; isAccepting := isAccepting s;
     pendingAcceptRideId := pendingAcceptRideId s; isLoading := isLoading s;
     enteredOtp := enteredOtp s; otpModalVisible := otpModalVisible s;
     otpVerifying := otpVerifying s; otpVerified := otpVerified s; location
     := location s; lastCoord := lastCoord s; travelledKm := travelledKm s;
     liveTripDistance := liveTripDistance s; locationHistory :=
     locationHistory s; billDetails := billDetails s; showBillModal :=
     showBillModal s; socketConnected := socketConnected s; isMounted :=
     isMounted s |}.

Definition setDriverId (v : option string) (s : State) : State :=
  {| ride := ride s; userData := userData s; rideStatus := rideStatus s;
     driverStatus := driverStatus s; driverId := v; driverName := driverName
     s; driverVehicleType := driverVehicleType s; acceptButtonDisabled :=
     acceptButtonDisabled s; isAccepting := isAccepting s;
     pendingAcceptRideId := pendingAcceptRideId s; isLoading := isLoading s;
     enteredOtp := enteredOtp s; otpModalVisible := otpModalVisible s;
     otpVerifying := otpVerifying s; otpVerified := otpVerified s; location
     := location s; lastCoord := lastCoord s; travelledKm := travelledKm s;
     liveTripDistance := liveTripDistance s; locationHistory :=
     locationHistory s; billDetails := billDetails s; showBillModal :=
     showBillModal s; socketConnected := socketConnected s; isMounted :=
     isMounted s |}.

Definition setDriverName (v : string) (s : State) : State :=
  {| ride := ride s; userData := userData s; rideStatus := rideStatus s;
     driverStatus := driverStatus s; driverId := driverId s; driverName :=
     v; driverVehicleType := driverVehicleType s; acceptButtonDisabled :=
     acceptButtonDisabled s; isAccepting := isAccepting s;
     pendingAcceptRideId := pendingAcceptRideId s; isLoading := isLoading s;
     enteredOtp := enteredOtp s; otpModalVisible := otpModalVisible s;
     otpVerifying := otpVerifying s; otpVerified := otpVerified s; location
     := location s; lastCoord := lastCoord s; travelledKm := travelledKm s;
     liveTripDistance := liveTripDistance s; locationHistory :=
     locationHistory s; billDetails := billDetails s; showBillModal :=
     showBillModal s; socketConnected := socketConnected s; isMounted :=
     isMounted s |}.

Definition setDriverVehicleType (v : option string) (s : State) : State :=
  {| ride := ride s; userData := userData s; rideStatus := rideStatus s;
     driverStatus := driverStatus s; driverId := driverId s; driverName :=
     driverName s; driverVehicleType := v; acceptButtonDisabled :=
     acceptButtonDisabled s; isAccepting := isAccepting s;
     pendingAcceptRideId := pendingAcceptRideId s; isLoading := isLoading s;
     enteredOtp := enteredOtp s; otpModalVisible := otpModalVisible s;
     otpVerifying := otpVerifying s; otpVerified := otpVerified s; location
     := location s; lastCoord := lastCoord s; travelledKm := travelledKm s;
     liveTripDistance := liveTripDistance s; locationHistory :=
     locationHistory s; billDetails := billDetails s; showBillModal :=
     showBillModal s; socketConnected := socketConnected s; isMounted :=
     isMounted s |}.

Definition setAcceptButtonDisabled (v : bool) (s : State) : State :=
  {| ride := ride s; userData := userData s; rideStatus := rideStatus s;
     driverStatus := driverStatus s; driverId := driverId s; driverName :=
     driverName s; driverVehicleType := driverVehicleType s;
     acceptButtonDisabled := v; isAccepting := isAccepting s;
     pendingAcceptRideId := pendingAcceptRideId s; isLoading := isLoading s;
     enteredOtp := enteredOtp s; otpModalVisible := otpModalVisible s;
     otpVerifying := otpVerifying s; otpVerified := otpVerified s; location
     := location s; lastCoord := lastCoord s; travelledKm := travelledKm s;
     liveTripDistance := liveTripDistance s; locationHistory :=
     locationHistory s; billDetails := billDetails s; showBillModal :=
     showBillModal s; socketConnected := socketConnected s; isMounted :=
     isMounted s |}.

Definition setIsAccepting (v : bool) (s : State) : State :=
  {| ride := ride s; userData := userData s; rideStatus := rideStatus s;
     driverStatus := driverStatus s; driverId := driverId s; driverName :=
     driverName s; driverVehicleType := driverVehicleType s;
     acceptButtonDisabled := acceptButtonDisabled s; isAccepting := v;
     pendingAcceptRideId := pendingAcceptRideId s; isLoading := isLoading s;
     enteredOtp := enteredOtp s; otpModalVisible := otpModalVisible s;
     otpVerifying := otpVerifying s; otpVerified := otpVerified s; location
     := location s; lastCoord := lastCoord s; travelledKm := travelledKm s;
     liveTripDistance := liveTripDistance s; locationHistory :=
     locationHistory s; billDetails := billDetails s; showBillModal :=
     showBillModal s; socketConnected := socketConnected s; isMounted :=
     isMounted s |}.

Definition setPendingAcceptRideId (v : option string) (s : State) : State :=
  {| ride := ride s; userData := userData s; rideStatus := rideStatus s;
     driverStatus := driverStatus s; driverId := driverId s; driverName :=
     driverName s; driverVehicleType := driverVehicleType s;
     acceptButtonDisabled := acceptButtonDisabled s; isAccepting :=
     isAccepting s; pendingAcceptRideId := v; isLoading := isLoading s;
     enteredOtp := enteredOtp s; otpModalVisible := otpModalVisible s;
     otpVerifying := otpVerifying s; otpVerified := otpVerified s; location
     := location s; lastCoord := lastCoord s; travelledKm := travelledKm s;
     liveTripDistance := liveTripDistance s; locationHistory :=
     locationHistory s; billDetails := billDetails s; showBillModal :=
     showBillModal s; socketConnected := socketConnected s; isMounted :=
     isMounted s |}.

Definition setIsLoading (v : bool) (s : State) : State :=
  {| ride := ride s; userData := userData s; rideStatus := rideStatus s;
     driverStatus := driverStatus s; driverId := driverId s; driverName :=
     driverName s; driverVehicleType := driverVehicleType s;
     acceptButtonDisabled := acceptButtonDisabled s; isAccepting :=
     isAccepting s; pendingAcceptRideId := pendingAcceptRideId s; isLoading
     := v; enteredOtp := enteredOtp s; otpModalVisible := otpModalVisible s;
     otpVerifying := otpVerifying s; otpVerified := otpVerified s; location
     := location s; lastCoord := lastCoord s; travelledKm := travelledKm s;
     liveTripDistance := liveTripDistance s; locationHistory :=
     locationHistory s; billDetails := billDetails s; showBillModal :=
     showBillModal s; socketConnected := socketConnected s; isMounted :=
     isMounted s |}.

Definition setEnteredOtp (v : string) (s : State) : State :=
  {| ride := ride s; userData := userData s; rideStatus := rideStatus s;
     driverStatus := driverStatus s; driverId := driverId s; driverName :=
     driverName s; driverVehicleType := driverVehicleType s;
     acceptButtonDisabled := acceptButtonDisabled s; isAccepting :=
     isAccepting s; pendingAcceptRideId := pendingAcceptRideId s; isLoading
     := isLoading s; enteredOtp := v; otpModalVisible := otpModalVisible s;
     otpVerifying := otpVerifying s; otpVerified := otpVerified s; location
     := location s; lastCoord := lastCoord s; travelledKm := travelledKm s;
     liveTripDistance := liveTripDistance s; locationHistory :=
     locationHistory s; billDetails := billDetails s; showBillModal :=
     showBillModal s; socketConnected := socketConnected s; isMounted :=
     isMounted s |}.

Definition setOtpModalVisible (v : bool) (s : State) : State :=
  {| ride := ride s; userData := userData s; rideStatus := rideStatus s;
     driverStatus := driverStatus s; driverId := driverId s; driverName :=
     driverName s; driverVehicleType := driverVehicleType s;
     acceptButtonDisabled := acceptButtonDisabled s; isAccepting :=
     isAccepting s; pendingAcceptRideId := pendingAcceptRideId s; isLoading
     := isLoading s; enteredOtp := enteredOtp s; otpModalVisible := v;
     otpVerifying := otpVerifying s; otpVerified := otpVerified s; location
     := location s; lastCoord := lastCoord s; travelledKm := travelledKm s;
     liveTripDistance := liveTripDistance s; locationHistory :=
     locationHistory s; billDetails := billDetails s; showBillModal :=
     showBillModal s; socketConnected := socketConnected s; isMounted :=
     isMounted s |}.

Definition setOtpVerifying (v : bool) (s : State) : State :=
  {| ride := ride s; userData := userData s; rideStatus := rideStatus s;
     driverStatus := driverStatus s; driverId := driverId s; driverName :=
     driverName s; driverVehicleType := driverVehicleType s;
     acceptButtonDisabled := acceptButtonDisabled s; isAccepting :=
     isAccepting s; pendingAcceptRideId := pendingAcceptRideId s; isLoading
     := isLoading s; enteredOtp := enteredOtp s; otpModalVisible :=
     otpModalVisible s; otpVerifying := v; otpVerified := otpVerified s;
     location := location s; lastCoord := lastCoord s; travelledKm :=
     travelledKm s; liveTripDistance := liveTripDistance s; locationHistory
     := locationHistory s; billDetails := billDetails s; showBillModal :=
     showBillModal s; socketConnected := socketConnected s; isMounted :=
     isMounted s |}.

Definition setOtpVerified (v : bool) (s : State) : State :=
  {| ride := ride s; userData := userData s; rideStatus := rideStatus s;
     driverStatus := driverStatus s; driverId := driverId s; driverName :=
     driverName s; driverVehicleType := driverVehicleType s;
     acceptButtonDisabled := acceptButtonDisabled s; isAccepting :=
     isAccepting s; pendingAcceptRideId := pendingAcceptRideId s; isLoading
     := isLoading s; enteredOtp := enteredOtp s; otpModalVisible :=
     otpModalVisible s; otpVerifying := otpVerifying s; otpVerified := v;
     location := location s; lastCoord := lastCoord s; travelledKm :=
     travelledKm s; liveTripDistance := liveTripDistance s; locationHistory
     := locationHistory s; billDetails := billDetails s; showBillModal :=
     showBillModal s; socketConnected := socketConnected s; isMounted :=
     isMounted s |}.

Definition setLocation (v : option LocationType) (s : State) : State :=
  {| ride := ride s; userData := userData s; rideStatus := rideStatus s;
     driverStatus := driverStatus s; driverId := driverId s; driverName :=
     driverName s; driverVehicleType := driverVehicleType s;
     acceptButtonDisabled := acceptButtonDisabled s; isAccepting :=
     isAccepting s; pendingAcceptRideId := pendingAcceptRideId s; isLoading
     := isLoading s; enteredOtp := enteredOtp s; otpModalVisible :=
     otpModalVisible s; otpVerifying := otpVerifying s; otpVerified :=
     otpVerified s; location := v; lastCoord := lastCoord s; travelledKm :=
     travelledKm s; liveTripDistance := liveTripDistance s; locationHistory
     := locationHistory s; billDetails := billDetails s; showBillModal :=
     showBillModal s; socketConnected := socketConnected s; isMounted :=
     isMounted s |}.

Definition setLastCoord (v : option LocationType) (s : State) : State :=
  {| ride := ride s; userData := userData s; rideStatus := rideStatus s;
     driverStatus := driverStatus s; driverId := driverId s; driverName :=
     driverName s; driverVehicleType := driverVehicleType s;
     acceptButtonDisabled := acceptButtonDisabled s; isAccepting :=
     isAccepting s; pendingAcceptRideId := pendingAcceptRideId s; isLoading
     := isLoading s; enteredOtp := enteredOtp s; otpModalVisible :=
     otpModalVisible s; otpVerifying := otpVerifying s; otpVerified :=
     otpVerified s; location := location s; lastCoord := v; travelledKm :=
     travelledKm s; liveTripDistance := liveTripDistance s; locationHistory
     := locationHistory s; billDetails := billDetails s; showBillModal :=
     showBillModal s; socketConnected := socketConnected s; isMounted :=
     isMounted s |}.

Definition setTravelledKm (v : R) (s : State) : State :=
  {| ride := ride s; userData := userData s; rideStatus := rideStatus s;
     driverStatus := driverStatus s; driverId := driverId s; driverName :=
     driverName s; driverVehicleType := driverVehicleType s;
     acceptButtonDisabled := acceptButtonDisabled s; isAccepting :=
     isAccepting s; pendingAcceptRideId := pendingAcceptRideId s; isLoading
     := isLoading s; enteredOtp := enteredOtp s; otpModalVisible :=
     otpModalVisible s; otpVerifying := otpVerifying s; otpVerified :=
     otpVerified s; location := location s; lastCoord := lastCoord s;
     travelledKm := v; liveTripDistance := liveTripDistance s;
     locationHistory := locationHistory s; billDetails := billDetails s;
     showBillModal := showBillModal s; socketConnected := socketConnected s;
     isMounted := isMounted s |}.

Definition setLiveTripDistance (v : R) (s : State) : State :=
  {| ride := ride s; userData := userData s; rideStatus := rideStatus s;
     driverStatus := driverStatus s; driverId := driverId s; driverName :=
     driverName s; driverVehicleType := driverVehicleType s;
     acceptButtonDisabled := acceptButtonDisabled s; isAccepting :=
     isAccepting s; pendingAcceptRideId := pendingAcceptRideId s; isLoading
     := isLoading s; enteredOtp := enteredOtp s; otpModalVisible :=
     otpModalVisible s; otpVerifying := otpVerifying s; otpVerified :=
     otpVerified s; location := location s; lastCoord := lastCoord s;
     travelledKm := travelledKm s; liveTripDistance := v; locationHistory :=
     locationHistory s; billDetails := billDetails s; showBillModal :=
     showBillModal s; socketConnected := socketConnected s; isMounted :=
     isMounted s |}.

Definition setLocationHistory (v : list LocationType) (s : State) : State :=
  {| ride := ride s; userData := userData s; rideStatus := rideStatus s;
     driverStatus := driverStatus s; driverId := driverId s; driverName :=
     driverName s; driverVehicleType := driverVehicleType s;
     acceptButtonDisabled := acceptButtonDisabled s; isAccepting :=
     isAccepting s; pendingAcceptRideId := pendingAcceptRideId s; isLoading
     := isLoading s; enteredOtp := enteredOtp s; otpModalVisible :=
     otpModalVisible s; otpVerifying := otpVerifying s; otpVerified :=
     otpVerified s; location := location s; lastCoord := lastCoord s;
     travelledKm := travelledKm s; liveTripDistance := liveTripDistance s;
     locationHistory := v; billDetails := billDetails s; showBillModal :=
     showBillModal s; socketConnected := socketConnected s; isMounted :=
     isMounted s |}.

Definition setBillDetails (v : option BillDetails) (s : State) : State :=
  {| ride := ride s; userData := userData s; rideStatus := rideStatus s;
     driverStatus := driverStatus s; driverId := driverId s; driverName :=
     driverName s; driverVehicleType := driverVehicleType s;
     acceptButtonDisabled := acceptButtonDisabled s; isAccepting :=
     isAccepting s; pendingAcceptRideId := pendingAcceptRideId s; isLoading
     := isLoading s; enteredOtp := enteredOtp s; otpModalVisible :=
     otpModalVisible s; otpVerifying := otpVerifying s; otpVerified :=
     otpVerified s; location := location s; lastCoord := lastCoord s;
     travelledKm := travelledKm s; liveTripDistance := liveTripDistance s;
     locationHistory := locationHistory s; billDetails := v; showBillModal
     := showBillModal s; socketConnected := socketConnected s; isMounted :=
     isMounted s |}.

Definition setShowBillModal (v : bool) (s : State) : State :=
  {| ride := ride s; userData := userData s; rideStatus := rideStatus s;
     driverStatus := driverStatus s; driverId := driverId s; driverName :=
     driverName s; driverVehicleType := driverVehicleType s;
     acceptButtonDisabled := acceptButtonDisabled s; isAccepting :=
     isAccepting s; pendingAcceptRideId := pendingAcceptRideId s; isLoading
     := isLoading s; enteredOtp := enteredOtp s; otpModalVisible :=
     otpModalVisible s; otpVerifying := otpVerifying s; otpVerified :=
     otpVerified s; location := location s; lastCoord := lastCoord s;
     travelledKm := travelledKm s; liveTripDistance := liveTripDistance s;
     locationHistory := locationHistory s; billDetails := billDetails s;
     showBillModal := v; socketConnected := socketConnected s; isMounted :=
     isMounted s |}.

Definition setSocketConnected (v : bool) (s : State) : State :=
  {| ride := ride s; userData := userData s; rideStatus := rideStatus s;
     driverStatus := driverStatus s; driverId := driverId s; driverName :=
     driverName s; driverVehicleType := driverVehicleType s;
     acceptButtonDisabled := acceptButtonDisabled s; isAccepting :=
     isAccepting s; pendingAcceptRideId := pendingAcceptRideId s; isLoading
     := isLoading s; enteredOtp := enteredOtp s; otpModalVisible :=
     otpModalVisible s; otpVerifying := otpVerifying s; otpVerified :=
     otpVerified s; location := location s; lastCoord := lastCoord s;
     travelledKm := travelledKm s; liveTripDistance := liveTripDistance s;
     locationHistory := locationHistory s; billDetails := billDetails s;
     showBillModal := showBillModal s; socketConnected := v; isMounted :=
     isMounted s |}.

Definition setIsMounted (v : bool) (s : State) : State :=
  {| ride := ride s; userData := userData s; rideStatus := rideStatus s;
     driverStatus := driverStatus s; driverId := driverId s; driverName :=
     driverName s; driverVehicleType := driverVehicleType s;
     acceptButtonDisabled := acceptButtonDisabled s; isAccepting :=
     isAccepting s; pendingAcceptRideId := pendingAcceptRideId s; isLoading
     := isLoading s; enteredOtp := enteredOtp s; otpModalVisible :=
     otpModalVisible s; otpVerifying := otpVerifying s; otpVerified :=
     otpVerified s; location := location s; lastCoord := lastCoord s;
     travelledKm := travelledKm s; liveTripDistance := liveTripDistance s;
     locationHistory := locationHistory s; billDetails := billDetails s;
     showBillModal := showBillModal s; socketConnected := socketConnected s;
     isMounted := v |}.

Notation "s |> f" := (f s) (at level 45, left associativity, only parsing).

(** Truthiness of a string that may be [undefined] or [null]. *)
Definition truthy (o : option string) : bool :=
  match o with
  | Some EmptyString => false
  | Some _ => true
  | None => false
  end.

(** [a || b] on such strings. *)
Definition orElse (a b : option string) : option string :=
  if truthy a then a else b.

(** [a || "default"] *)
Definition orDefault (a : option string) (default : string) : string :=
  match a with
  | Some EmptyString => default
  | Some text => text
  | None => default
  end.

(** What a handler does to the outside. *)
Inductive Effect : Type :=
| Alert (title message : string)
| Log (message : string)
| Emit (event : string) (payload : Payload)
| EmitAcceptRide (payload : Payload) (currentRideId : string)
    (* [socket.emit("acceptRide", payload, callback)] *)
| TripStartTimeout (startPoint : LocationType)
    (* [setTimeout(() => proceedWithTripStartSafe(startPoint), 100)] *)
| CompleteRideDialog (finalLocation : FinalLocation)
    (* the alert with the buttons Cancel and Complete *)
| PostCompletion (body : Payload) (finalLocation : FinalLocation)
    (* [fetch(".../rides/complete-with-calculation", { body })] *)
| CompletionErrorDialog (message : string) (finalLocation : FinalLocation)
    (* the alert with the buttons Retry and Cancel *)
| PostOtpLocation (startPoint : LocationType)
| NativeUpdateRideStatus (status rideId : string)
    (* [NativeLocationService.updateRideStatus], when the service is available *)
| StopNavigation
| SaveRideState
| ClearRideState
| RideRequestDialog (offeredRideId : string)
    (* the alert with the buttons Reject and Accept *)
| Throw (what : string)
| Ui (what : string).

(** [fetchPassengerData(rideData)] *)
Definition fetchPassengerData (rideData : RideType) : UserDataType :=
  {| name := orDefault (userName rideData) "Passenger";
     mobile := orDefault (userMobile rideData) "N/A";
     userId := Some (rideId rideData) |}.

(** The part of [clearMapData] that touches the state modelled here. *)
Definition clearMapData (s : State) : State :=
  s |> setTravelledKm 0 |> setLastCoord None.

(** [ride?.rideId] *)
Definition rideIdOf (s : State) : option string :=
  option_map rideId (ride s).

(** *** Accepting a ride *)

Definition acceptPayload (s : State) (currentRideId : string) : Payload :=
  [("rideId", JString currentRideId);
   ("driverId", JOptString (driverId s));
   ("driverName", JString (driverName s));
   ("driverLat",
    match location s with Some l => JValue (latitude l) | None => JUndefined end);
   ("driverLng",
    match location s with Some l => JValue (longitude l) | None => JUndefined end);
   ("vehicleType", JOptString (driverVehicleType s))]%string.

Definition duplicateTap : string :=
  "Accept already in progress, ignoring duplicate tap".

(** [acceptRide(rideId?)], up to the point where it emits the request.

    [acceptRide] is created anew in every render and reads the component
    state of that render: [seen] is the state of the render in which the
    closure that is called was created, and from it come [ride],
    [driverId], [acceptButtonDisabled], [isAccepting], [userData],
    [driverName], [location] and [driverVehicleType].  The setters act on
    the current state [s], and [socket.connected] is read from the socket
    itself.  While the socket is down the function throws: it calls
    [reconnectSocket], which [socket.ts] does not export, before it could
    register its retry, and the lock it has just taken stays taken. *)
Definition acceptRide (seen s : State) (rideIdArg : option string)
  : State * list Effect :=
  let currentRideId := orElse rideIdArg (rideIdOf seen) in
  match currentRideId with
  | Some current =>
      if negb (truthy currentRideId) then
        (s, [Alert "Error" "No ride ID available. Please try again."])
      else if negb (truthy (driverId seen)) then
        (s, [Alert "Error" "Driver not properly registered."])
      else if acceptButtonDisabled seen || isAccepting seen then
        (s, [Log duplicateTap])
      else
        let s1 :=
          s |> setAcceptButtonDisabled true |> setIsAccepting true
            |> setPendingAcceptRideId (Some current) in
        if negb (socketConnected s) then
          (s1, [Alert "Connection Error" "Reconnecting to server...";
                Throw "TypeError"])
        else
          let s2 := s1 |> setIsLoading true in
          match ride seen, userData seen with
          | Some r, None =>
              (s2 |> setUserData (Some (fetchPassengerData r)),
               [Ui "showRiderDetails";
                EmitAcceptRide (acceptPayload seen current) current])
          | _, _ =>
              (s2, [EmitAcceptRide (acceptPayload seen current) current])
          end
  | None => (s, [Alert "Error" "No ride ID available. Please try again."])
  end%string.

(** The buttons Accept Ride and Reject under the ride details are shown
    while a ride is offered. *)
Definition acceptButtonVisible (s : State) : bool :=
  match ride s, rideStatus s with
  | Some _, onTheWay => true
  | _, _ => false
  end.

(** The button Accept Ride: [onPress={() => acceptRide()}], disabled while
    [isLoading]; the closure is that of the render on screen. *)
Definition pressAcceptButton (s : State) : State * list Effect :=
  if acceptButtonVisible s && negb (isLoading s) then acceptRide s s None
  else (s, []).

(** The acknowledgement of an [acceptRide] request. *)
Record AcceptResponse : Type := {
  success : bool;
  rideCancelled : bool;
  alreadyAccepted : bool;
  message : option string;
  responseUserId : option string
}.

(** The callback given to [socket.emit("acceptRide", ...)]. *)
Definition acceptRideCallback (s : State) (currentRideId : string)
           (response : AcceptResponse) : State * list Effect :=
  let s1 :=
    s |> setIsLoading false |> setIsAccepting false
      |> setPendingAcceptRideId None in
  if negb (isMounted s) then (s1 |> setAcceptButtonDisabled false, [])
  else if success response then
    let s2 :=
      s1 |> setRideStatus accepted |> setDriverStatus onRide
         |> setOtpVerified false |> setLocationHistory []
         |> setLiveTripDistance 0 in
    let native :=
      NativeUpdateRideStatus "accepted" (orDefault (rideIdOf s) "") in
    match userData s, ride s with
    | None, None =>
        (* [fetchPassengerData(ride!)] dereferences [null] *)
        (s2, [native; Throw "TypeError"])
    | _, _ =>
        let s3 :=
          match userData s, ride s with
          | None, Some r => s2 |> setUserData (Some (fetchPassengerData r))
          | _, _ => s2
          end in
        (s3 |> setAcceptButtonDisabled false,
         [native;
          Ui "setUserLocation"; Ui "fetchRoute"; Ui "showRiderDetails";
          Emit "rideTakenByDriver"
               [("rideId", JString currentRideId);
                ("driverId", JOptString (driverId s));
                ("driverName", JString (driverName s))];
          Emit "driverAcceptedRide"
               [("rideId", JString currentRideId);
                ("driverId", JOptString (driverId s));
                ("userId", JOptString (responseUserId response));
                ("driverLocation", JOptLocation (location s))];
          Emit "getUserDataForDriver" [("rideId", JString currentRideId)];
          SaveRideState])
    end
  else if rideCancelled response then
    (s1 |> setRide None |> setRideStatus idle |> setDriverStatus online
        |> setAcceptButtonDisabled false |> clearMapData,
     [Ui "hideRiderDetails"; Ui "clearMapData";
      Alert "Ride Cancelled"
            "Unfortunately, this ride has been cancelled by the user. Please wait for the next booking request."])
  else if alreadyAccepted response then
    (s1 |> setRide None |> setRideStatus idle |> setDriverStatus online
        |> setAcceptButtonDisabled false |> clearMapData,
     [Ui "hideRiderDetails"; Ui "clearMapData";
      Alert "Ride Unavailable"
            "This ride has already been accepted by another driver."])
  else
    (s1 |> setRideStatus idle |> setDriverStatus online
        |> setAcceptButtonDisabled false,
     [Alert "Error"
            (orDefault (message response)
                       "Unable to accept ride. Please try again.")])%string.

(** *** Starting the trip *)

(** [ride && ride.rideId === data.rideId] *)
Definition sameRide (s : State) (dataRideId : option string) : bool :=
  match ride s, dataRideId with
  | Some r, Some id => String.eqb (rideId r) id
  | _, _ => false
  end.

(** [location || lastCoord] *)
Definition startPointOf (s : State) : option LocationType :=
  match location s with
  | Some l => Some l
  | None => lastCoord s
  end.

(** [enteredOtp !== ride.otp] *)
Definition otpDiffers (entered : string) (expected : option string) : bool :=
  match expected with
  | Some code => negb (String.eqb entered code)
  | None => true
  end.

(** [confirmOTP()] *)
Definition confirmOTP (s : State) : State * list Effect :=
  match ride s with
  | None => (s, [Log "No ride data available"])
  | Some r =>
      if negb (truthy (otp r)) then
        (s, [Alert "Error" "OTP not yet received from server."])
      else if negb (String.length (enteredOtp s) =? 4)%nat then
        (s, [Alert "Invalid OTP" "Please enter a 4-digit OTP."])
      else if otpVerifying s then
        (s, [Log "OTP verification already in progress"])
      else
        match startPointOf s with
        | None =>
            (s, [Alert "Error"
                       "Unable to get current location. Please try again."])
        | Some startPoint =>
            if otpDiffers (enteredOtp s) (otp r) then
              (s |> setEnteredOtp "",
               [Alert "Invalid OTP"
                      "The OTP you entered is incorrect. Please check with the customer."])
            else
              (s |> setOtpVerifying true |> setOtpModalVisible false
                 |> setEnteredOtp "",
               [TripStartTimeout startPoint])
        end
  end.

(** [emitTripStartEvents(startPoint)] *)
Definition emitTripStartEvents (s : State) (startPoint : LocationType)
  : list Effect :=
  if socketConnected s then
    [Emit "rideStarted"
          [("rideId", JOptString (rideIdOf s));
           ("driverId", JOptString (driverId s));
           ("startLocation",
            JLatLng (latitude startPoint) (longitude startPoint))];
     Emit "otpVerified"
          [("rideId", JOptString (rideIdOf s));
           ("driverId", JOptString (driverId s));
           ("timestamp", JTimestamp);
           ("driverLocation", JLocation startPoint)];
     Emit "driverStartedRide"
          [("rideId", JOptString (rideIdOf s));
           ("driverId", JOptString (driverId s));
           ("driverLocation", JLocation startPoint);
           ("otpVerified", JBool true);
           ("timestamp", JTimestamp)];
     Emit "verifyRideOTP"
          [("rideId", JOptString (rideIdOf s));
           ("driverId", JOptString (driverId s));
           ("otp",
            JOptString (match ride s with Some r => otp r | None => None end));
           ("verificationLocation",
            JLatLng (latitude startPoint) (longitude startPoint))]]
  else [].

(** [proceedWithTripStartSafe(startPoint)] *)
Definition proceedWithTripStartSafe (s : State) (startPoint : LocationType)
  : State * list Effect :=
  (s |> setOtpVerified true |> setOtpVerifying false
     |> setRideStatus started |> setTravelledKm 0
     |> setLocationHistory [startPoint] |> setLiveTripDistance 0,
   ([NativeUpdateRideStatus "started" (orDefault (rideIdOf s) "");
     Ui "setTripStartLocation"; Ui "showRiderDetails"; Ui "refreshMap";
     PostOtpLocation startPoint]
    ++ emitTripStartEvents s startPoint
    ++ [SaveRideState; Ui "startNavigation"])%list).

(** The button under the rider details: it opens the OTP dialog while the
    ride is accepted and completes the ride once it is started. *)
Definition rideButtonVisible (s : State) : bool :=
  match ride s, rideStatus s with
  | Some _, accepted | Some _, started => true
  | _, _ => false
  end.

(** *** Completing the ride *)

(** [completeRide()] *)
Definition completeRide (s : State) : State * list Effect :=
  match rideStatus s with
  | started =>
      match ride s, location s with
      | None, _ => (s, [Alert "Error" "Ride data is missing."])
      | Some _, None =>
          (s, [Alert "Error"
                     "Current location is missing. Please wait for GPS."])
      | Some _, Some l =>
          match latitude l, longitude l with
          | Js.Num la, Js.Num lo =>
              (s, [StopNavigation;
                   CompleteRideDialog {| lat := la; lng := lo |}])
          | _, _ =>
              (s, [Alert "Error"
                         "Invalid GPS coordinates. Please wait for valid location."])
          end
      end
  | _ => (s, [Alert "Cannot Complete" "Ride must be started to complete."])
  end.

Definition pressRideButton (s : State) : State * list Effect :=
  if rideButtonVisible s then
    match rideStatus s with
    | accepted => (s |> setOtpModalVisible true, [])
    | started => completeRide s
    | _ => (s, [])
    end
  else (s, []).

(** The payload of the [driverCompletedRide] socket event. *)
Definition completionEvent (s : State) (finalLocation : FinalLocation)
  : Payload :=
  [("rideId", JOptString (rideIdOf s));
   ("driverId", JOptString (driverId s));
   ("actualDrop", JFinalLocation finalLocation);
   ("timestamp", JTimestamp)].

(** The body of the request to [/rides/complete-with-calculation]. *)
Definition completionBody (s : State) (finalLocation : FinalLocation)
  : Payload :=
  [("rideId", JOptString (rideIdOf s));
   ("driverId", JOptString (driverId s));
   ("completedLatitude", JNumber (lat finalLocation));
   ("completedLongitude", JNumber (lng finalLocation))].

(** [submitRideCompletion(finalLocation)], up to the [fetch]. *)
Definition submitRideCompletion (s : State) (finalLocation : FinalLocation)
  : State * list Effect :=
  (s |> setRideStatus completed |> setDriverStatus online,
   (NativeUpdateRideStatus "online" ""
    :: (if socketConnected s then
          [Emit "driverCompletedRide" (completionEvent s finalLocation)]
        else [])
    ++ [PostCompletion (completionBody s finalLocation) finalLocation])%list).

(** [result.data] of a successful completion. *)
Record CompletionData : Type := {
  distance : R;
  fare : R;
  pricePerKm : R;
  calculation : option string;
  driverShare : Json;
  companyShare : Json
}.

(** How the request ends: the server computed the bill, the server
    refused ([result.success] is false), or the request itself threw. *)
Inductive CompletionResult : Type :=
| Computed (data : CompletionData)
| Refused (message : option string)
| Thrown (message : option string).

(** [billData] of [submitRideCompletion] *)
Definition billFromServer (s : State) (data : CompletionData) : BillDetails :=
  let serverDistance := distance data in
  let serverFare := fare data in
  let serverPricePerKm := pricePerKm data in
  {| billDistance := [NumP serverDistance; Lit " km"];
     billTravelTime := [IntP (Js.round (serverDistance * 3)); Lit " mins"];
     billCharge := serverFare;
     billUserName := orDefault (option_map name (userData s)) "Customer";
     billUserMobile := orDefault (option_map mobile (userData s)) "N/A";
     billBaseFare := serverFare;
     billTimeCharge := 0;
     billTax := 0;
     billPricePerKm := serverPricePerKm;
     billCalculation :=
       Some (if truthy (calculation data)
             then [Lit (orDefault (calculation data) "")]
             else [NumP serverDistance; Lit " km × ₹";
                   NumP serverPricePerKm; Lit "/km = ₹"; NumP serverFare]);
     billPickupAddress :=
       orDefault (match ride s with Some r => pickupAddress r | None => None end)
                 "Pickup";
     billDropoffAddress :=
       orDefault (match ride s with Some r => dropAddress r | None => None end)
                 "Drop-off";
     billDriverShare := driverShare data;
     billCompanyShare := companyShare data |}.

(** The rest of [submitRideCompletion], once the request has ended. *)
Definition completionSettled (s : State) (finalLocation : FinalLocation)
           (result : CompletionResult) : State * list Effect :=
  match result with
  | Computed data =>
      (s |> clearMapData |> setBillDetails (Some (billFromServer s data))
         |> setShowBillModal true,
       [Ui "hideRiderDetails"; Ui "clearMapData"])
  | Refused message =>
      (s, [CompletionErrorDialog (orDefault message "Failed to complete ride")
                                 finalLocation])
  | Thrown message =>
      (s, [CompletionErrorDialog (orDefault message "Server error")
                                 finalLocation])
  end.

(** The button Cancel of the completion error alert. *)
Definition completionCancelled (s : State) : State * list Effect :=
  (s |> setRideStatus started |> setDriverStatus onRide, []).

(** [handleBillModalClose()] *)
Definition handleBillModalClose (s : State) : State * list Effect :=
  (s |> setRide None |> setUserData None
     |> setRideStatus idle |> setDriverStatus online
     |> setOtpVerified false |> setOtpVerifying false
     |> setLocationHistory [] |> setLiveTripDistance 0
     |> setAcceptButtonDisabled false
     |> setTravelledKm 0 |> setLastCoord None
     |> clearMapData
     |> setShowBillModal false,
   [Ui "clearMapData"; Ui "hideRiderDetails"; ClearRideState;
    Ui "reRegisterDriver"]).

(** *** Messages from the server *)

(** [handleRideCancelled(data)]; [dataRideId] is [data.rideId]. *)
Definition handleRideCancelled (s : State) (dataRideId : option string)
  : State * list Effect :=
  if negb (isMounted s) then (s, [])
  else if sameRide s dataRideId then
    match rideStatus s with
    | onTheWay =>
        (s, [Log "Ride cancelled while pending - keeping UI visible until interaction"])
    | _ =>
        (s |> clearMapData |> setRide None |> setUserData None
           |> setRideStatus idle |> setDriverStatus online,
         [StopNavigation;
          Emit "driverRideCancelled"
               [("rideId", JOptString (rideIdOf s));
                ("driverId", JOptString (driverId s));
                ("userId",
                 JOptString (match userData s with
                             | Some u => userId u
                             | None => None
                             end))];
          Ui "clearMapData"; Ui "hideRiderDetails"; ClearRideState;
          Alert "Ride Cancelled" "The passenger cancelled the ride."])
    end
  else (s, []).

(** [handleRideAlreadyAccepted(data)] *)
Definition handleRideAlreadyAccepted (s : State) (dataRideId : option string)
  : State * list Effect :=
  if negb (isMounted s) then (s, [])
  else if sameRide s dataRideId then
    (s |> clearMapData |> setRide None |> setUserData None
       |> setRideStatus idle |> setDriverStatus online,
     [Ui "clearMapData"; Ui "hideRiderDetails"])
  else (s, []).

(** [handleRideTakenByDriver(data)] *)
Definition handleRideTakenByDriver (s : State)
           (dataDriverId dataRideId dataMessage : option string)
  : State * list Effect :=
  if negb (isMounted s) then (s, [])
  else
    let same :=
      match dataDriverId, driverId s with
      | Some a, Some b => String.eqb a b
      | _, _ => false          (* [undefined] and [null] are not [===] *)
      end in
    if same then (s, [])
    else
      let alert :=
        Alert "Ride Already Taken"
              (orDefault dataMessage
                 "This ride has already been accepted by another driver. Please wait for the next ride request.") in
      if sameRide s dataRideId then
        (s |> clearMapData |> setRide None |> setUserData None
           |> setRideStatus idle |> setDriverStatus online,
         [alert; Ui "clearMapData"; Ui "hideRiderDetails"])
      else (s, [alert]).

(** The fields of a [billAlert] message that the handler uses. *)
Record BillAlert : Type := {
  alertRideId : option string;
  alertFare : R;
  alertDistance : R;
  alertPricePerKm : R;
  alertPickupAddress : option string;
  alertDropoffAddress : option string;
  alertDriverShare : Json;
  alertCompanyShare : Json
}.

(** [handleBillAlert(data)] *)
Definition handleBillAlert (s : State) (data : BillAlert)
  : State * list Effect :=
  if negb (isMounted s) then (s, [])
  else if sameRide s (alertRideId data) then
    let billData :=
      {| billDistance := [NumP (alertDistance data); Lit " km"];
         billTravelTime :=
           [IntP (Js.round (alertDistance data * 3)); Lit " mins"];
         billCharge := alertFare data;
         billUserName := orDefault (option_map name (userData s)) "Customer";
         billUserMobile := orDefault (option_map mobile (userData s)) "N/A";
         billBaseFare := alertFare data;
         billTimeCharge := 0;
         billTax := 0;
         billPricePerKm := alertPricePerKm data;
         billCalculation := None;
         billPickupAddress :=
           orDefault
             (orElse (alertPickupAddress data)
                     (match ride s with Some r => pickupAddress r | None => None end))
             "Pickup";
         billDropoffAddress :=
           orDefault
             (orElse (alertDropoffAddress data)
                     (match ride s with Some r => dropAddress r | None => None end))
             "Drop-off";
         billDriverShare := alertDriverShare data;
         billCompanyShare := alertCompanyShare data |} in
    (s |> setBillDetails (Some billData) |> setShowBillModal true
       |> setRideStatus completed |> setDriverStatus online
       |> clearMapData,
     [Ui "hideRiderDetails"; StopNavigation; Ui "clearMapData"])
  else (s, []).

(** [handleRideOTP(data)] *)
Definition handleRideOTP (s : State) (dataRideId dataOtp : option string)
  : State * list Effect :=
  if negb (isMounted s) then (s, [])
  else
    match ride s with
    | Some r =>
        if sameRide s dataRideId then
          (s |> setRide (Some {| rideId := rideId r;
                                 otp := dataOtp;
                                 userName := userName r;
                                 userMobile := userMobile r;
                                 pickupAddress := pickupAddress r;
                                 dropAddress := dropAddress r |}),
           [])
        else (s, [])
    | None => (s, [])
    end.

(** [handleOtpVerificationSuccess(data)] *)
Definition handleOtpVerificationSuccess (s : State) (dataRideId : option string)
  : State * list Effect :=
  if negb (isMounted s) then (s, [])
  else if sameRide s dataRideId then
    let s1 := s |> setOtpVerified true |> setOtpVerifying false in
    match location s with
    | Some l =>
        (s1 |> setLocationHistory [l] |> setLiveTripDistance 0,
         [Ui "setTripStartLocation"])
    | None => (s1, [])
    end
  else (s, []).

(** [handleOtpVerificationFailed(data)] *)
Definition handleOtpVerificationFailed (s : State)
           (dataRideId dataMessage : option string) : State * list Effect :=
  if negb (isMounted s) then (s, [])
  else if sameRide s dataRideId then
    (s |> setOtpVerifying false |> setEnteredOtp "",
     [Alert "Invalid OTP"
            (orDefault dataMessage
                       "Please check with the customer and try again.")])
  else (s, []).

(** [handleDisconnect()] together with the socket going down. *)
Definition handleDisconnect (s : State) : State * list Effect :=
  let s1 := s |> setSocketConnected false in
  if negb (isMounted s) then (s1, [])
  else
    match ride s with
    | Some _ =>
        (s1 |> setUserData None,
         [Ui "setUserLocation";
          Alert "Connection Lost" "Reconnecting to server..."])
    | None => (s1, [])
    end.

(** The end of [handleRideRequest(data)], after [rideData] is built from
    a request that passed the checks of the handler. *)
Definition handleRideRequest (s : State) (rideData : RideType)
  : State * list Effect :=
  if negb (isMounted s) then (s, [])
  else
    (s |> setRide (Some rideData) |> setRideStatus onTheWay
       |> setUserData (Some (fetchPassengerData rideData)),
     [Ui "showRiderDetails"; Ui "displayNotification";
      RideRequestDialog (rideId rideData)]).

(** [rejectRide(rideId?)]; [seen] is the state of the render in which the
    closure was created, as for [acceptRide]. *)
Definition rejectRide (seen s : State) (rideIdArg : option string)
  : State * list Effect :=
  let currentRideId := orElse rideIdArg (rideIdOf seen) in
  if negb (truthy currentRideId) then (s, [])
  else
    (s |> clearMapData |> setRide None |> setRideStatus idle
       |> setDriverStatus online |> setUserData None,
     [Ui "clearMapData"; Ui "setUserLocation"; Ui "hideRiderDetails";
      Emit "rejectRide"
           [("rideId", JOptString currentRideId);
            ("driverId", JOptString (driverId seen))];
      Alert "Ride Rejected ❌" "You rejected the ride"]).

(** The button Reject: [onPress={() => rejectRide()}]. *)
Definition pressRejectButton (s : State) : State * list Effect :=
  if acceptButtonVisible s then rejectRide s s None else (s, []).

(** *** Restoring a saved session *)

(** What [saveRideState] keeps in storage under the key [rideState], as
    far as it concerns the state of the model. *)
Record SavedRideState : Type := {
  savedRide : option RideType;
  savedUserData : option UserDataType;
  savedRideStatus : RideStatus;
  savedDriverStatus : DriverStatus;
  savedTravelledKm : option R;
  savedLastCoord : option LocationType
}.

(** How the check of the saved ride with the backend ends. *)
Inductive BackendCheck : Type :=
| BackendStatus (status : option string)
    (* [response.ok]; [data.ride?.status?.toLowerCase()] *)
| BackendNotFound                   (* [response.status === 404] *)
| BackendUnknown.                   (* another status, or the request threw *)

Definition invalidStatuses : list string :=
  ["cancelled"; "canceled"; "completed"; "expired"; "rejected"].

(** [invalidStatuses.includes(backendStatus)] *)
Definition isInvalidStatus (backendStatus : option string) : bool :=
  match backendStatus with
  | Some status => existsb (String.eqb status) invalidStatuses
  | None => false
  end.

(** [restoreRideState()], run when the screen is mounted and whenever the
    application comes back to the foreground; [saved] is the content of
    the storage and [token] the stored [authToken]. *)
Definition restoreRideState (s : State) (saved : option SavedRideState)
           (token : option string) (backend : BackendCheck)
  : State * list Effect :=
  match saved with
  | None => (s, [])
  | Some rideState =>
      match savedRideStatus rideState, savedRide rideState with
      | completed, _ => (s, [ClearRideState])
      | accepted, Some r | started, Some r =>
          let restored :=
            (s |> setRide (Some r)
               |> setUserData (savedUserData rideState)
               |> setRideStatus (savedRideStatus rideState)
               |> setDriverStatus (savedDriverStatus rideState)
               |> setTravelledKm
                    (match savedTravelledKm rideState with
                     | Some km => km
                     | None => 0
                     end)
               |> setLastCoord (savedLastCoord rideState),
             [Ui "restoreMap";
              Ui (match savedUserData rideState with
                  | Some _ => "showRiderDetails"
                  | None => "hideRiderDetails"
                  end)]) in
          if truthy token && truthy (Some (rideId r)) then
            match backend with
            | BackendStatus backendStatus =>
                if isInvalidStatus backendStatus
                then (s, [ClearRideState]) else restored
            | BackendNotFound => (s, [ClearRideState])
            | BackendUnknown => restored
            end
          else restored
      | _, _ => (s, [])
      end
  end.

(** *** The event loop

    Callbacks that a handler leaves behind (acknowledgement callbacks,
    timers, the buttons of an open alert, a request under way) are kept
    next to the component state until the event that runs them. *)

Record World : Type := {
  state : State;
  acceptAcks : list string;             (* [acceptRide] requests not yet acknowledged *)
  tripStartTimers : list LocationType;  (* the 100 ms timers of [confirmOTP] *)
  completeDialogs : list FinalLocation; (* open Complete Ride alerts *)
  completionRequests : list FinalLocation;
  errorDialogs : list FinalLocation     (* open completion error alerts *)
}.

Definition withState (s : State) (w : World) : World :=
  {| state := s;
     acceptAcks := acceptAcks w;
     tripStartTimers := tripStartTimers w;
     completeDialogs := completeDialogs w;
     completionRequests := completionRequests w;
     errorDialogs := errorDialogs w |}.

(** Keep the callback an effect leaves behind. *)
Definition schedule (w : World) (e : Effect) : World :=
  match e with
  | EmitAcceptRide _ current =>
      {| state := state w;
         acceptAcks := (acceptAcks w ++ [current])%list;
         tripStartTimers := tripStartTimers w;
         completeDialogs := completeDialogs w;
         completionRequests := completionRequests w;
         errorDialogs := errorDialogs w |}
  | TripStartTimeout startPoint =>
      {| state := state w;
         acceptAcks := acceptAcks w;
         tripStartTimers := (tripStartTimers w ++ [startPoint])%list;
         completeDialogs := completeDialogs w;
         completionRequests := completionRequests w;
         errorDialogs := errorDialogs w |}
  | CompleteRideDialog finalLocation =>
      {| state := state w;
         acceptAcks := acceptAcks w;
         tripStartTimers := tripStartTimers w;
         completeDialogs := (completeDialogs w ++ [finalLocation])%list;
         completionRequests := completionRequests w;
         errorDialogs := errorDialogs w |}
  | PostCompletion _ finalLocation =>
      {| state := state w;
         acceptAcks := acceptAcks w;
         tripStartTimers := tripStartTimers w;
         completeDialogs := completeDialogs w;
         completionRequests := (completionRequests w ++ [finalLocation])%list;
         errorDialogs := errorDialogs w |}
  | CompletionErrorDialog _ finalLocation =>
      {| state := state w;
         acceptAcks := acceptAcks w;
         tripStartTimers := tripStartTimers w;
         completeDialogs := completeDialogs w;
         completionRequests := completionRequests w;
         errorDialogs := (errorDialogs w ++ [finalLocation])%list |}
  | _ => w
  end.

(** Run a handler on the current state and keep what it leaves behind. *)
Definition handle (w : World) (h : State -> State * list Effect)
  : World * list Effect :=
  let '(s, effects) := h (state w) in
  (fold_left schedule effects (withState s w), effects).

(** Take the [i]-th pending callback out of a list. *)
Fixpoint takeAt {A : Type} (i : nat) (l : list A) : option (A * list A) :=
  match l, i with
  | [], _ => None
  | x :: rest, O => Some (x, rest)
  | x :: rest, S j =>
      match takeAt j rest with
      | Some (y, rest') => Some (y, x :: rest')
      | None => None
      end
  end.

Inductive Event : Type :=
| TapAccept                          (* the button Accept Ride *)
| AlertAccept (seen : State) (offeredRideId : string)
    (* the button Accept of a ride request alert: [acceptRide(rideData.rideId)]
       through the closure that [handleRideRequest] holds, the one of the
       render in which [useCallback] last created the handler, that is
       when [isDriverOnline] or [driverVehicleType] last changed *)
| AcceptAcknowledged (i : nat) (response : AcceptResponse)
| SocketConnects
| SocketDisconnects
| TypeOtp (text : string)
| CloseOtpModal
| TapConfirmOtp
| TripStartTimerFires (i : nat)
| TapRideButton
| DialogComplete (i : nat)
| DialogCancel (i : nat)
| CompletionEnds (i : nat) (result : CompletionResult)
| ErrorRetry (i : nat)
| ErrorCancel (i : nat)
| CloseBillModal
| RideCancelled (dataRideId : option string)
| RideAlreadyAccepted (dataRideId : option string)
| RideTakenByDriver (dataDriverId dataRideId dataMessage : option string)
| BillAlertArrives (data : BillAlert)
| RideOtpArrives (dataRideId dataOtp : option string)
| OtpVerificationSucceeds (dataRideId : option string)
| OtpVerificationFails (dataRideId dataMessage : option string)
| RideRequested (rideData : RideType)
| TapReject                          (* the button Reject *)
| AlertReject (seen : State) (offeredRideId : string)
    (* the button Reject of a ride request alert, as [AlertAccept] *)
| LocationFix (l : option LocationType)
| RestoreRideState (saved : option SavedRideState) (token : option string)
                   (backend : BackendCheck)
| Unmounts.

Definition step (w : World) (e : Event) : World * list Effect :=
  match e with
  | TapAccept => handle w pressAcceptButton
  | AlertAccept seen offeredRideId =>
      handle w (fun s => acceptRide seen s (Some offeredRideId))
  | AcceptAcknowledged i response =>
      match takeAt i (acceptAcks w) with
      | Some (current, rest) =>
          handle {| state := state w;
                    acceptAcks := rest;
                    tripStartTimers := tripStartTimers w;
                    completeDialogs := completeDialogs w;
                    completionRequests := completionRequests w;
                    errorDialogs := errorDialogs w |}
                 (fun s => acceptRideCallback s current response)
      | None => (w, [])
      end
  | SocketConnects =>
      ({| state := state w |> setSocketConnected true;
          acceptAcks := acceptAcks w;
          tripStartTimers := tripStartTimers w;
          completeDialogs := completeDialogs w;
          completionRequests := completionRequests w;
          errorDialogs := errorDialogs w |}, [])
  | SocketDisconnects => handle w handleDisconnect
  | TypeOtp text => handle w (fun s => (s |> setEnteredOtp text, []))
  | CloseOtpModal => handle w (fun s => (s |> setOtpModalVisible false, []))
  | TapConfirmOtp => handle w confirmOTP
  | TripStartTimerFires i =>
      match takeAt i (tripStartTimers w) with
      | Some (startPoint, rest) =>
          handle {| state := state w;
                    acceptAcks := acceptAcks w;
                    tripStartTimers := rest;
                    completeDialogs := completeDialogs w;
                    completionRequests := completionRequests w;
                    errorDialogs := errorDialogs w |}
                 (fun s => proceedWithTripStartSafe s startPoint)
      | None => (w, [])
      end
  | TapRideButton => handle w pressRideButton
  | DialogComplete i =>
      match takeAt i (completeDialogs w) with
      | Some (finalLocation, rest) =>
          handle {| state := state w;
                    acceptAcks := acceptAcks w;
                    tripStartTimers := tripStartTimers w;
                    completeDialogs := rest;
                    completionRequests := completionRequests w;
                    errorDialogs := errorDialogs w |}
                 (fun s => submitRideCompletion s finalLocation)
      | None => (w, [])
      end
  | DialogCancel i =>
      match takeAt i (completeDialogs w) with
      | Some (_, rest) =>
          ({| state := state w;
              acceptAcks := acceptAcks w;
              tripStartTimers := tripStartTimers w;
              completeDialogs := rest;
              completionRequests := completionRequests w;
              errorDialogs := errorDialogs w |}, [])
      | None => (w, [])
      end
  | CompletionEnds i result =>
      match takeAt i (completionRequests w) with
      | Some (finalLocation, rest) =>
          handle {| state := state w;
                    acceptAcks := acceptAcks w;
                    tripStartTimers := tripStartTimers w;
                    completeDialogs := completeDialogs w;
                    completionRequests := rest;
                    errorDialogs := errorDialogs w |}
                 (fun s => completionSettled s finalLocation result)
      | None => (w, [])
      end
  | ErrorRetry i =>
      match takeAt i (errorDialogs w) with
      | Some (finalLocation, rest) =>
          handle {| state := state w;
                    acceptAcks := acceptAcks w;
                    tripStartTimers := tripStartTimers w;
                    completeDialogs := completeDialogs w;
                    completionRequests := completionRequests w;
                    errorDialogs := rest |}
                 (fun s => submitRideCompletion s finalLocation)
      | None => (w, [])
      end
  | ErrorCancel i =>
      match takeAt i (errorDialogs w) with
      | Some (_, rest) =>
          handle {| state := state w;
                    acceptAcks := acceptAcks w;
                    tripStartTimers := tripStartTimers w;
                    completeDialogs := completeDialogs w;
                    completionRequests := completionRequests w;
                    errorDialogs := rest |}
                 completionCancelled
      | None => (w, [])
      end
  | CloseBillModal => handle w handleBillModalClose
  | RideCancelled dataRideId =>
      handle w (fun s => handleRideCancelled s dataRideId)
  | RideAlreadyAccepted dataRideId =>
      handle w (fun s => handleRideAlreadyAccepted s dataRideId)
  | RideTakenByDriver dataDriverId dataRideId dataMessage =>
      handle w (fun s =>
                  handleRideTakenByDriver s dataDriverId dataRideId dataMessage)
  | BillAlertArrives data => handle w (fun s => handleBillAlert s data)
  | RideOtpArrives dataRideId dataOtp =>
      handle w (fun s => handleRideOTP s dataRideId dataOtp)
  | OtpVerificationSucceeds dataRideId =>
      handle w (fun s => handleOtpVerificationSuccess s dataRideId)
  | OtpVerificationFails dataRideId dataMessage =>
      handle w (fun s => handleOtpVerificationFailed s dataRideId dataMessage)
  | RideRequested rideData => handle w (fun s => handleRideRequest s rideData)
  | TapReject => handle w pressRejectButton
  | AlertReject seen offeredRideId =>
      handle w (fun s => rejectRide seen s (Some offeredRideId))
  | LocationFix l => handle w (fun s => (s |> setLocation l, []))
  | RestoreRideState saved token backend =>
      handle w (fun s => restoreRideState s saved token backend)
  | Unmounts => handle w (fun s => (s |> setIsMounted false, []))
  end.

(** The world after a sequence of events. *)
Definition run (w : World) (events : list Event) : World :=
  fold_left (fun w e => fst (step w e)) events w.

(** The effects of a sequence of events, in order. *)
Fixpoint effectsOf (w : World) (events : list Event) : list Effect :=
  match events with
  | [] => []
  | e :: rest => (snd (step w e) ++ effectsOf (fst (step w e)) rest)%list
  end.

(** A world with nothing pending. *)
Definition quiet (s : State) : World :=
  {| state := s;
     acceptAcks := [];
     tripStartTimers := [];
     completeDialogs := [];
     completionRequests := [];
     errorDialogs := [] |}.

(** The code the driver entered has four characters and is the code of
    the ride. *)
Definition otpMatches (s : State) : bool :=
  match ride s with
  | Some r =>
      (String.length (enteredOtp s) =? 4)%nat
      && negb (otpDiffers (enteredOtp s) (otp r))
  | None => false
  end.

(** An [acceptRide] request in an effect list. *)
Definition isAcceptRequest (e : Effect) : bool :=
  match e with
  | EmitAcceptRide _ _ => true
  | _ => false
  end.

(** The state of a freshly mounted screen, from its [useState] and
    [useRef] initial values and the route parameters. *)
Definition initialState (driverIdParam driverNameParam : string)
           (locationParam : option LocationType) : State :=
  {| ride := None;
     userData := None;
     rideStatus := idle;
     driverStatus := offline;
     driverId := Some driverIdParam;
     driverName := driverNameParam;
     driverVehicleType := None;
     acceptButtonDisabled := false;
     isAccepting := false;
     pendingAcceptRideId := None;
     isLoading := false;
     enteredOtp := "";
     otpModalVisible := false;
     otpVerifying := false;
     otpVerified := false;
     location := locationParam;
     lastCoord := None;
     travelledKm := 0;
     liveTripDistance := 0;
     locationHistory := [];
     billDetails := None;
     showBillModal := false;
     socketConnected := false;
     isMounted := true |}.

(** Values for the examples. *)
Definition exampleLocation : LocationType :=
  {| latitude := Js.Num 12; longitude := Js.Num 77 |}.

Definition exampleRide (id code : string) : RideType :=
  {| rideId := id;
     otp := Some code;
     userName := Some "Asha";
     userMobile := None;
     pickupAddress := Some "Station Road";
     dropAddress := None |}.

(** A driver on an accepted ride whose code is 4821, socket connected. *)
Definition exampleAccepted : State :=
  initialState "driver-1" "Ravi" (Some exampleLocation)
    |> setSocketConnected true
    |> setRide (Some (exampleRide "ride-A" "4821"))
    |> setUserData (Some (fetchPassengerData (exampleRide "ride-A" "4821")))
    |> setRideStatus accepted
    |> setDriverStatus onRide.

(** The same driver online with no ride: the render in which
    [handleRideRequest] is created when the driver goes online. *)
Definition exampleOnline : State :=
  initialState "driver-1" "Ravi" (Some exampleLocation)
    |> setSocketConnected true
    |> setDriverStatus online.

(** The same driver with the offer of ride A on screen. *)
Definition exampleOffered : State :=
  exampleAccepted |> setRideStatus onTheWay |> setDriverStatus online.

(** The trip is under way, or a callback that can put it under way is
    pending. *)
Definition isStarted (status : RideStatus) : bool :=
  match status with
  | started => true
  | _ => false
  end.

Definition nonEmpty {A : Type} (l : list A) : bool :=
  match l with
  | [] => false
  | _ :: _ => true
  end.

Definition tripUnderWay (w : World) : bool :=
  isStarted (rideStatus (state w))
  || nonEmpty (tripStartTimers w)
  || nonEmpty (completeDialogs w)
  || nonEmpty (completionRequests w)
  || nonEmpty (errorDialogs w).

(** The number of [acceptRide] attempts that are under way: the requests
    not yet acknowledged. *)
Definition acceptsUnderWay (w : World) : nat :=
  List.length (acceptAcks w).

(** *** Distances on the screen *)

(** [haversine(start, end)] in metres; [None] is the [NaN] that the
    arithmetic yields when a coordinate is not a number. *)
Definition haversine (start finish : LocationType) : option R :=
  match Js.toNumber (latitude start), Js.toNumber (longitude start),
        Js.toNumber (latitude finish), Js.toNumber (longitude finish) with
  | Some lat1, Some lon1, Some lat2, Some lon2 =>
      let R_earth := 6371 in
      let dLat := (lat2 - lat1) * PI / 180 in
      let dLon := (lon2 - lon1) * PI / 180 in
      let a :=
        sin (dLat / 2) * sin (dLat / 2) +
        cos (lat1 * PI / 180) * cos (lat2 * PI / 180) *
        sin (dLon / 2) * sin (dLon / 2) in
      let c := 2 * Js.atan2 (sqrt a) (sqrt (1 - a)) in
      Some (R_earth * c * 1000)
  | _, _, _, _ => None
  end.

(** The body of the loop of the screen's own [findNearestPointOnRoute]:
    a comparison with [NaN] is false. *)
Definition nearer (currentLocation : LocationType)
           (routeCoords : list LocationType)
           (best : Js.number * nat) (i : nat) : Js.number * nat :=
  match nth_error routeCoords i with
  | Some p =>
      match haversine currentLocation p with
      | Some d => if Js.lt_number d (fst best) then (Js.Finite d, i) else best
      | None => best
      end
  | None => best
  end.

(** [findNearestPointOnRoute(currentLocation, routeCoords)] of the screen:
    [(minDistance, nearestIndex)], or [None] for [null]. *)
Definition findNearestPointOnRoute (currentLocation : LocationType)
           (routeCoords : list LocationType) : option (Js.number * nat) :=
  if (List.length routeCoords =? 0)%nat then None
  else
    Some (fold_left (nearer currentLocation routeCoords)
                    (seq 0 (List.length routeCoords))
                    (Js.Infinity, 0%nat)).

End Screen1.

(** * Verified properties *)

(** ** Facts about the JavaScript number model *)

Lemma ltb_true (x y : R) : Js.ltb x y = true <-> x < y.
Proof.
unfold Js.ltb. destruct (Rlt_dec x y); split; intros;
  solve [ auto | discriminate | contradiction ].
Qed.

Lemma ltb_false (x y : R) : Js.ltb x y = false <-> y <= x.
Proof.
unfold Js.ltb. destruct (Rlt_dec x y); split; intros; auto; try discriminate; lra.
Qed.

Lemma atan2_0_1 : Js.atan2 0 1 = 0.
Proof.
unfold Js.atan2. destruct (Rlt_dec 0 1) as [_ | H]; [ | lra ].
replace (0 / 1) with 0 by field. apply atan_0.
Qed.

(** ** The sample filter *)

Section SampleFilter.
Import LocationUtils.

(** The haversine distance from a point to itself is zero. *)
Lemma calculateDistance_same (lat lon : R) :
  calculateDistance lat lon lat lon = 0.
Proof.
  unfold calculateDistance.
  replace ((lat - lat) * PI / 180 / 2) with 0 by (unfold Rdiv; ring).
  replace ((lon - lon) * PI / 180 / 2) with 0 by (unfold Rdiv; ring).
  rewrite sin_0.
  replace (0 * 0 + cos (lat * PI / 180) * cos (lat * PI / 180) * 0 * 0)
    with 0 by ring.
  rewrite Rminus_0_r, sqrt_0, sqrt_1, atan2_0_1. ring.
Qed.

(** What one call does once the sample passed the two validations and a
    previous location exists. *)
Lemma processLocation_moving (self : LocationTracker) (last : LocationPoint)
      (lat lng ts : R) (acc : Js.value) :
  lastValidLocation self = Some last ->
  poorAccuracy acc = false ->
  let buffer :=
    pushSample (locationBuffer self)
      {| latitude := lat; longitude := lng; timestamp := ts; accuracy := acc |} in
  let sLat := smoothed latitude buffer lat in
  let sLng := smoothed longitude buffer lng in
  let d := calculateDistance (latitude last) (longitude last) sLat sLng in
  let timeDiff := (ts - timestamp last) / 1000 in
  let speed := if Js.gtb timeDiff 0 then d / timeDiff else 0 in
  processLocation self (Js.Num lat) (Js.Num lng) ts acc =
  if Js.ltb d minDistanceThreshold || Js.gtb speed maxSpeedThreshold then
    (None,
     {| lastValidLocation := Some last;
        trackedDistance := trackedDistance self;
        locationBuffer := buffer |})
  else
    (Some (result_of d (trackedDistance self + d) sLat sLng),
     {| lastValidLocation :=
          Some {| latitude := sLat; longitude := sLng;
                  timestamp := ts; accuracy := acc |};
        trackedDistance := trackedDistance self + d;
        locationBuffer := buffer |}).
Proof.
  intros Hlast Hacc. unfold processLocation. simpl.
  rewrite Hacc, Hlast.
  destruct (Js.ltb _ minDistanceThreshold); simpl; [ reflexivity | ].
  destruct (Js.gtb _ maxSpeedThreshold); reflexivity.
Qed.

(** The smoothing buffer of the example below: two identical samples. *)
Lemma smoothed_two_equal (f : LocationPoint -> R) (p q : LocationPoint) (raw : R) :
  f p = raw -> f q = raw ->
  smoothed f (pushSample [p] q) raw = raw.
Proof.
  intros Hp Hq. unfold smoothed, pushSample, average; simpl.
  rewrite Hp, Hq. lra.
Qed.

(** C5 (as amended).  When a previous location exists and the haversine
    distance from it to the new smoothed point is below 5 m, the call
    returns [null], and neither the accumulated distance nor the stored
    last location changes; the smoothing buffer, however, has already
    taken the sample in. *)
Theorem jitter_rejection_keeps_distance_and_position
        (self : LocationTracker) (last : LocationPoint)
        (lat lng ts : R) (acc : Js.value) :
  lastValidLocation self = Some last ->
  poorAccuracy acc = false ->
  let buffer :=
    pushSample (locationBuffer self)
      {| latitude := lat; longitude := lng; timestamp := ts; accuracy := acc |} in
  calculateDistance (latitude last) (longitude last)
                    (smoothed latitude buffer lat)
                    (smoothed longitude buffer lng) < 5 ->
  let r := processLocation self (Js.Num lat) (Js.Num lng) ts acc in
  fst r = None /\
  getCurrentDistance (snd r) = getCurrentDistance self /\
  lastValidLocation (snd r) = lastValidLocation self /\
  locationBuffer (snd r) = buffer.
Proof.
  intros Hlast Hacc buffer Hjit r. subst r.
  rewrite (processLocation_moving self last lat lng ts acc Hlast Hacc).
  fold buffer.
  apply ltb_true in Hjit. unfold minDistanceThreshold. rewrite Hjit. simpl.
  rewrite Hlast. repeat split; reflexivity.
Qed.

Lemma jitter_rejection_keeps_distance_and_position_witness :
  let p := {| latitude := 10; longitude := 20; timestamp := 0;
              accuracy := Js.Undefined |} in
  let q := {| latitude := 10; longitude := 20; timestamp := 1000;
              accuracy := Js.Undefined |} in
  let self := {| lastValidLocation := Some p; trackedDistance := 0;
                 locationBuffer := [p] |} in
  let r := processLocation self (Js.Num 10) (Js.Num 20) 1000 Js.Undefined in
  fst r = None /\
  getCurrentDistance (snd r) = getCurrentDistance self /\
  lastValidLocation (snd r) = lastValidLocation self /\
  locationBuffer (snd r) = [p; q].
Proof.
  intros p q self r.
  apply (jitter_rejection_keeps_distance_and_position self p 10 20 1000
           Js.Undefined).
  - reflexivity.
  - reflexivity.
  - simpl locationBuffer.
    rewrite (smoothed_two_equal latitude p _ 10) by reflexivity.
    rewrite (smoothed_two_equal longitude p _ 20) by reflexivity.
    simpl. rewrite calculateDistance_same. lra.
Defined.

(** C5, the claim as stated fails: two identical fixes one second apart
    are 0 m apart, the second call returns [null], and yet the tracker is
    not the one it was before the call (its buffer holds two samples). *)
Lemma jitter_rejection_changes_state :
  let p := {| latitude := 10; longitude := 20; timestamp := 0;
              accuracy := Js.Undefined |} in
  let self := {| lastValidLocation := Some p; trackedDistance := 0;
                 locationBuffer := [p] |} in
  let r := processLocation self (Js.Num 10) (Js.Num 20) 1000 Js.Undefined in
  self = snd (processLocation (new_LocationTracker 0)
                              (Js.Num 10) (Js.Num 20) 0 Js.Undefined) /\
  calculateDistance (latitude p) (longitude p)
    (smoothed latitude (locationBuffer (snd r)) 10)
    (smoothed longitude (locationBuffer (snd r)) 20) < 5 /\
  fst r = None /\
  snd r <> self.
Proof.
  intros p self r.
  assert (Hr : r = (None,
                    {| lastValidLocation := Some p; trackedDistance := 0;
                       locationBuffer :=
                         [p; {| latitude := 10; longitude := 20;
                                timestamp := 1000;
                                accuracy := Js.Undefined |}] |})).
  { subst r.
    rewrite (processLocation_moving self p 10 20 1000 Js.Undefined)
      by reflexivity.
    simpl locationBuffer.
    rewrite (smoothed_two_equal latitude p _ 10) by reflexivity.
    rewrite (smoothed_two_equal longitude p _ 20) by reflexivity.
    simpl latitude. simpl longitude. rewrite calculateDistance_same.
    assert (H : Js.ltb 0 minDistanceThreshold = true)
      by (apply ltb_true; unfold minDistanceThreshold; lra).
    rewrite H. reflexivity. }
  rewrite Hr. simpl fst. simpl snd. simpl locationBuffer.
  repeat split.
  - unfold processLocation, new_LocationTracker, self, p; simpl.
    unfold smoothed, pushSample, average; simpl.
    replace ((0 + 10) / 1) with 10 by lra.
    replace ((0 + 20) / 1) with 20 by lra.
    reflexivity.
  - change [p; {| latitude := 10; longitude := 20; timestamp := 1000;
                  accuracy := Js.Undefined |}]
      with (pushSample [p] {| latitude := 10; longitude := 20;
                              timestamp := 1000; accuracy := Js.Undefined |}).
    rewrite (smoothed_two_equal latitude p _ 10) by reflexivity.
    rewrite (smoothed_two_equal longitude p _ 20) by reflexivity.
    simpl. rewrite calculateDistance_same. lra.
  - intros Heq. apply (f_equal locationBuffer) in Heq.
    apply (f_equal (@List.length _)) in Heq. simpl in Heq. discriminate.
Qed.

End SampleFilter.

(** ** Route geometry *)

Section RouteGeometry.
Import RouteService.

Lemma eqb_true (x y : R) : Js.eqb x y = true <-> x = y.
Proof.
  unfold Js.eqb. destruct (Req_dec_T x y); split; intros;
    solve [ auto | discriminate | contradiction ].
Qed.

(** *** Nearest-point search *)

(** The running minimum is a finite distance at an index of the route. *)
Definition settled (route : list LatLng) (best : Js.number * Z) : Prop :=
  (exists d, fst best = Js.Finite d) /\
  (0 <= snd best < Z.of_nat (List.length route))%Z.

Lemma visit_settled (pos : LatLng) (route : list LatLng)
      (best : Js.number * Z) (i : nat) :
  settled route best -> settled route (visit pos route best i).
Proof.
  intros Hs. unfold visit.
  destruct (nth_error route i) as [p | ] eqn:Hi; [ | exact Hs ].
  destruct (Js.lt_number _ (fst best)); [ | exact Hs ].
  split; simpl.
  - eexists; reflexivity.
  - assert (i < List.length route)%nat
      by (apply nth_error_Some; congruence).
    lia.
Qed.

Lemma fold_visit_settled (pos : LatLng) (route : list LatLng) (idxs : list nat) :
  forall best, settled route best ->
               settled route (fold_left (visit pos route) idxs best).
Proof.
  induction idxs as [ | i idxs IH]; intros best Hs; simpl.
  - exact Hs.
  - apply IH. now apply visit_settled.
Qed.

(** A non-empty window inside the route settles the search. *)
Lemma scan_settles (pos : LatLng) (route : list LatLng) (from to hint : Z) :
  (0 <= from < to)%Z -> (to <= Z.of_nat (List.length route))%Z ->
  settled route (scan pos route from to (Js.Infinity, hint)).
Proof.
  intros Hft Hto. unfold scan.
  destruct (Z.to_nat (to - from)) as [ | k] eqn:Hk; [ lia | ].
  simpl. apply fold_visit_settled.
  unfold visit at 1.
  destruct (nth_error route (Z.to_nat from)) as [p | ] eqn:Hp.
  - simpl. split; simpl; [ eexists; reflexivity | lia ].
  - apply nth_error_None in Hp. lia.
Qed.

Lemma scan_keeps_settled (pos : LatLng) (route : list LatLng) (from to : Z)
      (best : Js.number * Z) :
  settled route best -> settled route (scan pos route from to best).
Proof. intros Hs. unfold scan. now apply fold_visit_settled. Qed.

(** With a hint that is an index of the route, the search returns an index
    of the route and a finite distance. *)
Lemma findNearestPointOnRoute_in_range (pos : LatLng) (route : list LatLng)
      (hint : Z) :
  (0 <= hint < Z.of_nat (List.length route))%Z ->
  exists (k : Z) (d : R),
    findNearestPointOnRoute pos route hint defaultSearchRadius =
      Some {| index := k; distance := Js.Finite d |} /\
    (0 <= k < Z.of_nat (List.length route))%Z.
Proof.
  intros Hh. unfold findNearestPointOnRoute, defaultSearchRadius.
  destruct (List.length route =? 0)%nat eqn:Hn;
    [ apply Nat.eqb_eq in Hn; lia | ].
  set (n := Z.of_nat (List.length route)) in *.
  set (from := Z.max 0 (hint - 5)).
  set (to := Z.min n (hint + 100)).
  assert (Hs : settled route (scan pos route from to (Js.Infinity, hint))).
  { apply scan_settles; subst from to; lia. }
  destruct ((snd (scan pos route from to (Js.Infinity, hint)) >=? to - 1)%Z
            && (to <? n)%Z).
  - destruct (to <? 0)%Z eqn:Hneg; [ apply Z.ltb_lt in Hneg; subst to; lia | ].
    pose proof (scan_keeps_settled pos route to n _ Hs) as [[d Hd] Hk].
    exists (snd (scan pos route to n (scan pos route from to (Js.Infinity, hint)))), d.
    rewrite Hd. split; [ reflexivity | exact Hk ].
  - destruct Hs as [[d Hd] Hk].
    exists (snd (scan pos route from to (Js.Infinity, hint))), d.
    rewrite Hd. split; [ reflexivity | exact Hk ].
Qed.

(** C8 (as amended).  On an empty route the search returns index 0 and
    distance [Infinity] for every position, hint and radius.  On a
    two-point route, with a hint from 0 to 5 (the default hint and both
    indices of the route are among them), it returns index 0 or 1,
    whichever endpoint is closer, index 0 on a tie. *)
Theorem nearest_point_edge_cases
        (pos p0 p1 : LatLng) (hint radius : Z) :
  findNearestPointOnRoute pos [] hint radius =
    Some {| index := 0%Z; distance := Js.Infinity |} /\
  ((0 <= hint <= 5)%Z ->
   let d0 := getDistanceInMeters pos p0 in
   let d1 := getDistanceInMeters pos p1 in
   (d0 <= d1 /\
    findNearestPointOnRoute pos [p0; p1] hint defaultSearchRadius =
      Some {| index := 0%Z; distance := Js.Finite d0 |}) \/
   (d1 < d0 /\
    findNearestPointOnRoute pos [p0; p1] hint defaultSearchRadius =
      Some {| index := 1%Z; distance := Js.Finite d1 |})).
Proof.
  split; [ reflexivity | ].
  intros Hh d0 d1.
  unfold findNearestPointOnRoute, defaultSearchRadius. simpl List.length.
  cbn [Nat.eqb].
  replace (Z.max 0 (hint - 5)) with 0%Z by lia.
  replace (Z.min (Z.of_nat 2) (hint + 100)) with 2%Z by lia.
  unfold scan. simpl seq. cbn [fold_left].
  unfold visit at 2. cbn [nth_error Z.to_nat fst snd Js.lt_number].
  unfold visit. cbn [nth_error fst snd Js.lt_number].
  fold d0 d1.
  destruct (Js.ltb d1 d0) eqn:Hlt.
  - right. apply ltb_true in Hlt. split; [ exact Hlt | reflexivity ].
  - left. apply ltb_false in Hlt. split; [ exact Hlt | reflexivity ].
Qed.

Lemma nearest_point_edge_cases_witness :
  let o := {| latitude := 0; longitude := 0 |} in
  findNearestPointOnRoute o [o; o] 0 defaultSearchRadius =
    Some {| index := 0%Z; distance := Js.Finite (getDistanceInMeters o o) |}.
Proof.
  intros o.
  destruct (proj2 (nearest_point_edge_cases o o o 0 0)) as [[_ H] | [H _]].
  - lia.
  - exact H.
  - exfalso. lra.
Defined.

(** C8, the claim as stated fails: with hint 7 the window of the search
    lies beyond a two-point route, no point is looked at, and the hint
    itself comes back with distance [Infinity]. *)
Lemma nearest_point_two_point_route_stale_hint :
  let p0 := {| latitude := 0; longitude := 0 |} in
  let p1 := {| latitude := 1; longitude := 1 |} in
  findNearestPointOnRoute p0 [p0; p1] 7 defaultSearchRadius =
    Some {| index := 7%Z; distance := Js.Infinity |}.
Proof. reflexivity. Qed.

(** *** Projection onto a segment and route splitting *)

Lemma max_min_clamp (u : R) :
  let t := Js.max 0 (Js.min 1 u) in
  (u < 0 /\ t = 0) \/ (0 <= u <= 1 /\ t = u) \/ (1 < u /\ t = 1).
Proof.
  unfold Js.max, Js.min.
  destruct (Rlt_dec u 1); destruct (Rlt_dec 0 _);
    destruct (Rlt_dec u 0); destruct (Rlt_dec 1 u);
    solve [ exfalso; lra | left; split; lra
          | right; left; split; lra
          | right; right; split; lra ].
Qed.

(** [projectPointOnSegment] returns the point of the segment that is
    closest to [point] in the latitude/longitude plane, that is the
    orthogonal projection clamped to the segment. *)
Lemma projectPointOnSegment_closest (point a b : LatLng) :
  exists t : R,
    0 <= t <= 1 /\
    projectPointOnSegment point a b = along a b t /\
    forall s : R, 0 <= s <= 1 ->
      planar2 point (projectPointOnSegment point a b)
      <= planar2 point (along a b s).
Proof.
  unfold projectPointOnSegment.
  set (dx := longitude b - longitude a).
  set (dy := latitude b - latitude a).
  destruct (Js.eqb dx 0 && Js.eqb dy 0) eqn:Hdeg.
  - apply andb_true_iff in Hdeg as [Hx Hy].
    apply eqb_true in Hx, Hy.
    exists 0. split; [ lra | ].
    assert (Hal : forall s, along a b s = a).
    { intros s. unfold along. fold dx dy. rewrite Hx, Hy.
      destruct a as [la lo]; simpl. f_equal; ring. }
    split; [ now rewrite Hal | ].
    intros s _. rewrite Hal. lra.
  - set (px := longitude point - longitude a).
    set (py := latitude point - latitude a).
    set (den := dx * dx + dy * dy).
    assert (Hden : 0 < den).
    { apply andb_false_iff in Hdeg.
      assert (dx <> 0 \/ dy <> 0) as [H | H].
      { destruct Hdeg as [H | H]; [ left | right ]; intros E;
          apply eqb_true in E; congruence. }
      - subst den. nra.
      - subst den. nra. }
    set (u := (px * dx + py * dy) / den).
    assert (Hu : u * den = px * dx + py * dy)
      by (subst u; field; lra).
    set (t := Js.max 0 (Js.min 1 u)).
    exists t.
    assert (Ht : 0 <= t <= 1).
    { destruct (max_min_clamp u) as [[_ E] | [[[? ?] E] | [_ E]]];
        fold t in E; rewrite E; lra. }
    split; [ exact Ht | ].
    split; [ reflexivity | ].
    intros s Hs. unfold planar2, along; simpl. fold dx dy px py.
    assert (Hexp : forall r,
      (latitude point - (latitude a + r * dy)) * (latitude point - (latitude a + r * dy)) +
      (longitude point - (longitude a + r * dx)) * (longitude point - (longitude a + r * dx))
      = px * px + py * py - 2 * r * (u * den) + r * r * den).
    { intros r. rewrite Hu. subst px py den. ring. }
    rewrite (Hexp t), (Hexp s).
    assert (Hdiff : (s * s * den - 2 * s * (u * den)) - (t * t * den - 2 * t * (u * den))
                    = den * ((s - t) * (s + t - 2 * u))) by ring.
    assert (Hprod : 0 <= (s - t) * (s + t - 2 * u)).
    { destruct (max_min_clamp u) as [[Hlt E] | [[Hin E] | [Hgt E]]];
        fold t in E; rewrite E.
      - replace ((s - 0) * (s + 0 - 2 * u)) with (s * (s - 2 * u)) by ring.
        apply Rmult_le_pos; lra.
      - replace ((s - u) * (s + u - 2 * u)) with ((s - u) * (s - u)) by ring.
        exact (Rle_0_sqr (s - u)).
      - replace ((s - 1) * (s + 1 - 2 * u)) with ((1 - s) * (2 * u - 1 - s)) by ring.
        apply Rmult_le_pos; lra. }
    assert (0 <= den * ((s - t) * (s + t - 2 * u)))
      by (apply Rmult_le_pos; lra).
    lra.
Qed.

Lemma at_index_some (route : list LatLng) (k : Z) :
  (0 <= k < Z.of_nat (List.length route))%Z ->
  exists p, at_index route k = Some p.
Proof.
  intros Hk. unfold at_index.
  destruct (k <? 0)%Z eqn:E; [ apply Z.ltb_lt in E; lia | ].
  destruct (nth_error route (Z.to_nat k)) as [p | ] eqn:Hp.
  - now exists p.
  - apply nth_error_None in Hp. lia.
Qed.

Lemma last_elem_snoc (l : list LatLng) (x : LatLng) :
  last_elem (l ++ [x]) = Some x.
Proof.
  unfold last_elem. rewrite length_app. simpl.
  replace (List.length l + 1 - 1)%nat with (List.length l) by lia.
  rewrite nth_error_app2 by lia. now rewrite Nat.sub_diag.
Qed.

(** C7 (as amended).  For a route of at least two points and a hint that
    is an index of the route, [splitRouteAtDriver] returns segments whose
    travelled part ends where the remaining part begins.  With [k] the
    nearest index found, the shared point is the projection of the
    position onto the segment from [route[k]] to [route[min(k+1, n-1)]]:
    the point of that segment closest to the position in the
    latitude/longitude plane. *)
Theorem split_continuity (pos : LatLng) (route : list LatLng) (hint : Z) :
  (2 <= List.length route)%nat ->
  (0 <= hint < Z.of_nat (List.length route))%Z ->
  exists (seg : RouteSegments) (a b x : LatLng),
    splitRouteAtDriver pos route hint = Some seg /\
    (0 <= nearestIndex seg < Z.of_nat (List.length route))%Z /\
    at_index route (nearestIndex seg) = Some a /\
    at_index route (Z.min (Z.of_nat (List.length route) - 1)
                          (nearestIndex seg + 1)) = Some b /\
    x = projectPointOnSegment pos a b /\
    last_elem (travelled seg) = Some x /\
    first_elem (remaining seg) = Some x /\
    (exists t : R, 0 <= t <= 1 /\ x = along a b t) /\
    (forall s : R, 0 <= s <= 1 -> planar2 pos x <= planar2 pos (along a b s)).
Proof.
  intros Hlen Hhint. unfold splitRouteAtDriver.
  destruct (List.length route <? 2)%nat eqn:Hshort;
    [ apply Nat.ltb_lt in Hshort; lia | ].
  destruct (findNearestPointOnRoute_in_range pos route hint Hhint)
    as (k & d & Hfind & Hk).
  rewrite Hfind. cbn [index distance].
  unfold getInterpolatedDriverPosition.
  set (n := Z.of_nat (List.length route)) in *.
  assert (Hcond : ((n <? 2)%Z || (k >=? n)%Z) = false).
  { apply orb_false_iff. split.
    - apply Z.ltb_ge. subst n; lia.
    - rewrite Z.geb_leb. apply Z.leb_gt. lia. }
  rewrite Hcond.
  destruct (at_index_some route k Hk) as [a Ha].
  destruct (at_index_some route (Z.min (n - 1) (k + 1))) as [b Hb];
    [ subst n; lia | ].
  rewrite Ha, Hb.
  destruct (projectPointOnSegment_closest pos a b) as (t & Ht & Hal & Hmin).
  eexists _, a, b, (projectPointOnSegment pos a b).
  split; [ reflexivity | ]. cbn [nearestIndex travelled remaining].
  repeat split; try assumption; try lia.
  - apply last_elem_snoc.
  - exists t. split; assumption.
Qed.

Lemma split_continuity_witness :
  let p0 := {| latitude := 0; longitude := 0 |} in
  let p1 := {| latitude := 1; longitude := 1 |} in
  exists (seg : RouteSegments) (x : LatLng),
    splitRouteAtDriver p0 [p0; p1] 0 = Some seg /\
    last_elem (travelled seg) = Some x /\
    first_elem (remaining seg) = Some x.
Proof.
  intros p0 p1.
  destruct (split_continuity p0 [p0; p1] 0)
    as (seg & a & b & x & Hs & _ & _ & _ & _ & Hl & Hf & _).
  - simpl. lia.
  - simpl. lia.
  - exists seg, x. repeat split; assumption.
Defined.

(** C7, the claim as stated fails: a route of a single point is not
    empty, and its split has an empty travelled part, so there is no last
    travelled point to coincide with the first remaining one. *)
Lemma split_single_point_route :
  let p := {| latitude := 1; longitude := 2 |} in
  exists seg : RouteSegments,
    splitRouteAtDriver p [p] 0 = Some seg /\
    last_elem (travelled seg) = None /\
    first_elem (remaining seg) = Some p.
Proof.
  intros p. eexists. repeat split; reflexivity.
Qed.

(** *** Route simplification *)

Lemma getDistanceInMeters_zero (a b : LatLng) :
  latitude a = latitude b -> longitude a = longitude b ->
  getDistanceInMeters a b = 0.
Proof.
  intros Hlat Hlon. unfold getDistanceInMeters. rewrite Hlat, Hlon.
  replace ((latitude b - latitude b) * PI / 180 / 2) with 0
    by (unfold Rdiv; ring).
  replace ((longitude b - longitude b) * PI / 180 / 2) with 0
    by (unfold Rdiv; ring).
  rewrite sin_0.
  replace (0 * 0 + cos (latitude b * PI / 180) * cos (latitude b * PI / 180) * 0 * 0)
    with 0 by ring.
  rewrite Rminus_0_r, sqrt_0, sqrt_1, atan2_0_1. ring.
Qed.

(** The three slices of [simplifyRoute]. *)
Lemma slice_prefix {A : Type} (l : list A) (k : nat) :
  slice l 0 (Some (Z.of_nat k + 1)%Z) = firstn (k + 1) l.
Proof.
  unfold slice. cbn [Z.ltb Z.compare].
  replace (Z.of_nat k + 1 <? 0)%Z with false by (symmetry; apply Z.ltb_ge; lia).
  replace (Z.min 0 (Z.of_nat (List.length l))) with 0%Z by lia.
  rewrite Z.sub_0_r. cbn [Z.to_nat skipn].
  destruct (Nat.le_gt_cases (k + 1) (List.length l)) as [Hle | Hgt].
  - f_equal. lia.
  - rewrite !firstn_all2 by lia. reflexivity.
Qed.

Lemma slice_suffix {A : Type} (l : list A) (k : nat) :
  slice l (Z.of_nat k) None = skipn k l.
Proof.
  unfold slice.
  replace (Z.of_nat k <? 0)%Z with false by (symmetry; apply Z.ltb_ge; lia).
  rewrite firstn_all2 by (rewrite length_skipn; lia).
  destruct (Nat.le_gt_cases k (List.length l)) as [Hle | Hgt].
  - f_equal. lia.
  - rewrite !skipn_all2 by lia. reflexivity.
Qed.

Lemma slice_drop_last {A : Type} (l : list A) :
  slice l 0 (Some (-1)%Z) = removelast l.
Proof.
  unfold slice. cbn [Z.ltb Z.compare].
  replace (Z.min 0 (Z.of_nat (List.length l))) with 0%Z by lia.
  rewrite Z.sub_0_r. cbn [Z.to_nat skipn].
  rewrite removelast_firstn_len. f_equal. lia.
Qed.

Lemma simplifyRoute_S (fuel : nat) (route : list LatLng) (tolerance : R) :
  simplifyRoute (S fuel) route tolerance =
  if (List.length route <=? 2)%nat then Some route
  else
    match route with
    | [] => Some route
    | startPoint :: _ =>
        let endPoint := last route startPoint in
        let '(maxDistance, maxIndex) := farthest route startPoint endPoint in
        if Js.gtb maxDistance tolerance then
          match simplifyRoute fuel (firstn (maxIndex + 1) route) tolerance,
                simplifyRoute fuel (skipn maxIndex route) tolerance with
          | Some left_, Some right_ => Some (removelast left_ ++ right_)
          | _, _ => None
          end
        else Some [startPoint; endPoint]
    end.
Proof.
  destruct route as [ | startPoint rest]; [ reflexivity | ].
  cbn [simplifyRoute].
  destruct (List.length (startPoint :: rest) <=? 2)%nat; [ reflexivity | ].
  cbv zeta.
  destruct (farthest (startPoint :: rest) startPoint
                     (last (startPoint :: rest) startPoint))
    as [maxDistance maxIndex].
  destruct (Js.gtb maxDistance tolerance); [ | reflexivity ].
  rewrite slice_prefix, slice_suffix.
  destruct (simplifyRoute fuel (firstn (maxIndex + 1) (startPoint :: rest))
                          tolerance) as [left_ | ]; [ | reflexivity ].
  destruct (simplifyRoute fuel (skipn maxIndex (startPoint :: rest))
                          tolerance) as [right_ | ]; [ | reflexivity ].
  now rewrite slice_drop_last.
Qed.

(** The farthest inner point, when one is farther than 0, is an inner
    index of the route. *)
Definition inner (route : list LatLng) (best : R * nat) : Prop :=
  best = (0, 0%nat) \/
  (0 < fst best /\ (1 <= snd best <= List.length route - 2)%nat).

Lemma fold_farther_inner (route : list LatLng) (a b : LatLng) (idxs : list nat) :
  Forall (fun i => (1 <= i <= List.length route - 2)%nat) idxs ->
  forall best, inner route best ->
               inner route (fold_left (farther route a b) idxs best).
Proof.
  induction 1 as [ | i idxs Hi _ IH]; intros best Hb; simpl; [ exact Hb | ].
  apply IH. unfold farther.
  destruct (nth_error route i); [ | exact Hb ].
  destruct (Js.gtb _ (fst best)) eqn:Hgt; [ | exact Hb ].
  right. simpl. split; [ | exact Hi ].
  apply ltb_true in Hgt.
  destruct Hb as [-> | [Hpos _]]; simpl in *; lra.
Qed.

Lemma farthest_inner (route : list LatLng) (a b : LatLng) :
  inner route (farthest route a b).
Proof.
  unfold farthest. apply fold_farther_inner; [ | now left ].
  apply Forall_forall. intros i Hi. apply in_seq in Hi. lia.
Qed.

(** On a straight line no inner point is off the line. *)
Lemma perpendicularDistance_on_line (p a b : LatLng) :
  a <> b -> on_line a b p -> perpendicularDistance p a b = 0.
Proof.
  intros Hab Hline. unfold perpendicularDistance.
  set (dx := longitude b - longitude a).
  set (dy := latitude b - latitude a).
  destruct (Js.eqb dx 0 && Js.eqb dy 0) eqn:Hdeg.
  - exfalso. apply Hab.
    apply andb_true_iff in Hdeg as [Hx Hy]. apply eqb_true in Hx, Hy.
    destruct a as [la lo], b as [lb lob]; simpl in *.
    subst dx dy. f_equal; lra.
  - assert (Hden : 0 < dx * dx + dy * dy).
    { apply andb_false_iff in Hdeg.
      assert (dx <> 0 \/ dy <> 0) as [H | H].
      { destruct Hdeg as [H | H]; [ left | right ]; intros E;
          apply eqb_true in E; congruence. }
      - nra.
      - nra. }
    unfold on_line in Hline. fold dx dy in Hline.
    set (px := longitude p - longitude a) in *.
    set (py := latitude p - latitude a) in *.
    apply getDistanceInMeters_zero; simpl.
    + assert (E : (px * dx + py * dy) / (dx * dx + dy * dy) * dy = py).
      { apply Rmult_eq_reg_r with (dx * dx + dy * dy); [ | lra ].
        replace ((px * dx + py * dy) / (dx * dx + dy * dy) * dy * (dx * dx + dy * dy))
          with ((px * dx + py * dy) * dy) by (field; lra).
        replace ((px * dx + py * dy) * dy) with ((px * dy) * dx + py * dy * dy) by ring.
        rewrite <- Hline. ring. }
      rewrite E. subst py. ring.
    + assert (E : (px * dx + py * dy) / (dx * dx + dy * dy) * dx = px).
      { apply Rmult_eq_reg_r with (dx * dx + dy * dy); [ | lra ].
        replace ((px * dx + py * dy) / (dx * dx + dy * dy) * dx * (dx * dx + dy * dy))
          with ((px * dx + py * dy) * dx) by (field; lra).
        replace ((px * dx + py * dy) * dx) with (px * dx * dx + (py * dx) * dy) by ring.
        rewrite Hline. ring. }
      rewrite E. subst px. ring.
Qed.

(** The running maximum of the loop stays within the tolerance when
    every point the loop looks at does. *)
Lemma fold_farther_within (route : list LatLng) (a b : LatLng)
      (tolerance : R) (idxs : list nat) :
  (forall i p, In i idxs -> nth_error route i = Some p ->
               perpendicularDistance p a b <= tolerance) ->
  forall best : R * nat,
    fst best <= tolerance ->
    fst (fold_left (farther route a b) idxs best) <= tolerance.
Proof.
  induction idxs as [ | i idxs IH]; intros Hall best Hbest; simpl;
    [ exact Hbest | ].
  apply IH; [ intros k p Hk; apply Hall; now right | ].
  unfold farther.
  destruct (nth_error route i) as [p | ] eqn:Hp; [ | exact Hbest ].
  destruct (Js.gtb _ (fst best)); [ | exact Hbest ].
  simpl. apply (Hall i p); [ now left | exact Hp ].
Qed.

Lemma last_elem_last (l : list LatLng) (d : LatLng) :
  l <> [] -> last_elem l = Some (last l d).
Proof.
  unfold last_elem. induction l as [ | x l IH]; intros Hne; [ congruence | ].
  destruct l as [ | y l]; [ reflexivity | ].
  specialize (IH ltac:(discriminate)).
  simpl in *. rewrite Nat.sub_0_r in IH. exact IH.
Qed.

Lemma first_elem_firstn (l : list LatLng) (k : nat) :
  first_elem (firstn (k + 1) l) = first_elem l.
Proof. rewrite Nat.add_1_r. destruct l; reflexivity. Qed.

Lemma last_elem_skipn (l : list LatLng) (k : nat) :
  (k < List.length l)%nat -> last_elem (skipn k l) = last_elem l.
Proof.
  intros Hk. unfold last_elem. rewrite nth_error_skipn, length_skipn.
  f_equal. lia.
Qed.

Lemma first_elem_removelast_app (l r : list LatLng) :
  (2 <= List.length l)%nat -> first_elem (removelast l ++ r) = first_elem l.
Proof.
  destruct l as [ | x [ | y l]]; simpl; intros H; try lia. reflexivity.
Qed.

Lemma last_elem_app (l r : list LatLng) :
  (1 <= List.length r)%nat -> last_elem (l ++ r) = last_elem r.
Proof.
  intros Hr. unfold last_elem. rewrite length_app.
  rewrite nth_error_app2 by lia. f_equal. lia.
Qed.

(** With a tolerance that is not negative the recursion ends within a
    fuel of the length of the route, and the simplified route keeps both
    endpoints. *)
Lemma simplifyRoute_endpoints (tolerance : R) :
  0 <= tolerance ->
  forall (fuel : nat) (route : list LatLng),
    (2 <= List.length route)%nat -> (List.length route <= fuel)%nat ->
    exists r,
      simplifyRoute fuel route tolerance = Some r /\
      (2 <= List.length r)%nat /\
      first_elem r = first_elem route /\
      last_elem r = last_elem route.
Proof.
  intros Htol. induction fuel as [ | fuel IH]; intros route Hlen Hfuel; [ lia | ].
  rewrite simplifyRoute_S.
  destruct (List.length route <=? 2)%nat eqn:Hshort.
  { exists route. repeat split; auto. }
  apply Nat.leb_gt in Hshort.
  destruct route as [ | s rest] eqn:Hroute; [ simpl in Hlen; lia | ].
  rewrite <- Hroute in *.
  cbv zeta.
  pose proof (farthest_inner route s (last route s)) as Hin.
  destruct (farthest route s (last route s)) as [maxDistance maxIndex].
  destruct (Js.gtb maxDistance tolerance) eqn:Hgt.
  - apply ltb_true in Hgt.
    destruct Hin as [E | [_ Hidx]]; [ inversion E; subst; lra | ].
    simpl in Hidx.
    destruct (IH (firstn (maxIndex + 1) route)) as (l & Hl & Hl2 & Hlf & _).
    { rewrite length_firstn. lia. }
    { rewrite length_firstn. lia. }
    destruct (IH (skipn maxIndex route)) as (r & Hr & Hr2 & _ & Hrl).
    { rewrite length_skipn. lia. }
    { rewrite length_skipn. lia. }
    rewrite Hl, Hr. exists (removelast l ++ r).
    split; [ reflexivity | ]. split; [ rewrite length_app; lia | ]. split.
    + rewrite first_elem_removelast_app by assumption.
      rewrite Hlf. apply first_elem_firstn.
    + rewrite last_elem_app by lia. rewrite Hrl.
      apply last_elem_skipn. lia.
  - exists [s; last route s]. split; [ reflexivity | ].
    split; [ simpl; lia | ]. split.
    + rewrite Hroute. reflexivity.
    + symmetry. apply last_elem_last. rewrite Hroute. discriminate.
Qed.

(** When no inner point is farther from the line through the endpoints
    than the tolerance, only the endpoints stay. *)
Lemma simplifyRoute_within_tolerance (tolerance : R) (fuel : nat)
      (route : list LatLng) (a b : LatLng) :
  0 <= tolerance ->
  (2 <= List.length route)%nat -> (1 <= fuel)%nat ->
  first_elem route = Some a -> last_elem route = Some b ->
  (forall i p, (1 <= i <= List.length route - 2)%nat ->
               nth_error route i = Some p ->
               perpendicularDistance p a b <= tolerance) ->
  simplifyRoute fuel route tolerance = Some [a; b].
Proof.
  intros Htol Hlen Hfuel Ha Hb Hnear.
  destruct fuel as [ | fuel]; [ lia | ].
  rewrite simplifyRoute_S.
  destruct (List.length route <=? 2)%nat eqn:Hshort.
  - apply Nat.leb_le in Hshort.
    destruct route as [ | x [ | y [ | z rest]]]; simpl in *; try lia.
    unfold first_elem, last_elem in *; simpl in *. congruence.
  - destruct route as [ | s rest] eqn:Hroute; [ simpl in Hlen; lia | ].
    rewrite <- Hroute in *.
    assert (Hs : s = a) by (rewrite Hroute in Ha; inversion Ha; reflexivity).
    assert (He : last route s = b).
    { rewrite (last_elem_last route s) in Hb by (rewrite Hroute; discriminate).
      now inversion Hb. }
    cbv zeta. rewrite He, Hs.
    assert (Hmax : fst (farthest route a b) <= tolerance).
    { unfold farthest. apply fold_farther_within; [ | exact Htol ].
      intros i p Hi. apply in_seq in Hi. apply Hnear. lia. }
    destruct (farthest route a b) as [maxDistance maxIndex].
    simpl in Hmax.
    assert (H : Js.gtb maxDistance tolerance = false)
      by (apply ltb_false; lra).
    rewrite H. reflexivity.
Qed.

(** C9.  For every route of at least two points and every tolerance that
    is not negative (the default one included), [simplifyRoute] returns a
    route whose first and last points are those of the input; and when
    [perpendicularDistance] puts no inner point farther from the line
    through the two endpoints than the tolerance, the result is exactly the
    two endpoints.  So it is for a straight line of 100 points at the
    default tolerance. *)
Theorem simplify_preserves_endpoints
        (route : list LatLng) (tolerance : R) (fuel : nat) :
  0 <= tolerance ->
  (2 <= List.length route)%nat ->
  (List.length route <= fuel)%nat ->
  exists r,
    simplifyRoute fuel route tolerance = Some r /\
    first_elem r = first_elem route /\
    last_elem r = last_elem route /\
    (forall a b : LatLng,
        first_elem route = Some a -> last_elem route = Some b ->
        (forall i p, (1 <= i <= List.length route - 2)%nat ->
                     nth_error route i = Some p ->
                     perpendicularDistance p a b <= tolerance) ->
        r = [a; b]).
Proof.
  intros Htol Hlen Hfuel.
  destruct (simplifyRoute_endpoints tolerance Htol fuel route Hlen Hfuel)
    as (r & Hr & _ & Hf & Hl).
  exists r. repeat split; try assumption.
  intros a b Ha Hb Hnear.
  rewrite (simplifyRoute_within_tolerance tolerance fuel route a b) in Hr;
    try assumption; try lia.
  now inversion Hr.
Qed.

Lemma diagonal_on_line (n : nat) (a b : LatLng) :
  latitude a = longitude a -> latitude b = longitude b ->
  Forall (on_line a b) (diagonal n).
Proof.
  intros Ha Hb. apply Forall_forall. intros p Hp.
  apply in_map_iff in Hp as (i & <- & _).
  unfold on_line. cbn [latitude longitude]. rewrite Ha, Hb. ring.
Qed.

(** A straight line of 100 points at the default tolerance: over the
    reals every perpendicular distance is 0. *)
Lemma simplify_preserves_endpoints_witness :
  simplifyRoute 100 (diagonal 100) defaultTolerance =
    Some [ {| latitude := INR 0; longitude := INR 0 |};
           {| latitude := INR 99; longitude := INR 99 |} ].
Proof.
  destruct (simplify_preserves_endpoints (diagonal 100) defaultTolerance 100)
    as (r & Hr & _ & _ & Hline).
  - unfold defaultTolerance. lra.
  - unfold diagonal. rewrite length_map, length_seq. lia.
  - unfold diagonal. rewrite length_map, length_seq. lia.
  - rewrite Hr. f_equal. apply Hline.
    + reflexivity.
    + reflexivity.
    + intros i p _ Hp. rewrite perpendicularDistance_on_line.
      * unfold defaultTolerance. lra.
      * intros E. apply (f_equal latitude) in E. cbn [latitude] in E.
        rewrite !INR_IZR_INZ in E. apply eq_IZR in E. discriminate.
      * apply nth_error_In in Hp.
        pose proof (diagonal_on_line 100
                      {| latitude := INR 0; longitude := INR 0 |}
                      {| latitude := INR 99; longitude := INR 99 |}
                      eq_refl eq_refl) as Hall.
        rewrite Forall_forall in Hall. now apply Hall.
Defined.

End RouteGeometry.

(** ** The connection channel *)

Section ConnectionChannel.
Import SocketChannel.

(** No call of the module and no event of the socket switches
    auto-reconnect off, except [disableAutoReconnect()]. *)
Lemma channelStep_keeps_autoReconnect (c : Channel) (e : ChannelEvent) :
  e <> CallDisableAutoReconnect -> autoReconnectEnabled c = true ->
  autoReconnectEnabled (fst (channelStep c e)) = true.
Proof.
  intros Hne Hon. destruct e; cbn [channelStep fst]; try exact Hon;
    try reflexivity; try contradiction;
    unfold startHeartbeat, stopHeartbeat, withConnected;
    destruct (heartbeatInterval c); cbn; exact Hon.
Qed.

Lemma channelRun_keeps_autoReconnect (events : list ChannelEvent) :
  forall c : Channel,
    Forall (fun e => e <> CallDisableAutoReconnect) events ->
    autoReconnectEnabled c = true ->
    autoReconnectEnabled (channelRun c events) = true.
Proof.
  unfold channelRun.
  induction events as [ | e events IH]; intros c Hall Hon; [ exact Hon | ].
  inversion Hall as [ | e' events' He Hrest]; subst.
  cbn [fold_left]. apply IH; [ exact Hrest | ].
  now apply channelStep_keeps_autoReconnect.
Qed.

(** C3 (as amended).  The module configures no maximum and counts no
    attempts.  The options switch reconnection on with
    [reconnectionAttempts] equal to [Infinity], and with a delay of
    2000 ms and a maximal delay of 10000 ms.  The [disconnect] handler
    keeps no counter: whatever calls and socket events came before, as
    long as [disableAutoReconnect()] was not among them, a disconnection by
    the server makes it schedule [socket.connect()] after 1000 ms again;
    with auto-reconnect disabled, or for any other reason of the
    disconnection, it schedules nothing. *)
Theorem reconnection_never_gives_up (events : list ChannelEvent) :
  (reconnection socketOptions = true /\
   reconnectionAttempts socketOptions = InfiniteAttempts /\
   reconnectionDelay socketOptions = 2000%Z /\
   reconnectionDelayMax socketOptions = 10000%Z) /\
  (Forall (fun e => e <> CallDisableAutoReconnect) events ->
   snd (channelStep (channelRun initialChannel events)
                    (OnDisconnect "io server disconnect"))
   = [ReconnectIn 1000%Z]) /\
  onDisconnect true "io server disconnect" = [ConnectAfter 1000%Z] /\
  (forall reason : string, onDisconnect false reason = []) /\
  (forall (enabled : bool) (reason : string),
      reason <> "io server disconnect"%string ->
      onDisconnect enabled reason = []).
Proof.
  split; [ repeat split | ]. split; [ | split; [ reflexivity | split ] ].
  - intros Hall. cbn [channelStep snd].
    rewrite (channelRun_keeps_autoReconnect events initialChannel Hall eq_refl).
    reflexivity.
  - reflexivity.
  - intros enabled reason Hne. unfold onDisconnect.
    destruct (String.eqb reason "io server disconnect") eqn:E.
    + apply String.eqb_eq in E. contradiction.
    + now rewrite andb_false_r.
Qed.

Lemma reconnection_never_gives_up_witness :
  snd (channelStep
         (channelRun initialChannel
            (CallConnectSocket
             :: repeat (OnDisconnect "io server disconnect") 20))
         (OnDisconnect "io server disconnect"))
  = [ReconnectIn 1000%Z].
Proof.
  apply (proj1 (proj2 (reconnection_never_gives_up
                         (CallConnectSocket
                          :: repeat (OnDisconnect "io server disconnect") 20)))).
  repeat constructor; discriminate.
Defined.

(** C3, the claim as stated fails: no maximum is configured, and there is
    no number of consecutive disconnections by the server after which the
    handler stops scheduling a reconnection. *)
Lemma reconnection_has_no_cap :
  (forall cap : nat, reconnectionAttempts socketOptions <> AtMost cap) /\
  ~ (exists cap : nat,
        forall n : nat, (cap <= n)%nat ->
          snd (channelStep
                 (channelRun initialChannel
                    (repeat (OnDisconnect "io server disconnect") n))
                 (OnDisconnect "io server disconnect")) = []).
Proof.
  split; [ discriminate | ].
  intros [cap H]. specialize (H cap (Nat.le_refl cap)).
  cbn [channelStep snd] in H.
  rewrite (channelRun_keeps_autoReconnect
             (repeat (OnDisconnect "io server disconnect") cap)
             initialChannel) in H.
  - discriminate.
  - apply Forall_forall. intros e He. apply repeat_spec in He. subst e.
    discriminate.
  - reflexivity.
Qed.

End ConnectionChannel.

(** ** The ride handlers *)

Section RideHandlers.
Import Screen1.
Local Open Scope string_scope.

Lemma withState_same (w : World) : withState (state w) w = w.
Proof. destruct w; reflexivity. Qed.

(** A handler that does nothing leaves the world as it is. *)
Lemma handle_nothing (w : World) (h : State -> State * list Effect) :
  h (state w) = (state w, []) -> handle w h = (w, []).
Proof.
  intros H. unfold handle. rewrite H. simpl. now rewrite withState_same.
Qed.

Lemma sameRide_other (s : State) (dataRideId : option string) :
  (ride s = None \/
   exists r, ride s = Some r /\ dataRideId <> Some (rideId r)) ->
  sameRide s dataRideId = false.
Proof.
  unfold sameRide. intros [-> | (r & -> & Hne)]; [ reflexivity | ].
  destruct dataRideId as [id | ]; [ | reflexivity ].
  apply String.eqb_neq. congruence.
Qed.

(** C6.  A [rideCancelled] message whose [rideId] is not that of the
    current ride, or that arrives when there is no ride, changes nothing:
    the handler returns the state it was given and has no effect, and the
    world with its pending callbacks stays as it is. *)
Theorem stale_cancellation_ignored (w : World) (dataRideId : option string) :
  (ride (state w) = None \/
   exists r, ride (state w) = Some r /\ dataRideId <> Some (rideId r)) ->
  handleRideCancelled (state w) dataRideId = (state w, []) /\
  step w (RideCancelled dataRideId) = (w, []).
Proof.
  intros H. apply sameRide_other in H.
  assert (Hh : handleRideCancelled (state w) dataRideId = (state w, [])).
  { unfold handleRideCancelled. rewrite H. now destruct (isMounted (state w)). }
  split; [ exact Hh | ].
  simpl. now apply handle_nothing.
Qed.

Lemma stale_cancellation_ignored_witness :
  step (quiet exampleAccepted) (RideCancelled (Some "ride-B")) =
    (quiet exampleAccepted, []).
Proof.
  apply (stale_cancellation_ignored (quiet exampleAccepted) (Some "ride-B")).
  right. exists (exampleRide "ride-A" "4821"). split.
  - reflexivity.
  - discriminate.
Defined.

(** *** Completion *)

(** C4 (as amended).  Completing a ride computes neither fare nor
    distance on the device.  The request body carries exactly the ride
    identifier, the driver identifier and the final latitude and
    longitude, and the socket event those identifiers, the final location
    and a timestamp; none of it depends on the distance or the location
    history tracked locally, and the bill shown afterwards takes its
    distance, fare and price per km from the answer of the server. *)
Theorem backend_only_billing
        (s : State) (finalLocation : FinalLocation) (data : CompletionData)
        (km live : R) (history : list LocationType) :
  let s' :=
    s |> setTravelledKm km |> setLiveTripDistance live
      |> setLocationHistory history in
  completionBody s finalLocation =
    [("rideId", JOptString (rideIdOf s));
     ("driverId", JOptString (driverId s));
     ("completedLatitude", JNumber (lat finalLocation));
     ("completedLongitude", JNumber (lng finalLocation))] /\
  map fst (completionEvent s finalLocation) =
    ["rideId"; "driverId"; "actualDrop"; "timestamp"] /\
  snd (submitRideCompletion s finalLocation) =
    (NativeUpdateRideStatus "online" ""
     :: (if socketConnected s
         then [Emit "driverCompletedRide" (completionEvent s finalLocation)]
         else [])
     ++ [PostCompletion (completionBody s finalLocation) finalLocation])%list /\
  snd (submitRideCompletion s' finalLocation) =
    snd (submitRideCompletion s finalLocation) /\
  exists bill,
    billDetails (fst (completionSettled s' finalLocation (Computed data)))
      = Some bill /\
    bill = billFromServer s data /\
    billCharge bill = fare data /\
    billBaseFare bill = fare data /\
    billPricePerKm bill = pricePerKm data /\
    billDistance bill = [NumP (distance data); Lit " km"].
Proof.
  intros s'. repeat split.
  eexists. repeat split.
Qed.

(** C4, the claim as stated fails: the body of the completion request
    carries the driver identifier besides the ride identifier and the
    final coordinates. *)
Lemma completion_body_carries_driver_id :
  In ("driverId", JString "driver-1")
     (completionBody exampleAccepted {| lat := 12; lng := 77 |}) /\
  map fst (completionBody exampleAccepted {| lat := 12; lng := 77 |}) <>
    ["rideId"; "completedLatitude"; "completedLongitude"].
Proof.
  split.
  - simpl. right. left. reflexivity.
  - simpl. discriminate.
Qed.

(** *** The OTP gate *)

Ltac break_match :=
  match goal with
  | |- context [match ?x with _ => _ end] => destruct x eqn:?
  | |- context [if ?x then _ else _] => destruct x eqn:?
  end.

Lemma run_snoc (w : World) (events : list Event) (e : Event) :
  run w (events ++ [e]) = fst (step (run w events) e).
Proof. unfold run. now rewrite fold_left_app. Qed.

Lemma confirmOTP_schedules (s : State) (startPoint : LocationType) :
  In (TripStartTimeout startPoint) (snd (confirmOTP s)) ->
  otpMatches s = true.
Proof.
  unfold confirmOTP, otpMatches.
  destruct (ride s) as [r | ]; [ | simpl; intuition discriminate ].
  destruct (truthy (otp r)); simpl; [ | intuition discriminate ].
  destruct (String.length (enteredOtp s) =? 4)%nat; simpl;
    [ | intuition discriminate ].
  destruct (otpVerifying s); [ simpl; intuition discriminate | ].
  destruct (startPointOf s); [ | simpl; intuition discriminate ].
  destruct (otpDiffers (enteredOtp s) (otp r)); simpl;
    [ intuition discriminate | reflexivity ].
Qed.

(** Only a matching code makes [confirmOTP] leave a timer behind. *)
Lemma confirmOTP_effects (s : State) :
  otpMatches s = true \/
  exists e, snd (confirmOTP s) = [e] /\
            ((exists title message, e = Alert title message) \/
             (exists message, e = Log message)).
Proof.
  assert (Halert : forall (s' : State) title message,
    otpMatches s = true \/
    exists e, snd (s', [Alert title message]) = [e] /\
              ((exists title message, e = Alert title message) \/
               (exists message, e = Log message))).
  { intros. right. eexists. split; [ reflexivity | left; eauto ]. }
  assert (Hlog : forall (s' : State) message,
    otpMatches s = true \/
    exists e, snd (s', [Log message]) = [e] /\
              ((exists title message, e = Alert title message) \/
               (exists message, e = Log message))).
  { intros. right. eexists. split; [ reflexivity | right; eauto ]. }
  unfold confirmOTP.
  destruct (ride s) as [r | ] eqn:Hr; [ | apply Hlog ].
  destruct (truthy (otp r)); simpl negb; cbv iota; [ | apply Halert ].
  destruct (String.length (enteredOtp s) =? 4)%nat eqn:Hlen; simpl negb;
    cbv iota; [ | apply Halert ].
  destruct (otpVerifying s); [ apply Hlog | ].
  destruct (startPointOf s); [ | apply Halert ].
  destruct (otpDiffers (enteredOtp s) (otp r)) eqn:Hd; [ apply Halert | ].
  left. unfold otpMatches. now rewrite Hr, Hlen, Hd.
Qed.

Lemma confirmOTP_status (s : State) :
  rideStatus (fst (confirmOTP s)) = rideStatus s.
Proof. unfold confirmOTP. repeat break_match; reflexivity. Qed.

Lemma handle_eq (w : World) (h : State -> State * list Effect) :
  handle w h =
  (fold_left schedule (snd (h (state w))) (withState (fst (h (state w))) w),
   snd (h (state w))).
Proof. unfold handle. now destruct (h (state w)). Qed.

Lemma takeAt_nonEmpty {A : Type} (i : nat) (l : list A) (p : A * list A) :
  takeAt i l = Some p -> nonEmpty l = true.
Proof. destruct l; [ destruct i; discriminate | reflexivity ]. Qed.

(** A leaf of the case analysis of [step_gate]: the trip was under way
    before the event already. *)
Ltac gate_leaf :=
  unfold tripUnderWay; cbn;
  lazymatch goal with
  | Htake : takeAt _ ?l = Some _ |- _ =>
      apply takeAt_nonEmpty in Htake;
      first [ intros _; left; rewrite Htake; rewrite ?orb_true_r; reflexivity
            | let H := fresh in
              intros H; left; rewrite ?orb_true_iff in *;
              intuition congruence ]
  | _ =>
      first [ let H := fresh in
              intros H; left; rewrite ?orb_true_iff in *;
              intuition congruence
            | intros _; left;
              match goal with
              | Hs : rideStatus _ = started |- _ => rewrite Hs; reflexivity
              end ]
  end.

Lemma confirm_gate (w : World) :
  tripUnderWay (fst (step w TapConfirmOtp)) = true ->
  tripUnderWay w = true \/ otpMatches (state w) = true.
Proof.
  destruct w as [s acks timers dialogs requests errors].
  cbn [step]. rewrite handle_eq. cbn [state].
  destruct (confirmOTP_effects s) as [Hm | (e & He & Hkind)];
    [ intros _; right; exact Hm | ].
  pose proof (confirmOTP_status s) as Hst.
  destruct (confirmOTP s) as [s' fx]. simpl in He, Hst. subst fx.
  intros H. left. revert H. unfold tripUnderWay.
  destruct Hkind as [(title & message & ->) | (message & ->)];
    cbn; rewrite Hst; auto.
Qed.

(** The two events that can put a trip under way: a confirmation of a
    code that matches the code of the ride current at that moment, and the
    restoring of a saved session whose saved status is [started]. *)
Definition opensGate (w : World) (e : Event) : bool :=
  match e with
  | TapConfirmOtp => otpMatches (state w)
  | RestoreRideState (Some rideState) _ _ =>
      isStarted (savedRideStatus rideState)
  | _ => false
  end.

Lemma restore_gate (w : World) (saved : option SavedRideState)
      (token : option string) (backend : BackendCheck) :
  tripUnderWay (fst (step w (RestoreRideState saved token backend))) = true ->
  tripUnderWay w = true \/
  opensGate w (RestoreRideState saved token backend) = true.
Proof.
  destruct w as [s acks timers dialogs requests errors].
  cbn [step]. rewrite handle_eq. cbn [state opensGate].
  unfold restoreRideState.
  destruct saved as [rideState | ]; [ | cbn; auto ].
  destruct (savedRideStatus rideState) eqn:Hst;
    destruct (savedRide rideState) as [r | ];
    try (cbn; auto; fail).
  (* a saved status [accepted] leaves the pending callbacks as they are *)
  cbv zeta.
  repeat break_match; unfold tripUnderWay; cbn; rewrite ?Hst; cbn; auto.
  all: intros H; left; rewrite ?orb_true_iff in *; intuition congruence.
Qed.

(** An event puts the trip under way only if it already was, or if the
    event is one of the two that open the gate. *)
Lemma step_gate (w : World) (e : Event) :
  tripUnderWay (fst (step w e)) = true ->
  tripUnderWay w = true \/ opensGate w e = true.
Proof.
  destruct e;
    try (intros H; apply confirm_gate in H; exact H);
    try (apply restore_gate).
  all: destruct w as [s acks timers dialogs requests errors].
  all: cbn [step state acceptAcks tripStartTimers completeDialogs completionRequests
            errorDialogs].
  all: repeat break_match.
  all: rewrite ?handle_eq;
       cbn [state acceptAcks tripStartTimers completeDialogs completionRequests
            errorDialogs].
  all: try unfold pressAcceptButton, pressRejectButton.
  all: try unfold acceptRide, acceptRideCallback,
         handleDisconnect, proceedWithTripStartSafe, emitTripStartEvents,
         pressRideButton, completeRide, submitRideCompletion,
         completionSettled, completionCancelled, handleBillModalClose,
         handleRideCancelled, handleRideAlreadyAccepted,
         handleRideTakenByDriver, handleBillAlert, handleRideOTP,
         handleOtpVerificationSuccess, handleOtpVerificationFailed,
         handleRideRequest, rejectRide.
  all: repeat break_match.
  all: gate_leaf.
Qed.

(** The trip gets under way only through an event that opens the gate
    somewhere in the sequence of events. *)
Lemma run_gate (w0 : World) (events : list Event) :
  tripUnderWay (run w0 events) = true ->
  tripUnderWay w0 = true \/
  exists before e after,
    events = (before ++ e :: after)%list /\
    opensGate (run w0 before) e = true.
Proof.
  induction events as [ | e events IH] using rev_ind; intros H.
  - now left.
  - rewrite run_snoc in H. apply step_gate in H.
    destruct H as [H | Hm].
    + destruct (IH H) as [H0 | (before & e' & after & -> & Hm)];
        [ now left | ].
      right. exists before, e', (after ++ [e])%list.
      split; [ | exact Hm ]. now rewrite <- app_assoc.
    + right. exists events, e, []. split; [ reflexivity | exact Hm ].
Qed.

(** What an event that opens the gate is. *)
Lemma opensGate_cases (w : World) (e : Event) :
  opensGate w e = true ->
  (e = TapConfirmOtp /\ otpMatches (state w) = true) \/
  (exists rideState token backend,
      e = RestoreRideState (Some rideState) token backend /\
      savedRideStatus rideState = started).
Proof.
  destruct e; try discriminate; cbn [opensGate].
  - intros H. now left.
  - destruct saved as [rideState | ]; [ | discriminate ].
    intros H. right. exists rideState, token, backend.
    split; [ reflexivity | ].
    destruct (savedRideStatus rideState); try discriminate. reflexivity.
Qed.

(** Without a match [confirmOTP] changes at most the entered code, and
    reports with one alert (or one log line). *)
Lemma confirmOTP_rejects (s : State) :
  otpMatches s = false ->
  (fst (confirmOTP s) = s \/ fst (confirmOTP s) = setEnteredOtp "" s) /\
  exists e, snd (confirmOTP s) = [e] /\
            ((exists title message, e = Alert title message) \/
             (exists message, e = Log message)).
Proof.
  intros Hno. split.
  - unfold confirmOTP, otpMatches in *.
    destruct (ride s) as [r | ]; [ | now left ].
    destruct (truthy (otp r)); simpl; [ | now left ].
    destruct (String.length (enteredOtp s) =? 4)%nat; simpl; [ | now left ].
    destruct (otpVerifying s); [ now left | ].
    destruct (startPointOf s); [ | now left ].
    destruct (otpDiffers (enteredOtp s) (otp r)); [ now right | ].
    simpl in Hno. discriminate.
  - destruct (confirmOTP_effects s) as [Hm | H]; [ congruence | exact H ].
Qed.

(** C2 (as amended).  From an accepted ride, a confirmation with a code
    that is not four characters long or differs from the code of the ride
    leaves the ride accepted, sets no trip-start timer and only raises an
    alert.  And whatever the sequence of events, if it ends with the ride
    started then somewhere in it either the driver confirmed a
    four-character code equal to the code of the ride that was current at
    that moment, or a saved session whose saved status is [started] was
    restored. *)
Theorem otp_gate (s0 : State) (events : list Event) :
  rideStatus s0 = accepted ->
  (otpMatches s0 = false ->
   rideStatus (fst (confirmOTP s0)) = accepted /\
   (fst (confirmOTP s0) = s0 \/ fst (confirmOTP s0) = setEnteredOtp "" s0) /\
   tripStartTimers (fst (step (quiet s0) TapConfirmOtp)) = [] /\
   exists e, snd (confirmOTP s0) = [e] /\
             ((exists title message, e = Alert title message) \/
              (exists message, e = Log message))) /\
  (rideStatus (state (run (quiet s0) events)) = started ->
   exists before e after,
     events = (before ++ e :: after)%list /\
     ((e = TapConfirmOtp /\
       otpMatches (state (run (quiet s0) before)) = true) \/
      (exists rideState token backend,
          e = RestoreRideState (Some rideState) token backend /\
          savedRideStatus rideState = started))).
Proof.
  intros Hacc. split.
  - intros Hno. destruct (confirmOTP_rejects s0 Hno) as [Hst (e & He & Hkind)].
    split; [ now rewrite confirmOTP_status | ].
    split; [ exact Hst | ].
    split; [ | now exists e ].
    cbn [step]. rewrite handle_eq. cbn [state quiet]. rewrite He.
    destruct Hkind as [(title & message & ->) | (message & ->)]; reflexivity.
  - intros Hstarted.
    destruct (run_gate (quiet s0) events)
      as [Hhot | (before & e & after & Hev & Hopen)].
    + unfold tripUnderWay. now rewrite Hstarted.
    + unfold tripUnderWay in Hhot. cbn in Hhot. now rewrite Hacc in Hhot.
    + exists before, e, after. split; [ exact Hev | ].
      now apply opensGate_cases.
Qed.

(** After a rejected attempt the driver can enter the right code: the
    gate then opens and the timer starts the trip. *)
Lemma otp_gate_witness :
  let s0 := exampleAccepted |> setEnteredOtp "1234" in
  let events :=
    [TapConfirmOtp; TypeOtp "4821"; TapConfirmOtp; TripStartTimerFires 0] in
  rideStatus (fst (confirmOTP s0)) = accepted /\
  rideStatus (state (run (quiet s0) events)) = started /\
  exists before e after,
    events = (before ++ e :: after)%list /\
    ((e = TapConfirmOtp /\
      otpMatches (state (run (quiet s0) before)) = true) \/
     (exists rideState token backend,
         e = RestoreRideState (Some rideState) token backend /\
         savedRideStatus rideState = started)).
Proof.
  intros s0 events.
  destruct (otp_gate s0 events) as [Hreject Hgate].
  - reflexivity.
  - split; [ apply Hreject; reflexivity | ].
    split; [ vm_compute; reflexivity | ].
    apply Hgate. vm_compute. reflexivity.
Defined.

(** C2, the claim as stated fails, in two ways.  A saved session is
    restored as [started] with no code compared at all.  And a ride
    request that arrives in the 100 ms between the confirmation and its
    timer replaces the ride: the trip then starts on ride B (code 9999)
    although the only code ever confirmed was that of ride A (4821). *)
Lemma otp_gate_without_the_code_of_the_ride :
  let saved :=
    {| savedRide := Some (exampleRide "ride-A" "4821");
       savedUserData := None;
       savedRideStatus := started;
       savedDriverStatus := onRide;
       savedTravelledKm := None;
       savedLastCoord := None |} in
  let rideB := exampleRide "ride-B" "9999" in
  let events :=
    [TypeOtp "4821"; TapConfirmOtp; RideRequested rideB;
     TripStartTimerFires 0] in
  rideStatus exampleAccepted = accepted /\
  rideStatus
    (state (run (quiet exampleAccepted)
                [RestoreRideState (Some saved) None BackendUnknown]))
    = started /\
  rideStatus (state (run (quiet exampleAccepted) events)) = started /\
  ride (state (run (quiet exampleAccepted) events)) = Some rideB /\
  otp rideB = Some "9999" /\
  (forall before after,
      events = (before ++ TapConfirmOtp :: after)%list ->
      enteredOtp (state (run (quiet exampleAccepted) before)) = "4821").
Proof.
  intros saved rideB events.
  split; [ reflexivity | ].
  split; [ vm_compute; reflexivity | ].
  split; [ vm_compute; reflexivity | ].
  split; [ vm_compute; reflexivity | ].
  split; [ reflexivity | ].
  intros before after Hev.
  destruct before as [ | e1 [ | e2 [ | e3 [ | e4 [ | e5 before]]]]];
    cbn [app] in Hev; unfold events in Hev;
    try discriminate.
  injection Hev as H1 H2. subst e1. reflexivity.
Qed.

(** *** The accept lock *)

Lemma takeAt_length {A : Type} (i : nat) (l : list A) (x : A) (rest : list A) :
  takeAt i l = Some (x, rest) -> List.length l = S (List.length rest).
Proof.
  revert i x rest. induction l as [ | y l IH]; intros i x rest H.
  - destruct i; discriminate.
  - destruct i as [ | j]; simpl in H.
    + inversion H; subst. reflexivity.
    + destruct (takeAt j l) as [[z rest'] | ] eqn:Hj; [ | discriminate ].
      inversion H; subst. simpl. f_equal. eapply IH. eassumption.
Qed.


(** C1.  The lock binds only a call of [acceptRide] through a closure
    that sees it.  A call through the closure of the current render is
    refused while [acceptButtonDisabled] or [isAccepting] is set: the
    state stays as it is and no accept request is emitted.  But the button
    Accept of a ride request alert calls the closure that
    [handleRideRequest] holds, the one of the render in which the handler
    was created; when that render saw the lock free (a driver id,
    [acceptButtonDisabled] and [isAccepting] false), pressing the button
    with the socket connected emits an accept request whatever the lock is
    now: the request joins the ones in flight. *)
Theorem accept_from_alert_ignores_lock
        (w : World) (seen : State) (offeredRideId : string)
        (rideIdArg : option string) :
  (acceptButtonDisabled (state w) || isAccepting (state w) = true ->
   fst (acceptRide (state w) (state w) rideIdArg) = state w /\
   existsb isAcceptRequest (snd (acceptRide (state w) (state w) rideIdArg))
   = false) /\
  (truthy (Some offeredRideId) = true ->
   truthy (driverId seen) = true ->
   acceptButtonDisabled seen = false ->
   isAccepting seen = false ->
   socketConnected (state w) = true ->
   acceptAcks (fst (step w (AlertAccept seen offeredRideId)))
   = (acceptAcks w ++ [offeredRideId])%list /\
   existsb isAcceptRequest (snd (step w (AlertAccept seen offeredRideId)))
   = true).
Proof.
  split.
  - intros Hlock. unfold acceptRide. rewrite Hlock.
    destruct (orElse rideIdArg (rideIdOf (state w))) as [current | ].
    + destruct (truthy (Some current)); cbn [negb].
      * destruct (truthy (driverId (state w))); cbn [negb]; split;
          reflexivity.
      * split; reflexivity.
    + split; reflexivity.
  - intros Hid Hdriver Hbutton Hlock Hsocket.
    destruct w as [s acks timers dialogs requests errors].
    cbn [state] in Hsocket.
    cbn [step]. rewrite handle_eq. cbn [state acceptAcks].
    unfold acceptRide, orElse. rewrite Hid. cbn [negb].
    rewrite Hid, Hdriver, Hbutton, Hlock, Hsocket. cbn [negb orb].
    destruct (ride seen) as [r | ], (userData seen) as [u | ];
      cbn; split; reflexivity.
Qed.

(** The failing run.  The driver is online; the request for ride A comes
    in and the driver presses Accept on its alert: the request is emitted
    and the lock taken, and a call through the current render is refused.
    While that request is in flight the same request comes in once more,
    or a request for ride B does: Accept on the new alert emits a second
    request. *)
Lemma accept_from_alert_ignores_lock_witness :
  let memoised := exampleOnline in
  let rideA := exampleRide "ride-A" "4821" in
  let rideB := exampleRide "ride-B" "9999" in
  let w1 :=
    run (quiet memoised) [RideRequested rideA; AlertAccept memoised "ride-A"] in
  let again := run w1 [RideRequested rideA] in
  let other := run w1 [RideRequested rideB] in
  acceptAcks w1 = ["ride-A"] /\
  isAccepting (state w1) = true /\
  acceptButtonDisabled (state w1) = true /\
  snd (acceptRide (state w1) (state w1) (Some "ride-B")) = [Log duplicateTap] /\
  step w1 TapAccept = (w1, []) /\
  acceptAcks again = ["ride-A"] /\
  acceptAcks other = ["ride-A"] /\
  acceptAcks (fst (step again (AlertAccept memoised "ride-A")))
  = (acceptAcks again ++ ["ride-A"])%list /\
  acceptAcks (fst (step other (AlertAccept memoised "ride-B")))
  = (acceptAcks other ++ ["ride-B"])%list.
Proof.
  intros memoised rideA rideB w1 again other.
  split; [ vm_compute; reflexivity | ].
  split; [ vm_compute; reflexivity | ].
  split; [ vm_compute; reflexivity | ].
  split; [ vm_compute; reflexivity | ].
  split; [ vm_compute; reflexivity | ].
  split; [ vm_compute; reflexivity | ].
  split; [ vm_compute; reflexivity | ].
  split.
  - apply (proj2 (accept_from_alert_ignores_lock again memoised "ride-A" None));
      vm_compute; reflexivity.
  - apply (proj2 (accept_from_alert_ignores_lock other memoised "ride-B" None));
      vm_compute; reflexivity.
Defined.

End RideHandlers.

(** * Further properties of the code *)

(** ** The haversine formula *)

Section Haversine.
Import LocationUtils.

Lemma PI_bounds : 2 < PI <= 4.
Proof. split; [ pose proof PI2_1; lra | exact PI_4 ]. Qed.

(** The angle of a point of the unit circle in the first quadrant. *)
Lemma atan2_sin_cos (x : R) :
  0 <= x <= PI / 2 -> Js.atan2 (sin x) (cos x) = x.
Proof.
  intros [Hlo Hhi]. pose proof PI_bounds as HPI. unfold Js.atan2.
  destruct (Req_dec x (PI / 2)) as [-> | Hne].
  - rewrite cos_PI2, sin_PI2.
    destruct (Rlt_dec 0 0); [ lra | ].
    destruct (Rlt_dec 0 1); [ reflexivity | lra ].
  - assert (Hcos : 0 < cos x) by (apply cos_gt_0; lra).
    destruct (Rlt_dec 0 (cos x)); [ | lra ].
    change (sin x / cos x) with (tan x). apply atan_tan. lra.
Qed.

(** The haversine distance is symmetric, is never negative and never
    exceeds half the circumference of the Earth. *)
Lemma calculateDistance_sym (lat1 lon1 lat2 lon2 : R) :
  calculateDistance lat1 lon1 lat2 lon2 = calculateDistance lat2 lon2 lat1 lon1.
Proof.
  unfold calculateDistance.
  replace ((lat2 - lat1) * PI / 180 / 2) with (- ((lat1 - lat2) * PI / 180 / 2))
    by (unfold Rdiv; ring).
  replace ((lon2 - lon1) * PI / 180 / 2) with (- ((lon1 - lon2) * PI / 180 / 2))
    by (unfold Rdiv; ring).
  rewrite !sin_neg.
  set (u := sin ((lat1 - lat2) * PI / 180 / 2)).
  set (v := sin ((lon1 - lon2) * PI / 180 / 2)).
  set (c1 := cos (lat1 * PI / 180)). set (c2 := cos (lat2 * PI / 180)).
  replace (- u * - u + c1 * c2 * - v * - v) with (u * u + c2 * c1 * v * v)
    by ring.
  reflexivity.
Qed.

(** Along a meridian the formula gives the length of the arc: the radius
    of the Earth times the difference of latitude in radians. *)
Lemma calculateDistance_meridian (lat1 lat2 lon : R) :
  0 <= lat2 - lat1 <= 180 ->
  calculateDistance lat1 lon lat2 lon = 6371000 * ((lat2 - lat1) * PI / 180).
Proof.
  intros Hd. pose proof PI_bounds as HPI. unfold calculateDistance.
  replace ((lon - lon) * PI / 180 / 2) with 0 by (unfold Rdiv; ring).
  rewrite sin_0.
  set (x := (lat2 - lat1) * PI / 180 / 2).
  assert (Hx : 0 <= x <= PI / 2).
  { subst x. split.
    - replace ((lat2 - lat1) * PI / 180 / 2)
        with ((lat2 - lat1) * (PI / 360)) by field.
      apply Rmult_le_pos; lra.
    - apply Rmult_le_reg_r with (180 * 2 / PI).
      + apply Rdiv_lt_0_compat; lra.
      + replace ((lat2 - lat1) * PI / 180 / 2 * (180 * 2 / PI))
          with (lat2 - lat1) by (field; lra).
        replace (PI / 2 * (180 * 2 / PI)) with 180 by (field; lra).
        lra. }
  replace (sin x * sin x +
           cos (lat1 * PI / 180) * cos (lat2 * PI / 180) * 0 * 0)
    with (sin x * sin x) by ring.
  assert (Hsin : 0 <= sin x) by (apply sin_ge_0; lra).
  assert (Hcos : 0 <= cos x) by (apply cos_ge_0; lra).
  rewrite (sqrt_square (sin x) Hsin).
  replace (1 - sin x * sin x) with (cos x * cos x).
  2: { pose proof (sin2_cos2 x) as H. unfold Rsqr in H. lra. }
  rewrite (sqrt_square (cos x) Hcos).
  rewrite atan2_sin_cos by exact Hx.
  subst x. field.
Qed.

End Haversine.

Section HaversineFacts.
Import LocationUtils.

(** X2.  Between two points of one meridian, whichever is the northern
    one, [calculateDistance] is the length of the arc: 6371000 m times the
    difference of latitude in radians. *)
Theorem haversine_along_meridian (lat1 lat2 lon : R) :
  -180 <= lat2 - lat1 <= 180 ->
  calculateDistance lat1 lon lat2 lon =
    6371000 * (Rabs (lat2 - lat1) * PI / 180).
Proof.
  intros Hd. destruct (Rle_dec 0 (lat2 - lat1)) as [Hpos | Hneg].
  - rewrite Rabs_right by lra. apply calculateDistance_meridian. lra.
  - rewrite Rabs_left by lra. rewrite calculateDistance_sym.
    rewrite calculateDistance_meridian by lra. f_equal. field.
Qed.

Lemma haversine_along_meridian_witness :
  calculateDistance 12 77 13 77 = 6371000 * (Rabs (13 - 12) * PI / 180).
Proof. apply haversine_along_meridian. lra. Defined.

End HaversineFacts.

(** ** More on the sample filter *)

Section SampleFilterFacts.
Import LocationUtils.

(** X4.  A fix whose latitude or longitude is missing or [NaN], or whose
    accuracy is a number above 40 m, is rejected and leaves the whole
    tracker, smoothing buffer included, as it was. *)
Theorem invalid_or_inaccurate_fix_ignored
        (self : LocationTracker) (lat lng : Js.value) (ts : R)
        (acc : Js.value) :
  (isValidLocation lat lng = false \/
   exists a, acc = Js.Num a /\ 40 < a) ->
  processLocation self lat lng ts acc = (None, self).
Proof.
  intros [Hinv | (a & -> & Ha)]; unfold processLocation.
  - now rewrite Hinv.
  - destruct (isValidLocation lat lng); [ | reflexivity ]. cbn [negb].
    destruct lat; try reflexivity. destruct lng; try reflexivity.
    assert (Hpoor : poorAccuracy (Js.Num a) = true).
    { unfold poorAccuracy, Js.gtb, maxAccuracyThreshold. now apply ltb_true. }
    now rewrite Hpoor.
Qed.

Lemma invalid_or_inaccurate_fix_ignored_witness :
  let self := new_LocationTracker 120 in
  processLocation self (Js.Num 12) (Js.Num 77) 1000 (Js.Num 65) = (None, self) /\
  processLocation self Js.NaN (Js.Num 77) 1000 Js.Undefined = (None, self).
Proof.
  intros self. split.
  - apply invalid_or_inaccurate_fix_ignored. right. exists 65. split;
      [ reflexivity | lra ].
  - apply invalid_or_inaccurate_fix_ignored. left. reflexivity.
Defined.

Lemma smoothed_single (f : LocationPoint -> R) (p : LocationPoint) (raw : R) :
  f p = raw -> smoothed f (pushSample [] p) raw = raw.
Proof.
  intros Hp. unfold smoothed, pushSample, average; simpl. rewrite Hp. lra.
Qed.

(** X5.  After [reset()] the first valid fix is returned as it came:
    distance 0, total distance 0, the raw latitude and longitude; and it
    becomes the last valid location. *)
Theorem first_fix_after_reset
        (self : LocationTracker) (lat lng ts : R) (acc : Js.value) :
  poorAccuracy acc = false ->
  let r := processLocation (reset self) (Js.Num lat) (Js.Num lng) ts acc in
  fst r = Some (result_of 0 0 lat lng) /\
  lastValidLocation (snd r) =
    Some {| latitude := lat; longitude := lng;
            timestamp := ts; accuracy := acc |} /\
  getCurrentDistance (snd r) = 0 /\
  List.length (locationBuffer (snd r)) = 1%nat.
Proof.
  intros Hacc r. subst r. unfold processLocation, reset.
  cbn [isValidLocation Js.is_nullish Js.isNaN orb negb].
  rewrite Hacc. cbn [locationBuffer lastValidLocation trackedDistance].
  rewrite (smoothed_single latitude _ lat) by reflexivity.
  rewrite (smoothed_single longitude _ lng) by reflexivity.
  repeat split.
Qed.

Lemma first_fix_after_reset_witness :
  fst (processLocation (reset (new_LocationTracker 500))
                       (Js.Num 12) (Js.Num 77) 1000 (Js.Num 8))
  = Some (result_of 0 0 12 77).
Proof.
  apply (first_fix_after_reset (new_LocationTracker 500) 12 77 1000 (Js.Num 8)).
  unfold poorAccuracy, Js.gtb, maxAccuracyThreshold. apply ltb_false. lra.
Defined.

Lemma pushSample_length (buffer : list LocationPoint) (p : LocationPoint) :
  (List.length buffer <= smoothingBufferSize)%nat ->
  (1 <= List.length (pushSample buffer p) <= smoothingBufferSize)%nat.
Proof.
  intros Hb. unfold pushSample, smoothingBufferSize in *.
  destruct (3 <? List.length (buffer ++ [p]))%nat eqn:Hfull.
  - apply Nat.ltb_lt in Hfull. rewrite length_app in Hfull. simpl in Hfull.
    destruct buffer as [ | q buffer]; simpl in *; [ lia | ].
    rewrite length_app. simpl. lia.
  - apply Nat.ltb_ge in Hfull. rewrite length_app in *. simpl in *. lia.
Qed.

Lemma processLocation_buffer (self : LocationTracker)
      (lat lng : Js.value) (ts : R) (acc : Js.value) :
  let self' := snd (processLocation self lat lng ts acc) in
  locationBuffer self' = locationBuffer self \/
  exists p, locationBuffer self' = pushSample (locationBuffer self) p.
Proof.
  unfold processLocation.
  destruct (isValidLocation lat lng); simpl; [ | now left ].
  destruct lat as [ | | | la]; try now left.
  destruct lng as [ | | | ln]; try now left.
  destruct (poorAccuracy acc); [ now left | ].
  right. eexists.
  destruct (lastValidLocation self); [ | reflexivity ].
  destruct (Js.ltb _ minDistanceThreshold); [ reflexivity | ].
  destruct (Js.gtb _ maxSpeedThreshold); reflexivity.
Qed.

(** X6.  The smoothing buffer of a tracker never holds more than three
    samples, whatever fixes it is fed after its construction. *)
Theorem smoothing_buffer_bounded (initialDistance : R) (fs : list Fix) :
  (List.length (locationBuffer (feedAll (new_LocationTracker initialDistance) fs))
   <= 3)%nat.
Proof.
  assert (H : forall self,
             (List.length (locationBuffer self) <= 3)%nat ->
             (List.length (locationBuffer (feedAll self fs)) <= 3)%nat).
  { unfold feedAll. induction fs as [ | f fs IH]; intros self Hb; simpl.
    - exact Hb.
    - apply IH. unfold feed.
      destruct (processLocation_buffer self (fixLat f) (fixLng f) (fixTime f)
                                       (fixAccuracy f)) as [-> | [p ->]].
      + exact Hb.
      + apply (pushSample_length (locationBuffer self) p) in Hb.
        unfold smoothingBufferSize in Hb. lia. }
  apply H. simpl. lia.
Qed.

Lemma smoothed_two_points (f : LocationPoint -> R) (p q : LocationPoint)
      (raw : R) :
  smoothed f (pushSample [p] q) raw = (f p + f q) / 2.
Proof. unfold smoothed, pushSample, average; simpl. lra. Qed.

(** The example of X7 and X8: the tracker after a first fix at (0, 0) at
    time 0, and a second fix at latitude 2 on the same meridian; the
    smoothed point is at latitude 1, about 111 km away. *)
Lemma one_degree_north :
  let p := {| latitude := 0; longitude := 0; timestamp := 0;
              accuracy := Js.Undefined |} in
  forall ts : R,
    let q := {| latitude := 2; longitude := 0; timestamp := ts;
                accuracy := Js.Undefined |} in
    calculateDistance (latitude p) (longitude p)
                      (smoothed latitude (pushSample [p] q) 2)
                      (smoothed longitude (pushSample [p] q) 0)
    = 6371000 * (PI / 180).
Proof.
  intros p ts q. rewrite !smoothed_two_points. cbn [latitude longitude p q].
  replace ((0 + 2) / 2) with 1 by lra. replace ((0 + 0) / 2) with 0 by lra.
  rewrite calculateDistance_meridian by lra. f_equal. lra.
Qed.

Ltac use_one_degree_north ts :=
  match goal with
  | |- context [calculateDistance ?a ?b ?c ?d] =>
      replace (calculateDistance a b c d) with (6371000 * (PI / 180))
        by (symmetry; apply (one_degree_north ts))
  end.

(** X8.  The speed check needs time to have passed: when the timestamp
    of a fix is not later than that of the last valid location, the speed
    is taken as 0, and a movement of at least 5 m is accepted however
    large it is; the accumulated distance grows by the whole distance. *)
Theorem stale_timestamp_skips_speed_check
        (self : LocationTracker) (last : LocationPoint)
        (lat lng ts : R) (acc : Js.value) :
  lastValidLocation self = Some last ->
  poorAccuracy acc = false ->
  let buffer :=
    pushSample (locationBuffer self)
      {| latitude := lat; longitude := lng; timestamp := ts; accuracy := acc |} in
  let d := calculateDistance (latitude last) (longitude last)
                             (smoothed latitude buffer lat)
                             (smoothed longitude buffer lng) in
  5 <= d ->
  ts <= timestamp last ->
  let r := processLocation self (Js.Num lat) (Js.Num lng) ts acc in
  fst r = Some (result_of d (getCurrentDistance self + d)
                          (smoothed latitude buffer lat)
                          (smoothed longitude buffer lng)) /\
  getCurrentDistance (snd r) = getCurrentDistance self + d.
Proof.
  intros Hlast Hacc buffer d Hd Htime r. subst r.
  rewrite (processLocation_moving self last lat lng ts acc Hlast Hacc).
  fold buffer. fold d.
  assert (H1 : Js.ltb d minDistanceThreshold = false)
    by (apply ltb_false; unfold minDistanceThreshold; lra).
  assert (H2 : Js.gtb ((ts - timestamp last) / 1000) 0 = false)
    by (apply ltb_false; lra).
  rewrite H1, H2.
  assert (H3 : Js.gtb 0 maxSpeedThreshold = false)
    by (apply ltb_false; unfold maxSpeedThreshold; lra).
  rewrite H3. cbn. split; reflexivity.
Qed.

Lemma stale_timestamp_skips_speed_check_witness :
  let p := {| latitude := 0; longitude := 0; timestamp := 0;
              accuracy := Js.Undefined |} in
  let self := {| lastValidLocation := Some p; trackedDistance := 0;
                 locationBuffer := [p] |} in
  getCurrentDistance
    (snd (processLocation self (Js.Num 2) (Js.Num 0) 0 Js.Undefined))
  = 0 + 6371000 * (PI / 180).
Proof.
  intros p self. pose proof PI_bounds as HPI.
  destruct (stale_timestamp_skips_speed_check self p 2 0 0 Js.Undefined)
    as [_ H].
  - reflexivity.
  - reflexivity.
  - use_one_degree_north 0. lra.
  - cbn [timestamp p]. lra.
  - rewrite H. use_one_degree_north 0. reflexivity.
Defined.

End SampleFilterFacts.

(** ** More on the route geometry *)

Section RouteGeometryFacts.
Import RouteService.

(** The running minimum is at most [d]. *)
Definition atMost (m : Js.number) (d : R) : Prop :=
  match m with
  | Js.Finite r => r <= d
  | Js.Infinity => False
  end.

Lemma visit_minimum (pos : LatLng) (route : list LatLng)
      (best : Js.number * Z) (i : nat) (p : LatLng) :
  nth_error route i = Some p ->
  let best' := visit pos route best i in
  atMost (fst best') (getDistanceInMeters pos p) /\
  (forall d, atMost (fst best) d -> atMost (fst best') d) /\
  (best' = best \/
   best' = (Js.Finite (getDistanceInMeters pos p), Z.of_nat i)).
Proof.
  intros Hp. unfold visit. rewrite Hp.
  destruct best as [[r | ] k]; cbn [fst Js.lt_number].
  - destruct (Js.ltb (getDistanceInMeters pos p) r) eqn:Hlt; cbn [fst atMost].
    + apply ltb_true in Hlt. repeat split; [ lra | intros; lra | now right ].
    + apply ltb_false in Hlt. repeat split; [ lra | tauto | now left ].
  - cbn [fst atMost]. repeat split; [ lra | tauto | now right ].
Qed.

Lemma fold_visit_minimum (pos : LatLng) (route : list LatLng)
      (idxs : list nat) :
  forall best : Js.number * Z,
    let result := fold_left (visit pos route) idxs best in
    (forall i p, In i idxs -> nth_error route i = Some p ->
                 atMost (fst result) (getDistanceInMeters pos p)) /\
    (forall d, atMost (fst best) d -> atMost (fst result) d) /\
    (result = best \/
     exists i p, In i idxs /\ nth_error route i = Some p /\
                 result = (Js.Finite (getDistanceInMeters pos p), Z.of_nat i)).
Proof.
  induction idxs as [ | j idxs IH]; intros best; cbn [fold_left].
  - repeat split; [ intros i p [] | tauto | now left ].
  - destruct (IH (visit pos route best j)) as (Hall & Hmono & Hwhere).
    destruct (nth_error route j) as [q | ] eqn:Hq.
    + destruct (visit_minimum pos route best j q Hq) as (Hj & Hjmono & Hjwhere).
      repeat split.
      * intros i p [<- | Hi] Hp.
        -- rewrite Hq in Hp. inversion Hp; subst. now apply Hmono.
        -- now apply (Hall i p).
      * intros d Hd. now apply Hmono, Hjmono.
      * destruct Hwhere as [-> | (i & p & Hi & Hp & ->)].
        -- destruct Hjwhere as [-> | ->]; [ now left | ].
           right. exists j, q. repeat split; [ now left | exact Hq ].
        -- right. exists i, p. repeat split; [ now right | exact Hp ].
    + assert (Hsame : visit pos route best j = best)
        by (unfold visit; now rewrite Hq).
      rewrite Hsame in *.
      repeat split.
      * intros i p [<- | Hi] Hp; [ congruence | now apply (Hall i p) ].
      * exact Hmono.
      * destruct Hwhere as [-> | (i & p & Hi & Hp & ->)]; [ now left | ].
        right. exists i, p. repeat split; [ now right | exact Hp ].
Qed.

(** What the search returns for a hint that is an index of the route. *)
Lemma findNearestPointOnRoute_minimal
      (pos : LatLng) (route : list LatLng) (hint : Z) :
  (0 <= hint < Z.of_nat (List.length route))%Z ->
  exists (k : nat) (p : LatLng),
    findNearestPointOnRoute pos route hint defaultSearchRadius =
      Some {| index := Z.of_nat k;
              distance := Js.Finite (getDistanceInMeters pos p) |} /\
    nth_error route k = Some p /\
    (forall (i : nat) (q : LatLng),
        (hint - 5 <= Z.of_nat i < hint + 100)%Z ->
        nth_error route i = Some q ->
        getDistanceInMeters pos p <= getDistanceInMeters pos q) /\
    ((hint <= 5)%Z -> (Z.of_nat (List.length route) <= hint + 100)%Z ->
     forall q, In q route ->
               getDistanceInMeters pos p <= getDistanceInMeters pos q).
Proof.
  intros Hh.
  assert (Hmain : exists (k : nat) (p : LatLng),
    findNearestPointOnRoute pos route hint defaultSearchRadius =
      Some {| index := Z.of_nat k;
              distance := Js.Finite (getDistanceInMeters pos p) |} /\
    nth_error route k = Some p /\
    (forall (i : nat) (q : LatLng),
        (hint - 5 <= Z.of_nat i < hint + 100)%Z ->
        nth_error route i = Some q ->
        getDistanceInMeters pos p <= getDistanceInMeters pos q)).
  { unfold findNearestPointOnRoute, defaultSearchRadius.
    destruct (List.length route =? 0)%nat eqn:Hn;
      [ apply Nat.eqb_eq in Hn; lia | ].
    set (n := Z.of_nat (List.length route)) in *.
    set (from := Z.max 0 (hint - 5)).
    set (to := Z.min n (hint + 100)).
    set (first := scan pos route from to (Js.Infinity, hint)).
    assert (Hs : settled route first)
      by (apply scan_settles; subst from to; lia).
    destruct (fold_visit_minimum pos route
                (seq (Z.to_nat from) (Z.to_nat (to - from)))
                (Js.Infinity, hint)) as (Hall & _ & Hwhere).
    fold (scan pos route from to (Js.Infinity, hint)) in Hall, Hwhere.
    fold first in Hall, Hwhere.
    destruct Hwhere as [Hbad | (k & p & _ & Hp & Hfirst)].
    { destruct Hs as [[d Hd] _]. rewrite Hbad in Hd. discriminate. }
    assert (Hwin : forall (i : nat) (q : LatLng),
               (hint - 5 <= Z.of_nat i < hint + 100)%Z ->
               nth_error route i = Some q ->
               atMost (fst first) (getDistanceInMeters pos q)).
    { intros i q Hi Hq. apply (Hall i q); [ | exact Hq ].
      assert (i < List.length route)%nat
        by (apply nth_error_Some; congruence).
      apply in_seq. subst from to n. lia. }
    destruct ((snd first >=? to - 1)%Z && (to <? n)%Z).
    - destruct (to <? 0)%Z eqn:Hneg;
        [ apply Z.ltb_lt in Hneg; subst to n; lia | ].
      destruct (fold_visit_minimum pos route
                  (seq (Z.to_nat to) (Z.to_nat (n - to))) first)
        as (_ & Hmono & Hwhere2).
      fold (scan pos route to n first) in Hmono, Hwhere2.
      destruct Hwhere2 as [Hsame | (k2 & p2 & _ & Hp2 & Hsecond)].
      + rewrite Hsame, Hfirst. exists k, p. cbn [fst snd].
        repeat split; [ exact Hp | ].
        intros i q Hi Hq. specialize (Hwin i q Hi Hq).
        now rewrite Hfirst in Hwin.
      + exists k2, p2. rewrite Hsecond. cbn [fst snd].
        repeat split; [ exact Hp2 | ].
        intros i q Hi Hq. specialize (Hwin i q Hi Hq).
        apply Hmono in Hwin. now rewrite Hsecond in Hwin.
    - rewrite Hfirst. exists k, p. cbn [fst snd].
      repeat split; [ exact Hp | ].
      intros i q Hi Hq. specialize (Hwin i q Hi Hq).
      now rewrite Hfirst in Hwin. }
  destruct Hmain as (k & p & Hfind & Hp & Hwin).
  exists k, p. repeat split; try assumption.
  intros Hsmall Hshort q Hq.
  apply In_nth_error in Hq as [i Hi].
  apply (Hwin i q); [ | exact Hi ].
  assert (i < List.length route)%nat by (apply nth_error_Some; congruence).
  lia.
Qed.

(** X10.  With a hint that is an index of the route, the search returns
    an index of the route together with the distance to the point at that
    index, and no point in the window from [hint - 5] to [hint + 99] is
    nearer; when the window covers the route (a hint of at most 5 on a
    route of at most [hint + 100] points) no point of the route is. *)
Theorem nearest_point_in_window
        (pos : LatLng) (route : list LatLng) (hint : Z) :
  (0 <= hint < Z.of_nat (List.length route))%Z ->
  exists (k : nat) (p : LatLng),
    findNearestPointOnRoute pos route hint defaultSearchRadius =
      Some {| index := Z.of_nat k;
              distance := Js.Finite (getDistanceInMeters pos p) |} /\
    nth_error route k = Some p /\
    (forall (i : nat) (q : LatLng),
        (hint - 5 <= Z.of_nat i < hint + 100)%Z ->
        nth_error route i = Some q ->
        getDistanceInMeters pos p <= getDistanceInMeters pos q) /\
    ((hint <= 5)%Z -> (Z.of_nat (List.length route) <= hint + 100)%Z ->
     forall q, In q route ->
               getDistanceInMeters pos p <= getDistanceInMeters pos q).
Proof. exact (findNearestPointOnRoute_minimal pos route hint). Qed.

Lemma nearest_point_in_window_witness :
  let a := {| latitude := 1; longitude := 1 |} in
  let b := {| latitude := 2; longitude := 2 |} in
  exists (k : nat) (p : LatLng),
    findNearestPointOnRoute a [a; b] 1 defaultSearchRadius =
      Some {| index := Z.of_nat k;
              distance := Js.Finite (getDistanceInMeters a p) |} /\
    getDistanceInMeters a p <= getDistanceInMeters a a.
Proof.
  intros a b.
  destruct (nearest_point_in_window a [a; b] 1) as (k & p & Hf & _ & _ & Hall).
  - simpl. lia.
  - exists k, p. split; [ exact Hf | ].
    apply Hall; [ lia | simpl; lia | now left ].
Defined.

Lemma clamp_percent (x : R) : 0 <= Js.min 100 (Js.max 0 x) <= 100.
Proof.
  unfold Js.min, Js.max.
  destruct (Rlt_dec 0 x); destruct (Rlt_dec _ 100); lra.
Qed.

Lemma clamp_percent_id (x : R) :
  0 <= x <= 100 -> Js.min 100 (Js.max 0 x) = x.
Proof.
  intros Hx. unfold Js.min, Js.max.
  destruct (Rlt_dec 0 x); destruct (Rlt_dec _ 100); lra.
Qed.

Lemma progress_range (k n : nat) :
  (k < n)%nat -> (2 <= n)%nat -> 0 <= INR k / (INR n - 1) * 100 <= 100.
Proof.
  intros Hk Hn.
  assert (Hn2 : 2 <= INR n)
    by (replace 2 with (INR 2) by (simpl; lra); apply le_INR; lia).
  assert (Hk1 : INR k + 1 <= INR n)
    by (rewrite <- S_INR; apply le_INR; lia).
  pose proof (pos_INR k) as Hk0.
  split.
  - apply Rmult_le_pos; [ | lra ]. unfold Rdiv.
    apply Rmult_le_pos; [ lra | ]. apply Rlt_le, Rinv_0_lt_compat. lra.
  - apply Rmult_le_reg_r with ((INR n - 1) / 100).
    + apply Rdiv_lt_0_compat; lra.
    + replace (INR k / (INR n - 1) * 100 * ((INR n - 1) / 100))
        with (INR k) by (field; lra).
      replace (100 * ((INR n - 1) / 100)) with (INR n - 1) by field.
      lra.
Qed.

(** The result of a split, for a route of at least two points and a hint
    that is an index of the route. *)
Lemma splitRouteAtDriver_shape (pos : LatLng) (route : list LatLng) (hint : Z) :
  (2 <= List.length route)%nat ->
  (0 <= hint < Z.of_nat (List.length route))%Z ->
  exists (k : nat) (x : LatLng) (d : Js.number),
    (k < List.length route)%nat /\
    splitRouteAtDriver pos route hint =
      Some {| travelled := firstn (k + 1) route ++ [x];
              remaining := x :: skipn (k + 1) route;
              progress := INR k / (INR (List.length route) - 1) * 100;
              nearestIndex := Z.of_nat k;
              distanceToRoute := d |}.
Proof.
  intros Hlen Hhint. unfold splitRouteAtDriver.
  destruct (List.length route <? 2)%nat eqn:Hshort;
    [ apply Nat.ltb_lt in Hshort; lia | ].
  destruct (findNearestPointOnRoute_in_range pos route hint Hhint)
    as (kz & d & Hfind & Hk).
  rewrite Hfind. cbn [index distance].
  assert (Hkz : kz = Z.of_nat (Z.to_nat kz)) by lia.
  set (k := Z.to_nat kz) in *.
  unfold getInterpolatedDriverPosition.
  set (n := Z.of_nat (List.length route)) in *.
  assert (Hcond : ((n <? 2)%Z || (kz >=? n)%Z) = false).
  { apply orb_false_iff. split.
    - apply Z.ltb_ge. subst n; lia.
    - rewrite Z.geb_leb. apply Z.leb_gt. lia. }
  rewrite Hcond.
  destruct (at_index_some route kz Hk) as [a Ha].
  destruct (at_index_some route (Z.min (n - 1) (kz + 1))) as [b Hb];
    [ subst n; lia | ].
  rewrite Ha, Hb.
  exists k, (projectPointOnSegment pos a b), (Js.Finite d).
  split; [ subst n; lia | ].
  rewrite Hkz at 1 2 3 4. rewrite slice_prefix.
  replace (Z.of_nat k + 1)%Z with (Z.of_nat (k + 1)) by lia.
  rewrite slice_suffix.
  assert (Hpr : 0 <= INR k / (INR (List.length route) - 1) * 100 <= 100)
    by (apply progress_range; [ subst n; lia | exact Hlen ]).
  rewrite <- INR_IZR_INZ. rewrite clamp_percent_id by exact Hpr.
  reflexivity.
Qed.

(** X11.  A split loses no point of the route: for a route of at least
    two points and a hint that is an index of it, dropping the split point
    from the end of [travelled] and from the start of [remaining] and
    joining the two gives the route back; with nearest index [k] the
    travelled part has [k + 2] points, and the progress is
    [k / (n - 1) * 100], between 0 and 100. *)
Theorem split_keeps_every_point
        (pos : LatLng) (route : list LatLng) (hint : Z) :
  (2 <= List.length route)%nat ->
  (0 <= hint < Z.of_nat (List.length route))%Z ->
  exists (seg : RouteSegments) (k : nat),
    splitRouteAtDriver pos route hint = Some seg /\
    nearestIndex seg = Z.of_nat k /\
    removelast (travelled seg) ++ tl (remaining seg) = route /\
    List.length (travelled seg) = (k + 2)%nat /\
    (List.length (travelled seg) + List.length (remaining seg)
     = List.length route + 2)%nat /\
    progress seg = INR k / (INR (List.length route) - 1) * 100 /\
    0 <= progress seg <= 100.
Proof.
  intros Hlen Hhint.
  destruct (splitRouteAtDriver_shape pos route hint Hlen Hhint)
    as (k & x & d & Hk & Hsplit).
  eexists _, k. split; [ exact Hsplit | ].
  cbn [nearestIndex travelled remaining progress tl].
  split; [ reflexivity | ].
  split; [ rewrite removelast_last; apply firstn_skipn | ].
  split; [ rewrite length_app, length_firstn; simpl; lia | ].
  split; [ rewrite length_app, length_firstn; simpl;
           rewrite length_skipn; lia | ].
  split; [ reflexivity | ].
  apply progress_range; [ exact Hk | exact Hlen ].
Qed.

Lemma split_keeps_every_point_witness :
  let a := {| latitude := 1; longitude := 1 |} in
  let b := {| latitude := 2; longitude := 2 |} in
  exists seg : RouteSegments,
    splitRouteAtDriver a [a; b; a] 1 = Some seg /\
    removelast (travelled seg) ++ tl (remaining seg) = [a; b; a].
Proof.
  intros a b.
  destruct (split_keeps_every_point a [a; b; a] 1)
    as (seg & k & Hs & _ & Hr & _).
  - simpl. lia.
  - simpl. lia.
  - exists seg. split; assumption.
Defined.

(** X12.  The nearest index of a split is a valid hint for the next one:
    on a route of at least two points, starting from a hint that is an
    index of the route and feeding each nearest index back as the next
    hint, every split succeeds and the hint stays an index of the route,
    whatever positions come in. *)
Theorem route_following_stays_on_route
        (route : list LatLng) (hint : Z) (positions : list LatLng) :
  (2 <= List.length route)%nat ->
  (0 <= hint < Z.of_nat (List.length route))%Z ->
  exists k : Z,
    followRoute route hint positions = Some k /\
    (0 <= k < Z.of_nat (List.length route))%Z.
Proof.
  intros Hlen. revert hint.
  induction positions as [ | pos positions IH]; intros hint Hhint.
  - exists hint. split; [ reflexivity | exact Hhint ].
  - cbn [followRoute].
    destruct (splitRouteAtDriver_shape pos route hint Hlen Hhint)
      as (k & x & d & Hk & ->).
    cbn [nearestIndex]. apply IH. lia.
Qed.

Lemma route_following_stays_on_route_witness :
  let a := {| latitude := 1; longitude := 1 |} in
  let b := {| latitude := 2; longitude := 2 |} in
  exists k : Z,
    followRoute [a; b; a] 0 [b; a; b] = Some k /\ (0 <= k < 3)%Z.
Proof.
  intros a b.
  apply (route_following_stays_on_route [a; b; a] 0 [b; a; b]).
  - simpl. lia.
  - simpl. lia.
Defined.

(** X13.  Off-route detection.  On an empty route the driver is always
    reported off-route, at distance [Infinity].  With a hint that is an
    index of the route: if the driver is reported on-route, some point of
    the route is within the threshold; if the driver is reported off-route,
    every point in the search window (every point of the route when the
    window covers it) is farther away than the threshold. *)
Theorem off_route_detection
        (pos : LatLng) (route : list LatLng) (threshold : R) (hint : Z) :
  isDriverOffRoute pos [] threshold hint =
    Some {| isOffRoute := true; offDistance := Js.Infinity;
            offNearestIndex := 0%Z |} /\
  ((0 <= hint < Z.of_nat (List.length route))%Z ->
   exists off : OffRoute,
     isDriverOffRoute pos route threshold hint = Some off /\
     (isOffRoute off = false ->
      exists q, In q route /\ getDistanceInMeters pos q <= threshold) /\
     (isOffRoute off = true ->
      forall (i : nat) (q : LatLng),
        (hint - 5 <= Z.of_nat i < hint + 100)%Z ->
        nth_error route i = Some q ->
        threshold < getDistanceInMeters pos q)).
Proof.
  split; [ reflexivity | ].
  intros Hhint.
  destruct (findNearestPointOnRoute_minimal pos route hint Hhint)
    as (k & p & Hfind & Hp & Hwin & _).
  unfold isDriverOffRoute. rewrite Hfind. eexists. split; [ reflexivity | ].
  cbn [isOffRoute distance Js.number_gt]. unfold Js.gtb. split.
  - intros Hon. apply ltb_false in Hon. exists p. split; [ | exact Hon ].
    eapply nth_error_In. exact Hp.
  - intros Hoff i q Hi Hq. apply ltb_true in Hoff.
    specialize (Hwin i q Hi Hq). lra.
Qed.

Lemma off_route_detection_witness :
  let a := {| latitude := 1; longitude := 1 |} in
  let b := {| latitude := 2; longitude := 2 |} in
  exists off : OffRoute,
    isDriverOffRoute a [a; b] 30 0 = Some off /\ isOffRoute off = false.
Proof.
  intros a b.
  destruct (proj2 (off_route_detection a [a; b] 30 0))
    as (off & Hoff & _ & Hfar).
  - simpl. lia.
  - exists off. split; [ exact Hoff | ].
    destruct (isOffRoute off) eqn:E; [ | reflexivity ].
    exfalso. specialize (Hfar eq_refl 0%nat a).
    rewrite getDistanceInMeters_zero in Hfar by reflexivity.
    assert (30 < 0); [ apply Hfar; [ lia | reflexivity ] | lra ].
Defined.

(** *** Significant movement *)

Lemma getDistanceInMeters_sym (a b : LatLng) :
  getDistanceInMeters a b = getDistanceInMeters b a.
Proof.
  exact (calculateDistance_sym (latitude a) (longitude a)
                               (latitude b) (longitude b)).
Qed.

(** X15.  Without a previous location every movement is significant; a
    location identical to the previous one never is, for a positive
    threshold; the test does not depend on which of the two locations is
    the old one; and a movement significant for one threshold is
    significant for every smaller one. *)
Theorem significant_movement_properties (a b : LatLng) (m m' : R) :
  isSignificantMovement None b m = true /\
  (0 < m -> isSignificantMovement (Some a) a m = false) /\
  isSignificantMovement (Some a) b m = isSignificantMovement (Some b) a m /\
  (m' <= m -> isSignificantMovement (Some a) b m = true ->
   isSignificantMovement (Some a) b m' = true).
Proof.
  unfold isSignificantMovement, Js.geb, Js.leb.
  split; [ reflexivity | ]. split; [ | split ].
  - intros Hm. rewrite getDistanceInMeters_zero by reflexivity.
    destruct (Rle_dec m 0); [ lra | reflexivity ].
  - now rewrite (getDistanceInMeters_sym a b).
  - intros Hle. destruct (Rle_dec m (getDistanceInMeters a b));
      [ | discriminate ].
    intros _. destruct (Rle_dec m' (getDistanceInMeters a b));
      [ reflexivity | lra ].
Qed.

Lemma significant_movement_properties_witness :
  isSignificantMovement (Some {| latitude := 1; longitude := 1 |})
                        {| latitude := 1; longitude := 1 |} 10 = false.
Proof.
  apply (significant_movement_properties
           {| latitude := 1; longitude := 1 |}
           {| latitude := 1; longitude := 1 |} 10 10).
  lra.
Defined.

(** *** Integer parts and remainders *)

Lemma floor_spec (x : R) : IZR (Js.floor x) <= x < IZR (Js.floor x) + 1.
Proof.
  unfold Js.floor. rewrite minus_IZR. destruct (archimed x) as [Hup Hlow]. lra.
Qed.

Lemma floor_unique (x : R) (z : Z) :
  IZR z <= x < IZR z + 1 -> Js.floor x = z.
Proof.
  intros [Hlo Hhi]. destruct (floor_spec x) as [Flo Fhi].
  assert (H1 : (Js.floor x < z + 1)%Z).
  { apply lt_IZR. rewrite plus_IZR. lra. }
  assert (H2 : (z < Js.floor x + 1)%Z).
  { apply lt_IZR. rewrite plus_IZR. lra. }
  lia.
Qed.

Lemma floor_nonneg (x : R) : 0 <= x -> (0 <= Js.floor x)%Z.
Proof.
  intros Hx. destruct (floor_spec x) as [_ Fhi].
  assert (H : (-1 < Js.floor x)%Z) by (apply lt_IZR; lra).
  lia.
Qed.

Lemma rem_range (x m : R) : 0 <= x -> 0 < m -> 0 <= Js.rem x m < m.
Proof.
  intros Hx Hm. unfold Js.rem, Js.trunc.
  assert (Hq : 0 <= x / m).
  { unfold Rdiv. apply Rmult_le_pos; [ lra | ].
    apply Rlt_le, Rinv_0_lt_compat; lra. }
  destruct (Rlt_dec (x / m) 0) as [Hneg | _]; [ lra | ].
  destruct (floor_spec (x / m)) as [Flo Fhi].
  assert (Hx' : x = m * (x / m)) by (field; lra).
  split.
  - assert (m * IZR (Js.floor (x / m)) <= m * (x / m))
      by (apply Rmult_le_compat_l; lra).
    lra.
  - assert (m * (x / m) < m * (IZR (Js.floor (x / m)) + 1))
      by (apply Rmult_lt_compat_l; lra).
    lra.
Qed.

Lemma rem_whole (k : Z) (r m : R) :
  (0 <= k)%Z -> 0 < m -> 0 <= r < m -> Js.rem (r + m * IZR k) m = r.
Proof.
  intros Hk Hm Hr. unfold Js.rem, Js.trunc.
  assert (Hdiv : (r + m * IZR k) / m = r / m + IZR k) by (field; lra).
  assert (Hq : 0 <= r / m < 1).
  { split.
    - unfold Rdiv. apply Rmult_le_pos; [ lra | ].
      apply Rlt_le, Rinv_0_lt_compat; lra.
    - apply Rmult_lt_reg_r with m; [ lra | ].
      replace (r / m * m) with r by (field; lra). lra. }
  assert (Hk' : 0 <= IZR k) by (apply IZR_le in Hk; exact Hk).
  rewrite Hdiv.
  destruct (Rlt_dec (r / m + IZR k) 0) as [Hneg | _]; [ lra | ].
  rewrite (floor_unique (r / m + IZR k) k) by lra. lra.
Qed.

(** *** Bearings *)

Lemma atan2_range (y x : R) : - PI < Js.atan2 y x <= PI.
Proof.
  pose proof PI_bounds as HPI. unfold Js.atan2.
  destruct (Rlt_dec 0 x) as [Hpos | Hnpos].
  - pose proof (atan_bound (y / x)). lra.
  - destruct (Rlt_dec x 0) as [Hneg | Hnneg].
    + assert (Hinv : / x < 0) by (apply Rinv_lt_0_compat; exact Hneg).
      destruct (Rlt_dec y 0) as [Hy | Hy].
      * assert (0 < y / x).
        { unfold Rdiv. replace (y * / x) with ((- y) * (- / x)) by ring.
          apply Rmult_lt_0_compat; lra. }
        pose proof (atan_bound (y / x)).
        assert (atan 0 < atan (y / x)) by (apply atan_increasing; lra).
        rewrite atan_0 in *. lra.
      * assert (y / x <= 0).
        { unfold Rdiv. replace (y * / x) with (- (y * (- / x))) by ring.
          assert (0 <= y * (- / x)) by (apply Rmult_le_pos; lra). lra. }
        pose proof (atan_bound (y / x)).
        assert (atan (y / x) <= atan 0).
        { destruct (Req_dec (y / x) 0) as [-> | Hne]; [ lra | ].
          apply Rlt_le, atan_increasing. lra. }
        rewrite atan_0 in *. lra.
    + destruct (Rlt_dec 0 y); [ lra | ]. destruct (Rlt_dec y 0); lra.
Qed.

Lemma bearing_of_angle (t d : R) :
  0 <= d < 360 -> t = d * (PI / 180) -> Js.rem (t * 180 / PI + 360) 360 = d.
Proof.
  intros Hd ->. pose proof PI_bounds as HPI.
  replace (d * (PI / 180) * 180 / PI + 360) with (d + 360 * IZR 1)
    by (field; lra).
  apply rem_whole; [ lia | lra | exact Hd ].
Qed.

Lemma atan2_pos_axis (x : R) : 0 < x -> Js.atan2 0 x = 0.
Proof.
  intros Hx. unfold Js.atan2. destruct (Rlt_dec 0 x); [ | lra ].
  replace (0 / x) with 0 by (field; lra). apply atan_0.
Qed.

Lemma atan2_neg_axis (x : R) : x < 0 -> Js.atan2 0 x = PI.
Proof.
  intros Hx. unfold Js.atan2. destruct (Rlt_dec 0 x); [ lra | ].
  destruct (Rlt_dec x 0); [ | lra ]. destruct (Rlt_dec 0 0); [ lra | ].
  replace (0 / x) with 0 by (field; lra). rewrite atan_0. lra.
Qed.

Lemma atan2_up_axis (y : R) : 0 < y -> Js.atan2 y 0 = PI / 2.
Proof.
  intros Hy. unfold Js.atan2. destruct (Rlt_dec 0 0); [ lra | ].
  destruct (Rlt_dec 0 y); [ reflexivity | lra ].
Qed.

(** X16.  [calculateBearing] always returns a compass bearing in
    [0, 360). *)
Theorem bearing_in_compass_range (start finish : LatLng) :
  0 <= calculateBearing start finish < 360.
Proof.
  unfold calculateBearing. cbv zeta. apply rem_range; [ | lra ].
  pose proof PI_bounds as HPI.
  match goal with |- context [Js.atan2 ?y ?x] =>
    pose proof (atan2_range y x) as Hr; set (t := Js.atan2 y x) in * end.
  assert (- 180 < t * 180 / PI).
  { apply Rmult_lt_reg_r with PI; [ lra | ].
    replace (t * 180 / PI * PI) with (t * 180) by (field; lra). lra. }
  lra.
Qed.

(** X17.  On one meridian the bearing to a point further north (by less
    than 180 degrees of latitude) is 0 and to a point further south is
    180; along the equator the bearing to a point further east (by less
    than 180 degrees of longitude) is 90. *)
Theorem bearing_cardinal_directions (lat1 lat2 lon lon1 lon2 : R) :
  (0 < lat2 - lat1 < 180 ->
   calculateBearing {| latitude := lat1; longitude := lon |}
                    {| latitude := lat2; longitude := lon |} = 0) /\
  (0 < lat1 - lat2 < 180 ->
   calculateBearing {| latitude := lat1; longitude := lon |}
                    {| latitude := lat2; longitude := lon |} = 180) /\
  (0 < lon2 - lon1 < 180 ->
   calculateBearing {| latitude := 0; longitude := lon1 |}
                    {| latitude := 0; longitude := lon2 |} = 90).
Proof.
  pose proof PI_bounds as HPI.
  unfold calculateBearing; cbn [latitude longitude]; cbv zeta.
  split; [ | split ].
  - intros Hn.
    replace ((lon - lon) * PI / 180) with 0 by field.
    rewrite sin_0, cos_0, Rmult_0_l, Rmult_1_r.
    assert (Hpos : 0 < sin (lat2 * PI / 180 - lat1 * PI / 180)).
    { apply sin_gt_0.
      - replace (lat2 * PI / 180 - lat1 * PI / 180)
          with ((lat2 - lat1) * (PI / 180)) by field.
        apply Rmult_lt_0_compat; lra.
      - replace (lat2 * PI / 180 - lat1 * PI / 180)
          with ((lat2 - lat1) * (PI / 180)) by field.
        replace PI with (180 * (PI / 180)) at 2 by field.
        apply Rmult_lt_compat_r; lra. }
    replace (cos (lat1 * PI / 180) * sin (lat2 * PI / 180) -
             sin (lat1 * PI / 180) * cos (lat2 * PI / 180))
      with (sin (lat2 * PI / 180) * cos (lat1 * PI / 180) -
            cos (lat2 * PI / 180) * sin (lat1 * PI / 180)) by ring.
    rewrite <- sin_minus. rewrite (atan2_pos_axis _ Hpos).
    apply bearing_of_angle; lra.
  - intros Hs.
    replace ((lon - lon) * PI / 180) with 0 by field.
    rewrite sin_0, cos_0, Rmult_0_l, Rmult_1_r.
    assert (Hpos : 0 < sin (lat1 * PI / 180 - lat2 * PI / 180)).
    { apply sin_gt_0.
      - replace (lat1 * PI / 180 - lat2 * PI / 180)
          with ((lat1 - lat2) * (PI / 180)) by field.
        apply Rmult_lt_0_compat; lra.
      - replace (lat1 * PI / 180 - lat2 * PI / 180)
          with ((lat1 - lat2) * (PI / 180)) by field.
        replace PI with (180 * (PI / 180)) at 2 by field.
        apply Rmult_lt_compat_r; lra. }
    rewrite sin_minus in Hpos.
    rewrite atan2_neg_axis by lra.
    apply bearing_of_angle; [ lra | field ].
  - intros He.
    replace (0 * PI / 180) with 0 by field.
    rewrite sin_0, cos_0.
    replace (1 * 0 - 0 * 1 * cos ((lon2 - lon1) * PI / 180)) with 0 by ring.
    rewrite Rmult_1_r.
    rewrite atan2_up_axis.
    + apply bearing_of_angle; [ lra | field ].
    + apply sin_gt_0.
      * replace ((lon2 - lon1) * PI / 180)
          with ((lon2 - lon1) * (PI / 180)) by field.
        apply Rmult_lt_0_compat; lra.
      * replace ((lon2 - lon1) * PI / 180)
          with ((lon2 - lon1) * (PI / 180)) by field.
        replace PI with (180 * (PI / 180)) at 2 by field.
        apply Rmult_lt_compat_r; lra.
Qed.

Lemma bearing_cardinal_directions_witness :
  calculateBearing {| latitude := 10; longitude := 20 |}
                   {| latitude := 11; longitude := 20 |} = 0 /\
  calculateBearing {| latitude := 11; longitude := 20 |}
                   {| latitude := 10; longitude := 20 |} = 180 /\
  calculateBearing {| latitude := 0; longitude := 20 |}
                   {| latitude := 0; longitude := 21 |} = 90.
Proof.
  split; [ | split ].
  - apply (proj1 (bearing_cardinal_directions 10 11 20 0 0)). lra.
  - apply (proj1 (proj2 (bearing_cardinal_directions 11 10 20 0 0))). lra.
  - apply (proj2 (proj2 (bearing_cardinal_directions 0 0 0 20 21))). lra.
Defined.

(** *** Route interpolation *)

Lemma collect_some (body : nat -> option LatLng) (idxs : list nat) :
  (forall i, In i idxs -> exists p, body i = Some p) ->
  exists ps,
    collect body idxs = Some ps /\
    List.length ps = List.length idxs /\
    forall k i, nth_error idxs k = Some i -> nth_error ps k = body i.
Proof.
  induction idxs as [ | i idxs IH]; intros Hall.
  - exists []. repeat split. intros [ | k] i H; discriminate.
  - destruct (Hall i (or_introl eq_refl)) as [p Hp].
    destruct IH as (ps & Hc & Hlen & Hnth).
    { intros j Hj. apply Hall. now right. }
    exists (p :: ps). cbn [collect]. rewrite Hp, Hc.
    repeat split; [ simpl; lia | ].
    intros [ | k] j Hk; cbn [nth_error] in *.
    + injection Hk as <-. now rewrite Hp.
    + now apply Hnth.
Qed.

Lemma nth_error_seq_0 (n k i : nat) :
  nth_error (seq 0 n) k = Some i -> i = k /\ (k < n)%nat.
Proof.
  intros H.
  assert (Hk : (k < List.length (seq 0 n))%nat).
  { apply nth_error_Some. rewrite H. discriminate. }
  rewrite length_seq in Hk. split; [ | exact Hk ].
  rewrite (nth_error_nth' _ 0%nat) in H by (rewrite length_seq; exact Hk).
  rewrite seq_nth in H by exact Hk. injection H as <-. reflexivity.
Qed.

Lemma interpolatedAt_some (oldRoute newRoute : list LatLng) (progress : R)
      (referenceLength i : nat) :
  oldRoute <> [] -> newRoute <> [] -> (0 < referenceLength)%nat ->
  exists o n,
    In o oldRoute /\
    nth_error newRoute (Nat.min i (List.length newRoute - 1)) = Some n /\
    interpolatedAt oldRoute newRoute progress referenceLength i =
      Some (interpolatePoint o n progress).
Proof.
  intros Hold Hnew Href. unfold interpolatedAt. cbv zeta.
  set (k := Z.min _ _).
  assert (Hlen : (0 < List.length oldRoute)%nat).
  { destruct oldRoute; [ contradiction | simpl; lia ]. }
  assert (Hlen' : (0 < List.length newRoute)%nat).
  { destruct newRoute; [ contradiction | simpl; lia ]. }
  assert (Hk : (0 <= k < Z.of_nat (List.length oldRoute))%Z).
  { subst k. split; [ | lia ].
    apply Z.min_glb; [ | lia ]. apply floor_nonneg.
    apply Rmult_le_pos; [ | apply pos_INR ].
    unfold Rdiv. apply Rmult_le_pos; [ apply pos_INR | ].
    apply Rlt_le, Rinv_0_lt_compat. now apply lt_0_INR. }
  destruct (at_index_some oldRoute k Hk) as [o Ho].
  destruct (nth_error newRoute (Nat.min i (List.length newRoute - 1)))
    as [n | ] eqn:Hn.
  - exists o, n. rewrite Ho. repeat split.
    unfold at_index in Ho. destruct (k <? 0)%Z; [ discriminate | ].
    now apply nth_error_In in Ho.
  - apply nth_error_None in Hn. lia.
Qed.

Lemma interpolated_between (a b t : R) :
  0 <= t <= 1 -> Rmin a b <= a + (b - a) * t <= Rmax a b.
Proof.
  intros Ht. unfold Rmin, Rmax. destruct (Rle_dec a b); split; nra.
Qed.

(** X18.  For two routes that are not empty and a progress strictly
    between 0 and 1, [interpolateRoutes] returns a route (no index it
    reads is out of range) with as many points as the longer of the two;
    its [i]-th point blends a point of the old route with the point of the
    new route at index [min(i, newRoute.length - 1)], and lies between the
    two in latitude and in longitude. *)
Theorem interpolated_route_shape (oldRoute newRoute : list LatLng)
        (progress : R) :
  oldRoute <> [] -> newRoute <> [] -> 0 < progress < 1 ->
  exists result,
    interpolateRoutes oldRoute newRoute progress = Some result /\
    List.length result =
      Nat.max (List.length oldRoute) (List.length newRoute) /\
    forall i p, nth_error result i = Some p ->
      exists o n,
        In o oldRoute /\
        nth_error newRoute (Nat.min i (List.length newRoute - 1)) = Some n /\
        p = interpolatePoint o n progress /\
        Rmin (latitude o) (latitude n) <= latitude p
          <= Rmax (latitude o) (latitude n) /\
        Rmin (longitude o) (longitude n) <= longitude p
          <= Rmax (longitude o) (longitude n).
Proof.
  intros Hold Hnew Hp. unfold interpolateRoutes.
  assert (Hlen : (0 < List.length oldRoute)%nat).
  { destruct oldRoute; [ contradiction | simpl; lia ]. }
  assert (Hlen' : (0 < List.length newRoute)%nat).
  { destruct newRoute; [ contradiction | simpl; lia ]. }
  destruct (List.length oldRoute =? 0)%nat eqn:E1;
    [ apply Nat.eqb_eq in E1; lia | ].
  destruct (List.length newRoute =? 0)%nat eqn:E2;
    [ apply Nat.eqb_eq in E2; lia | ].
  unfold Js.geb, Js.leb.
  destruct (Rle_dec 1 progress) as [Hge | _]; [ lra | ].
  destruct (Rle_dec progress 0) as [Hle | _]; [ lra | ].
  cbv zeta.
  set (referenceRoute :=
         if (List.length oldRoute <=? List.length newRoute)%nat
         then newRoute else oldRoute).
  assert (Href : List.length referenceRoute =
                 Nat.max (List.length oldRoute) (List.length newRoute)).
  { subst referenceRoute.
    destruct (List.length oldRoute <=? List.length newRoute)%nat eqn:E;
      [ apply Nat.leb_le in E | apply Nat.leb_gt in E ]; lia. }
  destruct (collect_some
              (interpolatedAt oldRoute newRoute progress
                              (List.length referenceRoute))
              (seq 0 (List.length referenceRoute)))
    as (ps & Hc & Hl & Hnth).
  { intros i _.
    destruct (interpolatedAt_some oldRoute newRoute progress
                (List.length referenceRoute) i Hold Hnew) as (o & n & _ & _ & H);
      [ lia | ].
    eauto. }
  exists ps. split; [ exact Hc | ]. split.
  { rewrite Hl, length_seq. exact Href. }
  intros i p Hi.
  assert (Hlt : (i < List.length ps)%nat).
  { apply nth_error_Some. rewrite Hi. discriminate. }
  rewrite Hl, length_seq in Hlt.
  assert (Hseq : nth_error (seq 0 (List.length referenceRoute)) i = Some i).
  { rewrite (nth_error_nth' _ 0%nat) by (rewrite length_seq; exact Hlt).
    now rewrite seq_nth. }
  rewrite (Hnth i i Hseq) in Hi.
  destruct (interpolatedAt_some oldRoute newRoute progress
              (List.length referenceRoute) i Hold Hnew) as (o & n & Ho & Hn & H);
    [ lia | ].
  rewrite H in Hi. injection Hi as <-.
  exists o, n. repeat split; try assumption; cbn [interpolatePoint latitude
    longitude]; apply interpolated_between; lra.
Qed.

Lemma interpolated_route_shape_witness :
  exists result,
    interpolateRoutes [{| latitude := 0; longitude := 0 |}]
                      [{| latitude := 2; longitude := 2 |};
                       {| latitude := 4; longitude := 4 |}] (1 / 2)
      = Some result /\
    List.length result = 2%nat.
Proof.
  destruct (interpolated_route_shape
              [{| latitude := 0; longitude := 0 |}]
              [{| latitude := 2; longitude := 2 |};
               {| latitude := 4; longitude := 4 |}] (1 / 2))
    as (result & Hr & Hl & _); [ discriminate | discriminate | lra | ].
  exists result. split; [ exact Hr | exact Hl ].
Defined.

End RouteGeometryFacts.

(** ** The heartbeat timer of the socket module *)

Section HeartbeatFacts.
Import SocketChannel.

(** The timers the runtime keeps are exactly the one the module variable
    [heartbeatInterval] names. *)
Definition oneTimer (c : Channel) : Prop :=
  intervals c =
  match heartbeatInterval c with
  | Some id => [id]
  | None => []
  end.

Lemma stopHeartbeat_clears (c : Channel) :
  oneTimer c ->
  heartbeatInterval (stopHeartbeat c) = None /\ intervals (stopHeartbeat c) = [].
Proof.
  unfold oneTimer, stopHeartbeat. intros H.
  destruct (heartbeatInterval c) as [id | ] eqn:E; cbn.
  - rewrite H. cbn. rewrite Nat.eqb_refl. auto.
  - rewrite E. auto.
Qed.

Lemma startHeartbeat_oneTimer (c : Channel) :
  oneTimer c -> oneTimer (startHeartbeat c).
Proof.
  intros H. destruct (stopHeartbeat_clears c H) as [_ Hi].
  unfold oneTimer, startHeartbeat. cbn. now rewrite Hi.
Qed.

Lemma channelStep_oneTimer (c : Channel) (e : ChannelEvent) :
  oneTimer c -> oneTimer (fst (channelStep c e)).
Proof.
  intros H. destruct e; cbn [channelStep fst]; try exact H.
  - now apply startHeartbeat_oneTimer.
  - destruct (stopHeartbeat_clears c H) as [Hh Hi].
    unfold oneTimer, withConnected. cbn. now rewrite Hh, Hi.
  - now apply startHeartbeat_oneTimer.
  - now apply startHeartbeat_oneTimer.
Qed.

Lemma channelRun_oneTimer (events : list ChannelEvent) :
  forall c : Channel, oneTimer c -> oneTimer (channelRun c events).
Proof.
  unfold channelRun.
  induction events as [ | e events IH]; intros c H; [ exact H | ].
  cbn [fold_left]. apply IH. now apply channelStep_oneTimer.
Qed.

Lemma channelRun_snoc (c : Channel) (events : list ChannelEvent)
      (e : ChannelEvent) :
  channelRun c (events ++ [e]) = fst (channelStep (channelRun c events) e).
Proof. unfold channelRun. now rewrite fold_left_app. Qed.

(** X19.  Whatever sequence of calls and socket events the module sees,
    the runtime keeps at most one heartbeat timer, the one named by
    [heartbeatInterval]; after [disconnectSocket()] it keeps none; and a
    firing timer emits a heartbeat only while the socket is connected, and
    only if it is that one timer. *)
Theorem single_heartbeat_timer (events : list ChannelEvent) (id : nat) :
  let c := channelRun initialChannel events in
  (List.length (intervals c) <= 1)%nat /\
  (forall t, In t (intervals c) <-> heartbeatInterval c = Some t) /\
  intervals (channelRun initialChannel (events ++ [CallDisconnectSocket])) = [] /\
  (In EmitHeartbeat (snd (channelStep c (IntervalFires id))) ->
   connected c = true /\ heartbeatInterval c = Some id).
Proof.
  intros c.
  assert (H : oneTimer c) by (apply channelRun_oneTimer; reflexivity).
  split; [ | split; [ | split ] ].
  - rewrite H. destruct (heartbeatInterval c); simpl; lia.
  - intros t. rewrite H. destruct (heartbeatInterval c) as [i | ]; simpl.
    + split; [ intros [-> | []]; reflexivity | intros [= ->]; now left ].
    + split; [ intros [] | discriminate ].
  - rewrite channelRun_snoc. fold c. cbn [channelStep fst].
    destruct (stopHeartbeat_clears c H) as [_ Hi]. exact Hi.
  - cbn [channelStep snd]. rewrite H.
    destruct (heartbeatInterval c) as [i | ]; cbn [existsb orb andb];
      [ | intros [] ].
    destruct (Nat.eqb id i) eqn:E; cbn [orb andb]; [ | intros [] ].
    apply Nat.eqb_eq in E. subst i.
    destruct (connected c); [ auto | intros [] ].
Qed.

Lemma single_heartbeat_timer_witness :
  let c := channelRun initialChannel [CallConnectSocket; OnConnect] in
  intervals c = [1%nat] /\
  connected c = true /\ heartbeatInterval c = Some 1%nat.
Proof.
  intros c.
  destruct (single_heartbeat_timer [CallConnectSocket; OnConnect] 1)
    as (_ & _ & _ & Hfires).
  split; [ reflexivity | ].
  apply Hfires. simpl. now left.
Defined.

End HeartbeatFacts.

(** ** The nearest route point of the screen *)

Section ScreenRouteFacts.
Import Screen1.

(** What the loop of the screen's [findNearestPointOnRoute] has
    established after the first [k] points. *)
Definition scanned (currentLocation : LocationType)
           (routeCoords : list LocationType) (k : nat)
           (best : Js.number * nat) : Prop :=
  (fst best = Js.Infinity -> snd best = 0%nat) /\
  (forall r, fst best = Js.Finite r ->
     (snd best < k)%nat /\
     (exists p, nth_error routeCoords (snd best) = Some p /\
                haversine currentLocation p = Some r) /\
     forall j q d, (j < snd best)%nat -> nth_error routeCoords j = Some q ->
                   haversine currentLocation q = Some d -> r < d) /\
  (forall j q d, (j < k)%nat -> nth_error routeCoords j = Some q ->
                 haversine currentLocation q = Some d ->
                 exists r, fst best = Js.Finite r /\ r <= d).

Lemma nearer_scanned (currentLocation : LocationType)
      (routeCoords : list LocationType) (k : nat) (best : Js.number * nat) :
  scanned currentLocation routeCoords k best ->
  scanned currentLocation routeCoords (S k)
          (nearer currentLocation routeCoords best k).
Proof.
  intros (Hinf & Hfin & Hmin). unfold nearer.
  assert (Hkeep : (forall j q d, (j < S k)%nat ->
                     nth_error routeCoords j = Some q ->
                     haversine currentLocation q = Some d ->
                     (j < k)%nat \/ j = k) ) by (intros; lia).
  destruct (nth_error routeCoords k) as [p | ] eqn:Hp.
  - destruct (haversine currentLocation p) as [d | ] eqn:Hd.
    + destruct best as [[m | ] idx]; cbn [fst snd Js.lt_number] in *.
      * unfold Js.ltb. destruct (Rlt_dec d m) as [Hlt | Hge].
        -- split; [ discriminate | ]. split; cbn [fst snd].
           ++ intros r [= <-]. split; [ lia | ]. split; [ eauto | ].
              intros j q e Hj Hq He.
              destruct (Hmin j q e Hj Hq He) as (r & [= <-] & Hle). lra.
           ++ intros j q e Hj Hq He.
              destruct (Hkeep j q e Hj Hq He) as [Hlt' | ->].
              ** destruct (Hmin j q e Hlt' Hq He) as (r & [= <-] & Hle).
                 exists d. split; [ reflexivity | lra ].
              ** rewrite Hp in Hq. injection Hq as <-.
                 rewrite Hd in He. injection He as <-.
                 exists d. split; [ reflexivity | lra ].
        -- split; [ discriminate | ]. split; cbn [fst snd].
           ++ intros r Hr. destruct (Hfin r Hr) as (Hi & Hex & Hfirst).
              split; [ lia | ]. split; assumption.
           ++ intros j q e Hj Hq He.
              destruct (Hkeep j q e Hj Hq He) as [Hlt' | ->].
              ** now apply (Hmin j q e).
              ** rewrite Hp in Hq. injection Hq as <-.
                 rewrite Hd in He. injection He as <-.
                 exists m. split; [ reflexivity | lra ].
      * split; [ discriminate | ]. split; cbn [fst snd].
        -- intros r [= <-]. split; [ lia | ]. split; [ eauto | ].
           intros j q e Hj Hq He.
           destruct (Hmin j q e Hj Hq He) as (r & Hr & _). discriminate.
        -- intros j q e Hj Hq He.
           destruct (Hkeep j q e Hj Hq He) as [Hlt' | ->].
           ** destruct (Hmin j q e Hlt' Hq He) as (r & Hr & _). discriminate.
           ** rewrite Hp in Hq. injection Hq as <-.
              rewrite Hd in He. injection He as <-.
              exists d. split; [ reflexivity | lra ].
    + split; [ exact Hinf | ]. split.
      * intros r Hr. destruct (Hfin r Hr) as (Hi & Hex & Hfirst).
        split; [ lia | ]. split; assumption.
      * intros j q e Hj Hq He.
        destruct (Hkeep j q e Hj Hq He) as [Hlt' | ->].
        -- now apply (Hmin j q e).
        -- rewrite Hp in Hq. injection Hq as <-. congruence.
  - split; [ exact Hinf | ]. split.
    + intros r Hr. destruct (Hfin r Hr) as (Hi & Hex & Hfirst).
      split; [ lia | ]. split; assumption.
    + intros j q e Hj Hq He.
      destruct (Hkeep j q e Hj Hq He) as [Hlt' | ->].
      * now apply (Hmin j q e).
      * congruence.
Qed.

Lemma fold_nearer_scanned (currentLocation : LocationType)
      (routeCoords : list LocationType) (k : nat) :
  scanned currentLocation routeCoords k
          (fold_left (nearer currentLocation routeCoords) (seq 0 k)
                     (Js.Infinity, 0%nat)).
Proof.
  induction k as [ | k IH].
  - cbn. split; [ reflexivity | ]. split; [ discriminate | ].
    intros j q d Hj. lia.
  - rewrite seq_S, fold_left_app. cbn [fold_left Nat.add].
    now apply nearer_scanned.
Qed.

(** X20.  The screen's own [findNearestPointOnRoute] returns [null]
    exactly for an empty route.  Otherwise it scans the whole route: the
    distance it returns is the distance to the point at the index it
    returns, no point of the route is nearer, and every earlier point is
    strictly farther; it returns [Infinity] with index 0 only when no
    distance is a number. *)
Theorem screen_nearest_point_is_global_minimum
        (currentLocation : LocationType) (routeCoords : list LocationType) :
  (findNearestPointOnRoute currentLocation routeCoords = None <->
   routeCoords = []) /\
  forall (m : Js.number) (idx : nat),
    findNearestPointOnRoute currentLocation routeCoords = Some (m, idx) ->
    (idx < List.length routeCoords)%nat /\
    (m = Js.Infinity ->
     idx = 0%nat /\
     forall q, In q routeCoords -> haversine currentLocation q = None) /\
    (forall r, m = Js.Finite r ->
       (exists p, nth_error routeCoords idx = Some p /\
                  haversine currentLocation p = Some r) /\
       (forall q d, In q routeCoords ->
                    haversine currentLocation q = Some d -> r <= d) /\
       (forall j q d, (j < idx)%nat -> nth_error routeCoords j = Some q ->
                      haversine currentLocation q = Some d -> r < d)).
Proof.
  unfold findNearestPointOnRoute. split.
  - destruct routeCoords; cbn [List.length Nat.eqb];
      split; congruence.
  - intros m idx.
    destruct (List.length routeCoords =? 0)%nat eqn:E; [ discriminate | ].
    apply Nat.eqb_neq in E.
    pose proof (fold_nearer_scanned currentLocation routeCoords
                                    (List.length routeCoords)) as H.
    intros [= Hbest]. rewrite Hbest in H.
    destruct H as (Hinf & Hfin & Hmin). cbn [fst snd] in *.
    split; [ | split ].
    + destruct m as [r | ].
      * destruct (Hfin r eq_refl) as (Hi & _). exact Hi.
      * rewrite (Hinf eq_refl). lia.
    + intros ->. split; [ now apply Hinf | ].
      intros q Hq. apply In_nth_error in Hq. destruct Hq as [j Hj].
      destruct (haversine currentLocation q) as [d | ] eqn:Hd;
        [ | reflexivity ].
      assert (Hlt : (j < List.length routeCoords)%nat).
      { apply nth_error_Some. rewrite Hj. discriminate. }
      destruct (Hmin j q d Hlt Hj Hd) as (r & Hr & _). discriminate.
    + intros r ->. destruct (Hfin r eq_refl) as (_ & Hex & Hfirst).
      split; [ exact Hex | ]. split; [ | exact Hfirst ].
      intros q d Hq Hd. apply In_nth_error in Hq. destruct Hq as [j Hj].
      assert (Hlt : (j < List.length routeCoords)%nat).
      { apply nth_error_Some. rewrite Hj. discriminate. }
      destruct (Hmin j q d Hlt Hj Hd) as (r' & [= <-] & Hle). exact Hle.
Qed.

Lemma screen_nearest_point_is_global_minimum_witness :
  exists (m : Js.number) (idx : nat),
    findNearestPointOnRoute exampleLocation [exampleLocation; exampleLocation]
      = Some (m, idx) /\
    (idx < 2)%nat.
Proof.
  pose (best := fold_left (nearer exampleLocation
                                  [exampleLocation; exampleLocation])
                          (seq 0 2) (Js.Infinity, 0%nat)).
  assert (E : findNearestPointOnRoute exampleLocation
                [exampleLocation; exampleLocation]
              = Some (fst best, snd best)).
  { unfold findNearestPointOnRoute. cbn [List.length Nat.eqb].
    fold best. now destruct best. }
  exists (fst best), (snd best). split; [ exact E | ].
  exact (proj1 (proj2 (screen_nearest_point_is_global_minimum
                         exampleLocation [exampleLocation; exampleLocation])
                      (fst best) (snd best) E)).
Defined.

End ScreenRouteFacts.

(** ** Further properties of the ride handlers *)

Section RideHandlerFacts.
Import Screen1.
Local Open Scope string_scope.

(** The ride a server message is about, for the messages whose handlers
    compare it with the current ride before doing anything. *)
Definition addressedTo (e : Event) : option (option string) :=
  match e with
  | RideAlreadyAccepted dataRideId => Some dataRideId
  | BillAlertArrives data => Some (alertRideId data)
  | RideOtpArrives dataRideId _ => Some dataRideId
  | OtpVerificationSucceeds dataRideId => Some dataRideId
  | OtpVerificationFails dataRideId _ => Some dataRideId
  | _ => None
  end.

(** The messages of the server that the screen handles. *)
Definition fromServer (e : Event) : bool :=
  match e with
  | RideCancelled _ | RideAlreadyAccepted _ | RideTakenByDriver _ _ _
  | BillAlertArrives _ | RideOtpArrives _ _ | OtpVerificationSucceeds _
  | OtpVerificationFails _ _ | RideRequested _ => true
  | _ => false
  end.

Lemma unmounted_inert (w : World) (e : Event) :
  fromServer e = true -> isMounted (state w) = false -> step w e = (w, []).
Proof.
  intros He Hm. destruct e; try discriminate; cbn [step];
    apply handle_nothing;
    unfold handleRideCancelled, handleRideAlreadyAccepted,
      handleRideTakenByDriver, handleBillAlert, handleRideOTP,
      handleOtpVerificationSuccess, handleOtpVerificationFailed,
      handleRideRequest;
    now rewrite Hm.
Qed.

Lemma other_ride_inert (w : World) (e : Event) (dataRideId : option string) :
  addressedTo e = Some dataRideId -> sameRide (state w) dataRideId = false ->
  step w e = (w, []).
Proof.
  intros He Hs. destruct e; try discriminate; injection He as <-;
    cbn [step]; apply handle_nothing;
    unfold handleRideAlreadyAccepted, handleBillAlert, handleRideOTP,
      handleOtpVerificationSuccess, handleOtpVerificationFailed;
    rewrite Hs; destruct (isMounted (state w)); cbn [negb];
    try reflexivity.
  now destruct (ride (state w)).
Qed.

(** X21.  A message about a ride that is not the current one
    ([rideAlreadyAccepted], [billAlert], [rideOTP],
    [otpVerificationSuccess], [otpVerificationFailed]) changes nothing and
    has no effect; [rideTakenByDriver] about another ride changes nothing
    either (it may still raise its alert); and once the screen is
    unmounted no message of the server changes anything. *)
Theorem messages_for_another_ride_ignored
        (w : World) (e : Event) (dataRideId : option string)
        (dataDriverId dataMessage : option string) :
  (addressedTo e = Some dataRideId ->
   sameRide (state w) dataRideId = false -> step w e = (w, [])) /\
  (sameRide (state w) dataRideId = false ->
   fst (step w (RideTakenByDriver dataDriverId dataRideId dataMessage)) = w) /\
  (fromServer e = true -> isMounted (state w) = false ->
   step w e = (w, [])).
Proof.
  split; [ apply other_ride_inert | ]. split; [ | apply unmounted_inert ].
  intros Hs. cbn [step]. rewrite handle_eq.
  unfold handleRideTakenByDriver. rewrite Hs.
  destruct (isMounted (state w)); cbn [negb];
    [ | cbn; apply withState_same ].
  destruct dataDriverId as [a | ], (driverId (state w)) as [b | ];
    try destruct (String.eqb a b); cbn; apply withState_same.
Qed.

Lemma messages_for_another_ride_ignored_witness :
  step (quiet exampleAccepted) (OtpVerificationSucceeds (Some "ride-B"))
    = (quiet exampleAccepted, []) /\
  step (quiet (exampleAccepted |> setIsMounted false))
       (RideCancelled (Some "ride-A"))
    = (quiet (exampleAccepted |> setIsMounted false), []).
Proof.
  split.
  - apply (proj1 (messages_for_another_ride_ignored
                    (quiet exampleAccepted)
                    (OtpVerificationSucceeds (Some "ride-B"))
                    (Some "ride-B") None None));
      reflexivity.
  - apply (proj2 (proj2 (messages_for_another_ride_ignored
                           (quiet (exampleAccepted |> setIsMounted false))
                           (RideCancelled (Some "ride-A"))
                           None None None)));
      reflexivity.
Defined.

(** *** Completion needs a started trip *)

Ltac split_match :=
  match goal with
  | |- context [match ?x with _ => _ end] => destruct x eqn:?
  | |- context [if ?x then _ else _] => destruct x eqn:?
  end.

(** An effect list without a completion request. *)
Ltac no_post :=
  cbn; intros Hin;
  repeat match goal with
         | H : _ \/ _ |- _ => destruct H
         | H : In _ _ |- _ => cbn in H
         end;
  try discriminate; try contradiction.

Lemma step_post_completion (w : World) (e : Event) (body : Payload)
      (finalLocation : FinalLocation) :
  In (PostCompletion body finalLocation) (snd (step w e)) ->
  tripUnderWay w = true.
Proof.
  destruct w as [s acks timers dialogs requests errors].
  destruct e;
    cbn [step state acceptAcks tripStartTimers completeDialogs completionRequests errorDialogs].
  all: repeat split_match.
  all: rewrite ?handle_eq;
       cbn [state acceptAcks tripStartTimers completeDialogs completionRequests
            errorDialogs snd].
  all: try (match goal with
            | Htake : takeAt _ _ = Some _ |- _ =>
                apply takeAt_nonEmpty in Htake
            end;
            intros _; unfold tripUnderWay; cbn;
            rewrite Htake; rewrite ?orb_true_r; reflexivity).
  all: try unfold pressAcceptButton, pressRejectButton, restoreRideState.
  all: try unfold acceptRide, acceptRideCallback, confirmOTP,
         handleDisconnect, pressRideButton, completeRide,
         handleBillModalClose,
         handleRideCancelled, handleRideAlreadyAccepted,
         handleRideTakenByDriver, handleBillAlert, handleRideOTP,
         handleOtpVerificationSuccess, handleOtpVerificationFailed,
         handleRideRequest, rejectRide.
  all: repeat split_match.
  all: no_post.
  all: match goal with
       | Htake : takeAt _ _ = Some _ |- _ =>
           apply takeAt_nonEmpty in Htake; unfold tripUnderWay; cbn;
           rewrite Htake; rewrite ?orb_true_r; reflexivity
       end.
Qed.

Lemma effectsOf_In (x : Effect) (events : list Event) :
  forall w : World,
    In x (effectsOf w events) ->
    exists before e after,
      events = (before ++ e :: after)%list /\
      In x (snd (step (run w before) e)).
Proof.
  induction events as [ | e events IH]; intros w Hin; [ contradiction | ].
  cbn [effectsOf] in Hin. apply in_app_or in Hin. destruct Hin as [Hin | Hin].
  - exists [], e, events. split; [ reflexivity | exact Hin ].
  - destruct (IH _ Hin) as (before & e' & after & -> & Hin').
    exists (e :: before), e', after. split; [ reflexivity | exact Hin' ].
Qed.

(** X22.  A completion request is sent only for a trip that is under way.
    Starting from a screen whose ride is not started and with nothing
    pending, if a sequence of events sends a request to
    [/rides/complete-with-calculation], then earlier in the sequence either
    the driver confirmed a four-character code equal to the code of the
    ride that was current at that moment, or a saved session whose saved
    status is [started] was restored. *)
Theorem completion_only_for_trip_under_way
        (s0 : State) (events : list Event) (body : Payload)
        (finalLocation : FinalLocation) :
  rideStatus s0 <> started ->
  In (PostCompletion body finalLocation) (effectsOf (quiet s0) events) ->
  exists before e after,
    events = (before ++ e :: after)%list /\
    ((e = TapConfirmOtp /\
      otpMatches (state (run (quiet s0) before)) = true) \/
     (exists rideState token backend,
         e = RestoreRideState (Some rideState) token backend /\
         savedRideStatus rideState = started)).
Proof.
  intros Hidle Hin.
  destruct (effectsOf_In _ _ _ Hin) as (before & e & after & -> & Hstep).
  apply step_post_completion in Hstep. apply run_gate in Hstep.
  destruct Hstep as [H0 | (b & e' & a & -> & Hopen)].
  - unfold tripUnderWay, quiet in H0. cbn in H0.
    destruct (rideStatus s0); try discriminate. now contradiction Hidle.
  - exists b, e', (a ++ e :: after)%list.
    split; [ now rewrite <- app_assoc | ].
    now apply opensGate_cases.
Qed.

Lemma completion_only_for_trip_under_way_witness :
  let events :=
    [TypeOtp "4821"; TapConfirmOtp; TripStartTimerFires 0; TapRideButton;
     DialogComplete 0] in
  exists before e after,
    events = (before ++ e :: after)%list /\
    ((e = TapConfirmOtp /\
      otpMatches (state (run (quiet exampleAccepted) before)) = true) \/
     (exists rideState token backend,
         e = RestoreRideState (Some rideState) token backend /\
         savedRideStatus rideState = started)).
Proof.
  intros events.
  apply (completion_only_for_trip_under_way
           exampleAccepted events
           [("rideId", JString "ride-A"); ("driverId", JString "driver-1");
            ("completedLatitude", JNumber 12);
            ("completedLongitude", JNumber 77)]
           {| lat := 12; lng := 77 |}).
  - discriminate.
  - vm_compute.
    repeat match goal with
           | |- _ \/ _ => first [ left; reflexivity | right ]
           end.
Defined.

(** *** The acknowledgement of an accept request *)

Lemma acknowledged (w : World) (i : nat) (response : AcceptResponse)
      (current : string) (rest : list string) :
  takeAt i (acceptAcks w) = Some (current, rest) ->
  let w' := fst (step w (AcceptAcknowledged i response)) in
  let effects := snd (step w (AcceptAcknowledged i response)) in
  acceptAcks w' = rest /\
  isAccepting (state w') = false /\
  pendingAcceptRideId (state w') = None /\
  isLoading (state w') = false /\
  (acceptButtonDisabled (state w') = false \/ In (Throw "TypeError") effects).
Proof.
  intros Htake.
  destruct w as [s acks timers dialogs requests errors].
  cbn [acceptAcks] in *.
  cbn [step acceptAcks]. rewrite Htake. rewrite handle_eq.
  cbn [state acceptAcks tripStartTimers completeDialogs completionRequests errorDialogs].
  unfold acceptRideCallback.
  repeat split_match; cbn; repeat split;
    first [ reflexivity | left; reflexivity | right; cbn; auto ].
Qed.

(** X23.  Whatever the acknowledgement of an [acceptRide] request says
    (success, cancelled, already accepted, an error, or the screen gone),
    it takes the request off the pending ones and releases the lock:
    [isAccepting] is false, [pendingAcceptRideId] is [null], the spinner is
    off and one attempt fewer is under way.  The accept button is enabled
    again, except when the callback throws its [TypeError] (a success
    without ride and passenger data). *)
Theorem acknowledgement_releases_accept_lock
        (w : World) (i : nat) (response : AcceptResponse)
        (current : string) (rest : list string) :
  takeAt i (acceptAcks w) = Some (current, rest) ->
  let w' := fst (step w (AcceptAcknowledged i response)) in
  let effects := snd (step w (AcceptAcknowledged i response)) in
  acceptAcks w' = rest /\
  S (acceptsUnderWay w') = acceptsUnderWay w /\
  isAccepting (state w') = false /\
  pendingAcceptRideId (state w') = None /\
  isLoading (state w') = false /\
  (acceptButtonDisabled (state w') = false \/ In (Throw "TypeError") effects).
Proof.
  intros Htake w' effects.
  destruct (acknowledged w i response current rest Htake)
    as (Hacks & Hlock & Hpending & Hloading & Hbutton).
  fold w' in Hacks, Hlock, Hpending, Hloading, Hbutton.
  fold effects in Hbutton.
  repeat split; try assumption.
  unfold acceptsUnderWay. rewrite Hacks.
  apply takeAt_length in Htake. lia.
Qed.

Lemma acknowledgement_releases_accept_lock_witness :
  let w := run (quiet exampleOffered) [TapAccept] in
  let response :=
    {| success := false; rideCancelled := false; alreadyAccepted := false;
       message := None; responseUserId := None |} in
  let w' := fst (step w (AcceptAcknowledged 0 response)) in
  isAccepting (state w) = true /\
  isAccepting (state w') = false /\
  acceptsUnderWay w' = 0%nat /\
  acceptButtonDisabled (state w') = false.
Proof.
  intros w response w'.
  destruct (acknowledgement_releases_accept_lock w 0 response "ride-A" [])
    as (_ & Hcount & Hlock & _); [ reflexivity | ].
  fold w' in Hcount, Hlock.
  split; [ reflexivity | ]. split; [ exact Hlock | ].
  split; [ | reflexivity ].
  assert (Hw : acceptsUnderWay w = 1%nat) by reflexivity.
  rewrite Hw in Hcount. lia.
Defined.

(** *** The ride button *)

(** X24.  Pressing the ride button never changes the ride or its status.
    On an accepted ride it opens the code dialog; it opens the Complete
    Ride dialog only on a started ride with ride data and a current
    location whose coordinates are numbers, and the dialog carries exactly
    those coordinates. *)
Theorem ride_button_behaviour (s : State) (finalLocation : FinalLocation) :
  rideStatus (fst (pressRideButton s)) = rideStatus s /\
  ride (fst (pressRideButton s)) = ride s /\
  (rideStatus s = accepted -> ride s <> None ->
   pressRideButton s = (s |> setOtpModalVisible true, [])) /\
  (In (CompleteRideDialog finalLocation) (snd (pressRideButton s)) ->
   rideStatus s = started /\ ride s <> None /\
   exists l, location s = Some l /\
             latitude l = Js.Num (lat finalLocation) /\
             longitude l = Js.Num (lng finalLocation)).
Proof.
  unfold pressRideButton, rideButtonVisible, completeRide.
  split.
  { destruct (ride s) eqn:Hr, (rideStatus s) eqn:Hst; cbn; try reflexivity;
      repeat split_match; cbn; congruence. }
  split.
  { destruct (ride s) eqn:Hr, (rideStatus s) eqn:Hst; cbn; try reflexivity;
      repeat split_match; cbn; congruence. }
  split.
  - intros Hacc Hride. rewrite Hacc.
    destruct (ride s); [ reflexivity | contradiction ].
  - destruct (ride s) as [r | ] eqn:Hr;
      [ | destruct (rideStatus s); cbn; intros []; discriminate
          || contradiction ].
    destruct (rideStatus s) eqn:Hst;
      try (cbn; intros H; repeat destruct H as [H | H];
           discriminate || contradiction).
    destruct (location s) as [l | ] eqn:Hl;
      [ | cbn; intros H; repeat destruct H as [H | H];
          discriminate || contradiction ].
    destruct (latitude l) eqn:Hla;
      try (cbn; intros H; repeat destruct H as [H | H];
           discriminate || contradiction).
    destruct (longitude l) eqn:Hlo;
      try (cbn; intros H; repeat destruct H as [H | H];
           discriminate || contradiction).
    cbn. intros [H | [H | []]]; [ discriminate | ].
    injection H as <-. cbn.
    split; [ reflexivity | ]. split; [ discriminate | ].
    exists l. now rewrite Hla, Hlo.
Qed.

Lemma ride_button_behaviour_witness :
  pressRideButton exampleAccepted =
    (exampleAccepted |> setOtpModalVisible true, []).
Proof.
  apply (proj1 (proj2 (proj2 (ride_button_behaviour
                                exampleAccepted {| lat := 0; lng := 0 |})))).
  - reflexivity.
  - discriminate.
Defined.

End RideHandlerFacts.

(** ** Route simplification keeps to the route *)

Section RouteSimplificationFacts.
Import RouteService.

Lemma In_firstn_route {A : Type} (n : nat) (l : list A) (x : A) :
  In x (firstn n l) -> In x l.
Proof.
  intros H. rewrite <- (firstn_skipn n l). apply in_or_app. now left.
Qed.

Lemma In_skipn_route {A : Type} (n : nat) (l : list A) (x : A) :
  In x (skipn n l) -> In x l.
Proof.
  intros H. rewrite <- (firstn_skipn n l). apply in_or_app. now right.
Qed.

Lemma last_In_route {A : Type} (l : list A) (d : A) :
  l <> [] -> In (last l d) l.
Proof.
  induction l as [ | x [ | y l] IH]; intros Hne;
    [ contradiction | now left | ].
  right. apply IH. discriminate.
Qed.

(** What [simplifyRoute] returns is made of points of the route and is no
    longer than the route. *)
Lemma simplifyRoute_within (tolerance : R) :
  forall (fuel : nat) (route r : list LatLng),
    simplifyRoute fuel route tolerance = Some r ->
    incl r route /\ (List.length r <= List.length route)%nat.
Proof.
  induction fuel as [ | fuel IH]; intros route r Hr.
  - destruct route as [ | a [ | b [ | c rest]]]; cbn in Hr;
      try discriminate; injection Hr as <-;
      (split; [ apply incl_refl | lia ]).
  - rewrite simplifyRoute_S in Hr.
    destruct (List.length route <=? 2)%nat eqn:Hshort.
    { injection Hr as <-. split; [ apply incl_refl | lia ]. }
    apply Nat.leb_gt in Hshort.
    destruct route as [ | startPoint rest]; [ simpl in Hshort; lia | ].
    cbv zeta in Hr.
    destruct (farthest (startPoint :: rest) startPoint
                       (last (startPoint :: rest) startPoint))
      as [maxDistance maxIndex].
    destruct (Js.gtb maxDistance tolerance).
    + destruct (simplifyRoute fuel (firstn (maxIndex + 1) (startPoint :: rest))
                              tolerance) as [left_ | ] eqn:Hleft;
        [ | discriminate ].
      destruct (simplifyRoute fuel (skipn maxIndex (startPoint :: rest))
                              tolerance) as [right_ | ] eqn:Hright;
        [ | discriminate ].
      injection Hr as <-.
      destruct (IH _ _ Hleft) as [Hil Hll].
      destruct (IH _ _ Hright) as [Hir Hlr].
      split.
      * intros x Hx. apply in_app_or in Hx. destruct Hx as [Hx | Hx].
        -- rewrite removelast_firstn_len in Hx.
           apply In_firstn_route in Hx. apply Hil in Hx.
           now apply In_firstn_route in Hx.
        -- apply Hir in Hx. now apply In_skipn_route in Hx.
      * rewrite length_app, removelast_firstn_len, length_firstn.
        rewrite length_firstn in Hll. rewrite length_skipn in Hlr. lia.
    + injection Hr as <-. split; [ | simpl in *; lia ].
      intros x [<- | [<- | []]]; [ now left | ].
      apply (last_In_route (startPoint :: rest) startPoint). discriminate.
Qed.

(** X25.  For a route of at least two points and a tolerance that is not
    negative, [simplifyRoute] returns a route made only of points of the
    input, with at least two and at most as many points as the input. *)
Theorem simplified_route_within_route
        (route : list LatLng) (tolerance : R) (fuel : nat) :
  0 <= tolerance ->
  (2 <= List.length route)%nat ->
  (List.length route <= fuel)%nat ->
  exists r,
    simplifyRoute fuel route tolerance = Some r /\
    (forall p, In p r -> In p route) /\
    (2 <= List.length r <= List.length route)%nat.
Proof.
  intros Htol Hlen Hfuel.
  destruct (simplifyRoute_endpoints tolerance Htol fuel route Hlen Hfuel)
    as (r & Hr & Htwo & _).
  destruct (simplifyRoute_within tolerance fuel route r Hr) as [Hincl Hle].
  exists r. split; [ exact Hr | ]. split; [ exact Hincl | lia ].
Qed.

Lemma simplified_route_within_route_witness :
  exists r,
    simplifyRoute 3 (diagonal 3) defaultTolerance = Some r /\
    (forall p, In p r -> In p (diagonal 3)) /\
    (2 <= List.length r <= List.length (diagonal 3))%nat.
Proof.
  apply (simplified_route_within_route (diagonal 3) defaultTolerance 3).
  - unfold defaultTolerance. lra.
  - simpl. lia.
  - simpl. lia.
Defined.

End RouteSimplificationFacts.
